(** * Heating-station data pipeline: schema unification, merge,
      hourly resampling and smoothing

    A shallow embedding of the data-processing core of the repository:

    - [merged_data_module.py]: [HeatDataMerger] ([find_data_files],
      [process_low_cycle_data], [process_two_network_data],
      [merge_all_data]);
    - [chart_generator.py]: the sort step of
      [ChartGenerator.clean_and_preprocess_data],
      [ChartGenerator._resample_data] and [smooth_data_with_confidence].

    Conventions.  A pandas DataFrame is a list of column names together
    with labelled rows; a row maps a column name to a cell.  A missing
    value ([None], [NaN], [NaT]) is the cell [NA].  Python strings are
    kept as their UTF-8 bytes, so equality, containment and ordering of
    strings coincide with those of Python's code-point strings.  Instants
    are integers counting nanoseconds since the epoch, as in pandas.
    Measurements are exact rationals in the resampler and real numbers in
    the smoother: rounding of binary floating point is not modelled. *)

From Stdlib Require Import List String Ascii Bool Arith ZArith QArith Lia.
From Stdlib Require Import Permutation Sorted.
From Stdlib Require Import Reals Lra.
Import ListNotations.

Local Close Scope Q_scope.
Local Open Scope string_scope.
Local Open Scope list_scope.
Local Open Scope Z_scope.

(* ================================================================== *)
(** ** Errors *)
(* ================================================================== *)

(** The exceptions the modelled code raises, by the statement raising
    them.  The Python code raises plain [Exception] objects whose message
    embeds the column or file name; the payload below is that name. *)
Inductive error : Type :=
| MissingLowCycleColumn (col : string)
| MissingTwoNetworkColumn (col : string)
| NoDateInFileName (filename : string)
| NoLowCycleFiles
| NoTwoNetworkFiles
| KeyError (col : string)
| DateRangeNaT
| GroupWithoutInstant
| NoObjectsToConcatenate
| InvalidWindow.

Inductive result (A : Type) : Type :=
| Ok (a : A)
| Err (e : error).
Arguments Ok {A} a.
Arguments Err {A} e.

Definition bind {A B : Type} (m : result A) (f : A -> result B) : result B :=
  match m with
  | Ok a => f a
  | Err e => Err e
  end.

Notation "x <- m ;; k" := (bind m (fun x => k))
  (at level 61, m at next level, right associativity).

Fixpoint mapM {A B : Type} (f : A -> result B) (l : list A) : result (list B) :=
  match l with
  | [] => Ok []
  | a :: tl => b <- f a ;; bs <- mapM f tl ;; Ok (b :: bs)
  end.

(* ================================================================== *)
(** ** Tables *)
(* ================================================================== *)

Inductive cell : Type :=
| NA
| Num (q : Q)
| Str (s : string)
| Stamp (t : Z).

Definition notna (c : cell) : bool :=
  match c with NA => false | _ => true end.

(** A row gives the cell under each column name; only the names listed in
    the frame's [columns] belong to the table. *)
Abbreviation row := (string -> cell) (only parsing).

Record DataFrame : Type := mkDF {
  columns : list string;
  rows : list (Z * row)      (* index label, row *)
}.

Definition mem (c : string) (l : list string) : bool :=
  existsb (String.eqb c) l.

Definition has_column (c : string) (df : DataFrame) : bool :=
  mem c (columns df).

Definition nrows (df : DataFrame) : nat := List.length (rows df).

(** [df[c]]: the cells of one column, in row order. *)
Definition column (c : string) (df : DataFrame) : list cell :=
  map (fun r => snd r c) (rows df).

Definition upd (r : row) (c : string) (v : cell) : row :=
  fun k => if String.eqb k c then v else r k.

(** [df[c] = v] for a scalar [v]: the column is overwritten in place when
    it exists and appended as the last column otherwise. *)
Definition setitem (c : string) (v : cell) (df : DataFrame) : DataFrame :=
  {| columns := if has_column c df then columns df else columns df ++ [c];
     rows := map (fun r => (fst r, upd (snd r) c v)) (rows df) |}.

Fixpoint zip_update (c : string) (rs : list (Z * row)) (vs : list cell)
  : list (Z * row) :=
  match rs with
  | [] => []
  | r :: rs' => (fst r, upd (snd r) c (hd NA vs)) :: zip_update c rs' (tl vs)
  end.

(** [df[c] = series] for a series computed from the frame itself (same
    index): cell by cell, a row without a value gets [NA]. *)
Definition setitem_series (c : string) (vs : list cell) (df : DataFrame)
  : DataFrame :=
  {| columns := if has_column c df then columns df else columns df ++ [c];
     rows := zip_update c (rows df) vs |}.

Definition restrict (cols : list string) (r : row) : row :=
  fun k => if mem k cols then r k else NA.

(** [df[names]]: selection of a list of columns, in the order asked for;
    a name that is not a column raises [KeyError]. *)
Definition getitem_list (names : list string) (df : DataFrame)
  : result DataFrame :=
  match find (fun c => negb (has_column c df)) names with
  | Some c => Err (KeyError c)
  | None =>
      Ok {| columns := names;
            rows := map (fun r => (fst r, restrict names (snd r))) (rows df) |}
  end.

Fixpoint union_columns (acc : list string) (l : list string) : list string :=
  match l with
  | [] => acc
  | c :: tl => union_columns (if mem c acc then acc else acc ++ [c]) tl
  end.

Fixpoint relabel (start : Z) (rs : list (Z * row)) : list (Z * row) :=
  match rs with
  | [] => []
  | r :: tl => (start, snd r) :: relabel (start + 1) tl
  end.

(** [pd.concat(dfs)] along the rows: the columns are the union of the
    frames' columns in order of first appearance, every row is NA outside
    the columns of its own frame, and concatenating nothing is an error. *)
Definition concat_rows (dfs : list DataFrame) : list (Z * row) :=
  flat_map (fun df => map (fun r => (fst r, restrict (columns df) (snd r)))
                          (rows df)) dfs.

Definition concat (ignore_index : bool) (dfs : list DataFrame)
  : result DataFrame :=
  match dfs with
  | [] => Err NoObjectsToConcatenate
  | _ =>
      Ok {| columns := fold_left union_columns (map columns dfs) [];
            rows := if ignore_index then relabel 0 (concat_rows dfs)
                    else concat_rows dfs |}
  end.

(* ================================================================== *)
(** ** Strings *)
(* ================================================================== *)

Definition endswith (s suffix : string) : bool :=
  let n := String.length s in
  let k := String.length suffix in
  (k <=? n)%nat && String.eqb (substring (n - k) k s) suffix.

Definition startswith (s pre : string) : bool := prefix pre s.

(** [sub in s] *)
Fixpoint contains (sub s : string) : bool :=
  prefix sub s ||
  match s with
  | EmptyString => false
  | String _ tl => contains sub tl
  end.

(** A byte of the form 10xxxxxx continues a UTF-8 sequence. *)
Definition is_continuation (b : ascii) : bool :=
  let n := nat_of_ascii b in (128 <=? n)%nat && (n <? 192)%nat.

(** The characters (code points) of a string, each as its UTF-8 bytes. *)
Fixpoint chars (s : string) : list string :=
  match s with
  | EmptyString => []
  | String b tl =>
      let rest := chars tl in
      match tl, rest with
      | String b' _, c :: cs =>
          if is_continuation b' then String b c :: cs
          else String b EmptyString :: rest
      | _, _ => String b EmptyString :: rest
      end
  end.

Definition unchars (cs : list string) : string := String.concat EmptyString cs.


(* ================================================================== *)
(** ** Library and operating-system primitives *)
(* ================================================================== *)

(** What the code calls but does not define.  The merger never inspects
    how these compute, so they stay abstract. *)
Class Library : Type := {
  os_listdir : string -> list string;
  os_path_join : string -> string -> string;
  os_path_basename : string -> string;
  (** [pd.read_excel(path)] *)
  read_excel : string -> DataFrame;
  (** [pd.to_datetime(series, errors='coerce')]: cells of a column to
      [Stamp] or [NA] *)
  to_datetime : list cell -> list cell;
  (** [pd.to_datetime(text, errors='coerce')] on one string *)
  to_datetime_scalar : string -> cell;
  (** [Timestamp.strftime('%Y-%m-%d')] *)
  strftime_ymd : Z -> string;
  (** [str(x)] and [s.strip()] *)
  py_str : cell -> string;
  strip : string -> string;
  (** the characters matched by [\d] in a [str] pattern (Unicode decimal
      digits), each given as its UTF-8 bytes *)
  is_decimal_digit : string -> bool
}.

(* ================================================================== *)
(** ** merged_data_module.py: HeatDataMerger *)
(* ================================================================== *)

Definition standard_columns : list string :=
  [ "序号"; "管理单位"; "管理所"; "换热站"; "测点名称"; "位置"; "楼层"; "设备标识";
    "数据时间"; "室温温度(℃)"; "报警状态"; "源文件"; "数据类型"; "环路";
    "计划热量(GJ)"; "瞬时热量(GJ/H)"; "热量(GJ)"; "瞬时流量(T/H)";
    "单位流量(T/万㎡)"; "阀门开度(%)"; "设定(℃)"; "反馈(℃)"; "供温(℃)";
    "回温(℃)"; "供压(Mpa)"; "回压(Mpa)"; "日期" ].

Definition low_cycle_required : list string :=
  [ "序号"; "管理单位"; "管理所"; "换热站"; "测点名称";
    "位置"; "楼层"; "设备标识"; "数据时间"; "室温温度(℃)"; "报警状态" ].

Definition two_network_required : list string :=
  [ "环路"; "计划热量(GJ)"; "瞬时热量(GJ/H)"; "热量(GJ)";
    "瞬时流量(T/H)"; "单位流量(T/万㎡)"; "阀门开度(%)";
    "设定(℃)"; "反馈(℃)"; "供温(℃)"; "回温(℃)";
    "供压(Mpa)"; "回压(Mpa)"; "数据时间" ].

(** [for col in required: if col not in df.columns: raise ...]: the first
    required column, in list order, that the frame lacks. *)
Definition first_missing (required : list string) (df : DataFrame)
  : option string :=
  find (fun col => negb (has_column col df)) required.

(** [missing_columns = [col for col in standard_columns if col not in
    df.columns]; for col in missing_columns: df[col] = None] *)
Definition missing_columns (df : DataFrame) : list string :=
  filter (fun col => negb (has_column col df)) standard_columns.

Definition add_missing_columns (df : DataFrame) : DataFrame :=
  fold_left (fun d col => setitem col NA d) (missing_columns df) df.

(** [\d{4}-\d{2}-\d{2}] on exactly ten characters. *)
Definition date_shape `{Library} (cs : list string) : bool :=
  match cs with
  | [y1; y2; y3; y4; h1; m1; m2; h2; d1; d2] =>
      is_decimal_digit y1 && is_decimal_digit y2 &&
      is_decimal_digit y3 && is_decimal_digit y4 &&
      String.eqb h1 "-" &&
      is_decimal_digit m1 && is_decimal_digit m2 &&
      String.eqb h2 "-" &&
      is_decimal_digit d1 && is_decimal_digit d2
  | _ => false
  end.

(** [re.search(r'(\d{4}-\d{2}-\d{2})', filename)]: the leftmost match,
    as the characters of group 1. *)
Fixpoint re_search_date `{Library} (cs : list string) : option (list string) :=
  match cs with
  | [] => None
  | _ :: tl =>
      if date_shape (firstn 10 cs) then Some (firstn 10 cs)
      else re_search_date tl
  end.

Section Merger.
Context `{Library}.

Definition dt_strftime (l : list cell) : list cell :=
  map (fun c => match c with
                | Stamp t => Str (strftime_ymd t)
                | _ => NA
                end) l.

Definition process_low_cycle_data (file_path : string) : result DataFrame :=
  let df := read_excel file_path in
  match first_missing low_cycle_required df with
  | Some col => Err (MissingLowCycleColumn col)
  | None =>
      let df := add_missing_columns df in
      let df := setitem "源文件" (Str (os_path_basename file_path)) df in
      let df := setitem "数据类型" (Str "低环") df in
      let df := setitem_series "数据时间"
                  (to_datetime (column "数据时间" df)) df in
      let df := setitem_series "日期"
                  (dt_strftime (column "数据时间" df)) df in
      getitem_list standard_columns df
  end.

Definition combine_datetime (file_date : string) (r : row) : cell :=
  if notna (r "数据时间") &&
     negb (String.eqb (strip (py_str (r "数据时间"))) EmptyString)
  then
    let time_str := strip (py_str (r "数据时间")) in
    if contains ":" time_str
    then to_datetime_scalar (file_date ++ " " ++ time_str)
    else NA
  else NA.

Definition process_two_network_data (file_path : string)
  : result DataFrame :=
  let filename := os_path_basename file_path in
  let df := read_excel file_path in
  match first_missing two_network_required df with
  | Some col => Err (MissingTwoNetworkColumn col)
  | None =>
      let df := add_missing_columns df in
      let df := setitem "源文件" (Str filename) df in
      let df := setitem "数据类型" (Str "二网") df in
      match re_search_date (chars filename) with
      | None => Err (NoDateInFileName filename)
      | Some date_match =>
          let file_date := unchars date_match in
          let df := setitem "日期" (Str file_date) df in
          let df := setitem_series "数据时间"
                      (map (fun r => combine_datetime file_date (snd r))
                           (rows df)) df in
          getitem_list standard_columns df
      end
  end.

Definition find_data_files (data_dir : string) : list string * list string :=
  fold_left
    (fun (acc : list string * list string) filename =>
       let (low_cycle_files, two_network_files) := acc in
       if (endswith filename ".xlsx" || endswith filename ".xls")
          && negb (startswith filename "~$")
       then
         let file_path := os_path_join data_dir filename in
         if contains "低环" filename
         then (low_cycle_files ++ [file_path], two_network_files)
         else if contains "二网" filename
         then (low_cycle_files, two_network_files ++ [file_path])
         else acc
       else acc)
    (os_listdir data_dir) ([], []).

(** The returned frame; writing it to [output_file] is not modelled. *)
Definition merge_all_data (data_dir : string) : result DataFrame :=
  let (low_cycle_files, two_network_files) := find_data_files data_dir in
  match low_cycle_files with
  | [] => Err NoLowCycleFiles
  | _ =>
      match two_network_files with
      | [] => Err NoTwoNetworkFiles
      | _ =>
          low_cycle_dfs <- mapM process_low_cycle_data low_cycle_files ;;
          low_cycle_combined <- concat true low_cycle_dfs ;;
          two_network_dfs <-
            mapM process_two_network_data two_network_files ;;
          two_network_combined <- concat true two_network_dfs ;;
          concat true [low_cycle_combined; two_network_combined]
      end
  end.

End Merger.

(* ================================================================== *)
(** ** chart_generator.py: time axis *)
(* ================================================================== *)

(** One hour in nanoseconds. *)
Definition hour : Z := 3600000000000.

(** [Timestamp.floor('h')] and [Timestamp.ceil('h')] *)
Definition floor_h (t : Z) : Z := (t / hour) * hour.
Definition ceil_h (t : Z) : Z := - ((- t) / hour * hour).

(** [pd.date_range(start, end, freq='h')]: start, start + 1h, ... up to
    and including the last such instant not after [stop]. *)
Definition date_range (start stop : Z) : list Z :=
  map (fun k => start + Z.of_nat k * hour)
      (seq 0 (Z.to_nat ((stop - start) / hour + 1))).

Definition instant_of (r : Z * row) : option Z :=
  match snd r "datetime" with
  | Stamp t => Some t
  | _ => None
  end.

Definition has_instant (r : Z * row) : bool :=
  match instant_of r with Some _ => true | None => false end.

(** The non-missing instants of the [datetime] column, in row order. *)
Definition instants (rs : list (Z * row)) : list Z :=
  flat_map (fun r => match instant_of r with Some t => [t] | None => [] end) rs.

(** [Series.min()] and [Series.max()], which skip missing values and are
    missing ([None]) on a series without any value. *)
Definition series_min (l : list Z) : option Z :=
  match l with
  | [] => None
  | x :: tl => Some (fold_left Z.min tl x)
  end.

Definition series_max (l : list Z) : option Z :=
  match l with
  | [] => None
  | x :: tl => Some (fold_left Z.max tl x)
  end.

(* ================================================================== *)
(** ** chart_generator.py: the sort of clean_and_preprocess_data *)
(* ================================================================== *)

(** [df_copy.sort_values('datetime', inplace=True)].  pandas argsorts the
    non-missing instants with numpy's [kind='quicksort'] (the default of
    [sort_values]) and puts the rows with a missing instant last, in their
    original order.  numpy promises of that argsort an index permutation
    under which the values ascend, nothing on the order of equal values;
    [argsort_result] is that promise. *)
Definition positions (f : Z * row -> bool) (rs : list (Z * row)) : list nat :=
  filter (fun i => match nth_error rs i with
                   | Some r => f r
                   | None => false
                   end) (seq 0 (List.length rs)).

Definition take (rs : list (Z * row)) (indexer : list nat) : list (Z * row) :=
  flat_map (fun i => match nth_error rs i with
                     | Some r => [r]
                     | None => []
                     end) indexer.

Definition argsort_result (values : list Z) (indexer : list nat) : Prop :=
  Permutation indexer (seq 0 (List.length values)) /\
  StronglySorted Z.le (map (fun i => nth i values 0%Z) indexer).

(** The frame [sort_values] leaves when the argsort returned [indexer]. *)
Definition sort_values_datetime (df : DataFrame) (indexer : list nat)
  : DataFrame :=
  let valid := positions has_instant (rows df) in
  let nan_idx := positions (fun r => negb (has_instant r)) (rows df) in
  {| columns := columns df;
     rows := take (rows df)
               (map (fun i => nth i valid 0%nat) indexer ++ nan_idx) |}.

(** Ascending instants, rows without an instant after all others. *)
Inductive ascending : list (Z * row) -> Prop :=
| asc_nil : ascending []
| asc_cons : forall r rs,
    ascending rs ->
    (forall t, instant_of r = Some t ->
       Forall (fun r' => forall t', instant_of r' = Some t' -> (t <= t')%Z) rs) ->
    (instant_of r = None -> Forall (fun r' => instant_of r' = None) rs) ->
    ascending (r :: rs).

(** Rows with the same instant keep their relative order: for every
    instant, the rows carrying it are the same sequence before and after. *)
Definition at_instant (t : Z) (r : Z * row) : bool :=
  match instant_of r with
  | Some t' => Z.eqb t t'
  | None => false
  end.

Definition ties_keep_order (before after : list (Z * row)) : Prop :=
  forall t, filter (at_instant t) after = filter (at_instant t) before.

(* ================================================================== *)
(** ** chart_generator.py: ChartGenerator._resample_data *)
(* ================================================================== *)

Definition value_columns : list string :=
  [ "室温温度(℃)"; "瞬时流量(T/H)"; "供温(℃)"; "回温(℃)" ].

(** [[col for col in value_columns if col in df.columns]] *)
Definition available_columns (df : DataFrame) : list string :=
  filter (fun col => has_column col df) value_columns.

(** The numeric values among some cells.  [clean_and_preprocess_data] has
    passed every measurement column through [pd.to_numeric(...,
    errors='coerce')], so a measurement cell is a number or missing. *)
Definition numbers (l : list cell) : list Q :=
  flat_map (fun c => match c with Num q => [q] | _ => [] end) l.

Definition Qsum (l : list Q) : Q := fold_right Qplus (0 # 1)%Q l.

(** [.mean()] of one bucket and column: the mean of the non-missing
    values, missing when there is none.  The rational is kept in lowest
    terms. *)
Definition mean (l : list cell) : cell :=
  match numbers l with
  | [] => NA
  | q :: qs =>
      Num (Qred (Qsum (q :: qs) / inject_Z (Z.of_nat (List.length (q :: qs)))))
  end.

(** The rows of the bucket labelled [b]: those whose instant lies in the
    hour starting at [b]. *)
Definition in_bucket (b : Z) (r : Z * row) : bool :=
  match instant_of r with
  | Some t => Z.eqb (floor_h t) b
  | None => false
  end.

Definition bucket_row (cols : list string) (rs : list (Z * row)) (b : Z)
  : row :=
  fun c => if mem c cols
           then mean (map (fun r => snd r c) (filter (in_bucket b) rs))
           else NA.

(** [rs.resample('1h', on='datetime')[cols].mean()]: one row per hour from
    the hour of the earliest instant of [rs] to the hour of its latest,
    rows without an instant being left out of every bucket.  What pandas
    does when no row of [rs] has an instant is not fixed by the code
    modelled here: the model stops with [GroupWithoutInstant], and nothing
    below is stated for that case. *)
Definition resample_mean (cols : list string) (rs : list (Z * row))
  : result DataFrame :=
  match series_min (instants rs), series_max (instants rs) with
  | Some lo, Some hi =>
      Ok {| columns := cols;
            rows := map (fun b => (b, bucket_row cols rs b))
                        (date_range (floor_h lo) (floor_h hi)) |}
  | _, _ => Err GroupWithoutInstant
  end.

(** [df.reindex(idx)]: one row per label of [idx], the row of [df] with
    that label when there is one and a row of missing values otherwise. *)
Definition reindex (idx : list Z) (df : DataFrame) : DataFrame :=
  {| columns := columns df;
     rows := map (fun t => match find (fun r => Z.eqb (fst r) t) (rows df) with
                           | Some r => (t, snd r)
                           | None => (t, fun _ => NA)
                           end) idx |}.

(** The group key of a row.  [clean_and_preprocess_data] has cast both key
    columns with [astype(str)], so both cells are strings; [groupby] drops
    a row whose key is missing. *)
Definition key_of (r : Z * row) : option (string * string) :=
  match snd r "位置", snd r "楼层" with
  | Str location, Str floor => Some (location, floor)
  | _, _ => None
  end.

Definition key_eqb (a b : string * string) : bool :=
  String.eqb (fst a) (fst b) && String.eqb (snd a) (snd b).

(** Order of Python tuples of strings. *)
Definition key_leb (a b : string * string) : bool :=
  match String.compare (fst a) (fst b) with
  | Lt => true
  | Eq => String.leb (snd a) (snd b)
  | Gt => false
  end.

Fixpoint insert_key (k : string * string) (l : list (string * string))
  : list (string * string) :=
  match l with
  | [] => [k]
  | x :: tl =>
      if key_eqb k x then l
      else if key_leb k x then k :: l
      else x :: insert_key k tl
  end.

(** The keys of [df.groupby(['位置', '楼层'])]: the distinct keys, sorted. *)
Definition group_keys (rs : list (Z * row)) : list (string * string) :=
  fold_left (fun acc r => match key_of r with
                          | Some k => insert_key k acc
                          | None => acc
                          end) rs [].

Definition group_rows (k : string * string) (rs : list (Z * row))
  : list (Z * row) :=
  filter (fun r => match key_of r with
                   | Some k' => key_eqb k' k
                   | None => false
                   end) rs.

(** The body of the loop [for name, group in grouped]. *)
Definition resample_group (cols : list string) (full_time_index : list Z)
  (rs : list (Z * row)) (name : string * string) : result DataFrame :=
  group_hourly <- resample_mean cols (group_rows name rs) ;;
  let group_hourly := reindex full_time_index group_hourly in
  let group_hourly := setitem "位置" (Str (fst name)) group_hourly in
  let group_hourly := setitem "楼层" (Str (snd name)) group_hourly in
  Ok group_hourly.

Definition _resample_data (df : DataFrame) : result DataFrame :=
  match available_columns df with
  | [] => Ok df
  | _ =>
      let has_location_floor :=
        has_column "位置" df && has_column "楼层" df in
      if negb (has_column "datetime" df) then Err (KeyError "datetime")
      else
        match series_min (instants (rows df)),
              series_max (instants (rows df)) with
        | Some min_time, Some max_time =>
            let full_time_index :=
              date_range (floor_h min_time) (ceil_h max_time) in
            if has_location_floor then
              grouped_results <-
                mapM (resample_group (available_columns df) full_time_index
                        (rows df))
                     (group_keys (rows df)) ;;
              concat false grouped_results
            else
              hourly_avg <- resample_mean (available_columns df) (rows df) ;;
              Ok (reindex full_time_index hourly_avg)
        | _, _ => Err DateRangeNaT
        end
  end.

(** The rows of a resampled frame that belong to one key. *)
Definition rows_of_key (k : string * string) (out : DataFrame)
  : list (Z * row) :=
  group_rows k (rows out).

(* ================================================================== *)
(** ** chart_generator.py: smooth_data_with_confidence *)
(* ================================================================== *)

(** A numeric series: one optional real per position ([None] is NaN). *)
Definition series : Type := list (option R).

Definition clip (n : nat) (x : Z) : nat := Nat.min (Z.to_nat x) n.

(** Bounds [start, stop) of the window of [rolling(window=w, center=True)]
    at position [i] of a series of length [n]: the window ends
    [(w - 1) // 2] positions after [i], holds [w] positions, and is cut at
    both ends of the series. *)
Definition window_bounds (w : Z) (n i : nat) : nat * nat :=
  let offset := (w - 1) / 2 in
  let stop := Z.of_nat i + 1 + offset in
  let start := stop - w in
  (clip n start, clip n stop).

Definition window_cells (w : Z) (data : series) (i : nat) : series :=
  let (start, stop) := window_bounds w (List.length data) i in
  firstn (stop - start) (skipn start data).

(** The non-missing observations among some cells. *)
Definition observed (l : series) : list R :=
  flat_map (fun x => match x with Some v => [v] | None => [] end) l.

Definition Rsum (l : list R) : R := fold_right Rplus 0%R l.

Definition Rmean (l : list R) : R := (Rsum l / INR (List.length l))%R.

(** Sample variance ([ddof = 1]). *)
Definition Rvar (l : list R) : R :=
  (Rsum (map (fun x => (x - Rmean l) * (x - Rmean l)) l)
   / INR (List.length l - 1))%R.

(** [.rolling(...).mean()] at one window: defined once the window holds
    [min_periods] observations (and at least one). *)
Definition rolling_mean_at (min_periods : Z) (cells : series) : option R :=
  let obs := observed cells in
  if (min_periods <=? Z.of_nat (List.length obs))
     && (0 <? Z.of_nat (List.length obs))
  then Some (Rmean obs) else None.

(** [.rolling(...).std()] at one window: defined once the window holds
    [min_periods] observations and more than one ([ddof = 1]). *)
Definition rolling_std_at (min_periods : Z) (cells : series) : option R :=
  let obs := observed cells in
  if (min_periods <=? Z.of_nat (List.length obs))
     && (1 <? Z.of_nat (List.length obs))
  then Some (sqrt (Rvar obs)) else None.

Definition rolling (f : series -> option R) (w : Z) (data : series) : series :=
  map (fun i => f (window_cells w data i)) (seq 0 (List.length data)).

(** Arithmetic on series, position by position; a missing operand gives
    a missing result. *)
Definition lift2 (f : R -> R -> R) (a b : option R) : option R :=
  match a, b with
  | Some x, Some y => Some (f x y)
  | _, _ => None
  end.

Fixpoint zip_with (f : R -> R -> R) (a b : series) : series :=
  match a, b with
  | x :: a', y :: b' => lift2 f x y :: zip_with f a' b'
  | _, _ => []
  end.

Definition scale (f : R -> R) (a : series) : series :=
  map (option_map f) a.

Section Smoothing.
(** [scipy.stats.norm.ppf]: the quantile function of the standard normal
    distribution. *)
Variable norm_ppf : R -> R.

(** [rolling] refuses a window below 1 here: [min_periods] is at least
    1 and must not exceed the window. *)
Definition smooth_data_with_confidence
  (data_series : series) (window_size : Z) (confidence : R)
  : result (series * series * series) :=
  let min_periods := Z.max 1 (window_size / 2) in
  if window_size <? 1 then Err InvalidWindow
  else
    let smoothed :=
      rolling (rolling_mean_at min_periods) window_size data_series in
    let std :=
      rolling (rolling_std_at min_periods) window_size data_series in
    let n := IZR window_size in
    let standard_error := scale (fun x => (x / sqrt n)%R) std in
    let z_score := norm_ppf (1 - (1 - confidence) / 2)%R in
    let margin_error := scale (fun x => (z_score * x)%R) standard_error in
    let confidence_lower := zip_with Rminus smoothed margin_error in
    let confidence_upper := zip_with Rplus smoothed margin_error in
    Ok (smoothed, confidence_lower, confidence_upper).

End Smoothing.

(** The window as the specification words it: [w // 2] positions on each
    side of [i]. *)
Definition spec_window_cells (w : Z) (data : series) (i : nat) : series :=
  flat_map (fun j => if (Z.of_nat i - w / 2 <=? Z.of_nat j)
                        && (Z.of_nat j <=? Z.of_nat i + w / 2)
                     then [nth j data None] else [])
           (seq 0 (List.length data)).

(** The positions the code's window covers, written as a range of
    indices: from [i - w // 2] to [i + (w - 1) // 2]. *)
Definition index_window_cells (w : Z) (data : series) (i : nat) : series :=
  flat_map (fun j => if (Z.of_nat i - w / 2 <=? Z.of_nat j)
                        && (Z.of_nat j <=? Z.of_nat i + (w - 1) / 2)
                     then [nth j data None] else [])
           (seq 0 (List.length data)).

(* ================================================================== *)
(** ** Sample data *)
(* ================================================================== *)

(** A row written as a list of (column, cell) pairs. *)
Fixpoint row_of (l : list (string * cell)) : row :=
  fun c =>
    match l with
    | [] => NA
    | (k, v) :: tl => if String.eqb c k then v else row_of tl c
    end.

(* ================================================================== *)
(** ** Vocabulary of the statements *)
(* ================================================================== *)

(** Row by row: same label, and the cells related by [P]. *)
Definition rows_rel (P : row -> row -> Prop) (rs rs' : list (Z * row)) : Prop :=
  Forall2 (fun r r' => fst r' = fst r /\ P (snd r) (snd r')) rs rs'.

(** The columns the unifier stamps rather than copies. *)
Definition provenance_columns : list string := [ "源文件"; "数据类型"; "日期" ].

(** What a unified table is, relative to the raw table it comes from. *)
Definition unified (raw : DataFrame) (source_file category : string)
  (out : DataFrame) : Prop :=
  columns out = standard_columns /\
  rows_rel
    (fun r r' =>
       (forall c, In c standard_columns -> has_column c raw = false ->
                  ~ In c provenance_columns -> r' c = NA) /\
       (forall c, In c standard_columns -> has_column c raw = true ->
                  ~ In c ("数据时间" :: provenance_columns) -> r' c = r c) /\
       r' "源文件" = Str source_file /\
       r' "数据类型" = Str category)
    (rows raw) (rows out).

(** The file name holds a [YYYY-MM-DD] substring: four digits, a hyphen,
    two digits, a hyphen, two digits. *)
Definition contains_date `{Library} (filename : string) : Prop :=
  exists before date after,
    chars filename = before ++ date ++ after /\ date_shape date = true.

Definition all_present (required : list string) (df : DataFrame) : Prop :=
  forall col, In col required -> has_column col df = true.

Definition some_absent (required : list string) (df : DataFrame) : Prop :=
  exists col, In col required /\ has_column col df = false.

Definition has_tag (tag : string) (r : Z * row) : bool :=
  match snd r "数据类型" with
  | Str s => String.eqb s tag
  | _ => false
  end.

Definition tag_count (tag : string) (rs : list (Z * row)) : nat :=
  List.length (filter (has_tag tag) rs).

Definition same_cells (r r' : Z * row) : Prop :=
  forall c, snd r' c = snd r c.

(** A frame in canonical form: the canonical columns, and nothing stored
    under any other name. *)
Definition canonical (df : DataFrame) : Prop :=
  columns df = standard_columns /\
  Forall (fun r => forall c, mem c standard_columns = false -> snd r c = NA)
         (rows df).

(** The claim that every canonical column the source lacks is null in
    every unified row. *)
Definition absent_columns_null (raw out : DataFrame) : Prop :=
  forall c, In c standard_columns -> has_column c raw = false ->
            Forall (fun r => snd r c = NA) (rows out).

(** The claim that the second category fails on the file name exactly
    when the name holds no date. *)
Definition date_error_iff_no_date `{Library} (path : string) : Prop :=
  process_two_network_data path
    = Err (NoDateInFileName (os_path_basename path))
  <-> ~ contains_date (os_path_basename path).

(** Strict order on keys: first components, then second components. *)
Definition key_lt (a b : string * string) : Prop :=
  key_leb a b = true /\ a <> b.

(** The rows of one key that fall in the hour starting at [t], said with
    bounds rather than with [floor_h]. *)
Definition falls_in_hour (t : Z) (r : Z * row) : bool :=
  match instant_of r with
  | Some x => (t <=? x) && (x <? t + hour)
  | None => false
  end.

(** The cells of column [c] of the rows of key [k] in the hour at [t]. *)
Definition hour_cells (df : DataFrame) (k : string * string) (t : Z)
  (c : string) : list cell :=
  map (fun r => snd r c) (filter (falls_in_hour t) (group_rows k (rows df))).

(** The global hourly timeline of a table with earliest instant [lo] and
    latest instant [hi]. *)
Definition timeline (lo hi : Z) : list Z :=
  date_range (floor_h lo) (ceil_h hi).

(** The claim that every key of the input has, in the output, exactly one
    row per instant of the global timeline. *)
Definition one_row_per_timeline_instant (df : DataFrame) : Prop :=
  exists out min_time max_time,
    _resample_data df = Ok out /\
    series_min (instants (rows df)) = Some min_time /\
    series_max (instants (rows df)) = Some max_time /\
    forall location floor,
      In (Some (location, floor)) (map key_of (rows df)) ->
      map fst (rows_of_key (location, floor) out) = timeline min_time max_time.

(** What one turn of the loop over the groups produces. *)
Definition group_frame_ok (cols : list string) (idx : list Z)
  (rs : list (Z * row)) (k : string * string) (g : DataFrame) : Prop :=
  columns g = cols ++ ["位置"; "楼层"] /\
  map fst (rows g) = idx /\
  Forall (fun r =>
            snd r "位置" = Str (fst k) /\
            snd r "楼层" = Str (snd k) /\
            forall c, mem c cols = true ->
              snd r c = mean (map (fun r' => snd r' c)
                                  (filter (in_bucket (fst r)) (group_rows k rs))))
         (rows g).

(** The claim that the smoothed value is the rolling mean over the
    window of the specification. *)
Definition smoothed_over_symmetric_window (data : series) (w : Z)
  (smoothed : series) : Prop :=
  forall i, (i < List.length data)%nat ->
    nth i smoothed None
    = rolling_mean_at (Z.max 1 (w / 2)) (spec_window_cells w data i).

(** A stand-in for the normal quantile in the examples: increasing, zero
    at one half. *)
Definition sample_ppf (p : R) : R := (4 * p - 2)%R.

(** The part of a path after its last slash. *)
Fixpoint posix_basename (s : string) : string :=
  match s with
  | EmptyString => EmptyString
  | String _ tl => if contains "/" s then posix_basename tl else s
  end.

Definition ascii_digit (c : string) : bool :=
  mem c [ "0"; "1"; "2"; "3"; "4"; "5"; "6"; "7"; "8"; "9" ].

Definition nine : Z := 1700470800000000000.   (* 2023-11-20 09:00:00 *)

Definition low_cycle_row (label : Z) (t : Z) (location floor : string)
  (temperature : Q) : Z * row :=
  (label,
   row_of [ ("序号", Num (inject_Z (label + 1))); ("管理单位", Str "热力公司");
            ("管理所", Str "一所"); ("换热站", Str "新世纪站");
            ("测点名称", Str "室温"); ("位置", Str location);
            ("楼层", Str floor); ("设备标识", Str "D01");
            ("数据时间", Stamp t); ("室温温度(℃)", Num temperature);
            ("报警状态", Str "正常") ]).

Definition low_cycle_raw : DataFrame :=
  {| columns := low_cycle_required;
     rows := [ low_cycle_row 0 nine "L1" "1" (21 # 1);
               low_cycle_row 1 (nine + hour) "L1" "1" (43 # 2) ] |}.

Definition two_network_row (label : Z) (clock : string) (flow : Q) : Z * row :=
  (label,
   row_of [ ("环路", Str "一环"); ("计划热量(GJ)", Num (5 # 1));
            ("瞬时热量(GJ/H)", Num (1 # 2)); ("热量(GJ)", Num (12 # 1));
            ("瞬时流量(T/H)", Num flow); ("单位流量(T/万㎡)", Num (3 # 1));
            ("阀门开度(%)", Num (40 # 1)); ("设定(℃)", Num (45 # 1));
            ("反馈(℃)", Num (44 # 1)); ("供温(℃)", Num (65 # 1));
            ("回温(℃)", Num (45 # 1)); ("供压(Mpa)", Num (3 # 5));
            ("回压(Mpa)", Num (2 # 5)); ("数据时间", Str clock) ]).

Definition two_network_raw : DataFrame :=
  {| columns := two_network_required;
     rows := [ two_network_row 0 "08:00" (10 # 1);
               two_network_row 1 "09:00" (11 # 1);
               two_network_row 2 "10:00" (12 # 1) ] |}.

(** A second-category sheet without its loop column. *)
Definition two_network_incomplete : DataFrame :=
  {| columns := tl two_network_required;
     rows := [ two_network_row 0 "08:00" (10 # 1) ] |}.

(** A directory of three sheets and a stand-in for the libraries, for the
    examples: timestamps that already are instants are kept, any other
    text is not parsed, and every instant prints as one fixed day. *)
#[local] Instance sample_library : Library := {|
  os_listdir := fun _ =>
    [ "低环_室温.xlsx"; "~$低环_室温.xlsx"; "二网_2023-11-20.xlsx"; "说明.txt" ];
  os_path_join := fun dir name => (dir ++ "/" ++ name)%string;
  os_path_basename := posix_basename;
  read_excel := fun path =>
    if String.eqb path "data/低环_室温.xlsx" then low_cycle_raw
    else if String.eqb path "data/二网_2023-11-20.xlsx" then two_network_raw
    else two_network_incomplete;
  to_datetime := map (fun c => match c with Stamp t => Stamp t | _ => NA end);
  to_datetime_scalar := fun _ => NA;
  strftime_ymd := fun _ => "2023-11-20";
  py_str := fun c => match c with Str s => s | _ => EmptyString end;
  strip := fun s => s;
  is_decimal_digit := ascii_digit
|}.

Definition or_empty (r : result DataFrame) : DataFrame :=
  match r with
  | Ok df => df
  | Err _ => {| columns := []; rows := [] |}
  end.

Definition eight : Z := 1700467200000000000.   (* 2023-11-20 08:00:00 *)
Definition minute : Z := 60000000000.

Definition reading (label : Z) (t : cell) (location floor : string)
  (temperature : cell) : Z * row :=
  (label,
   row_of [ ("datetime", t); ("位置", Str location); ("楼层", Str floor);
            ("室温温度(℃)", temperature) ]).

(** Readings of two keys, sorted by instant.  Key L1/1 reports 10, 20 and
    30 within the hour from 08:00 and once at 11:30; key L2/2 reports at
    08:10, 09:10 and 10:10 only, once without a value.  The timeline runs
    from 08:00 to 12:00. *)
Definition sample_readings : DataFrame :=
  {| columns := [ "datetime"; "位置"; "楼层"; "室温温度(℃)" ];
     rows := [ reading 0 (Stamp eight) "L1" "1" (Num (10 # 1));
               reading 1 (Stamp (eight + 10 * minute)) "L2" "2" (Num (18 # 1));
               reading 2 (Stamp (eight + 20 * minute)) "L1" "1" (Num (20 # 1));
               reading 3 (Stamp (eight + 40 * minute)) "L1" "1" (Num (30 # 1));
               reading 4 (Stamp (eight + 70 * minute)) "L2" "2" NA;
               reading 5 (Stamp (eight + 130 * minute)) "L2" "2" (Num (19 # 1));
               reading 6 (Stamp (eight + 210 * minute)) "L1" "1" (Num (22 # 1)) ] |}.

(** One reading whose time did not parse. *)
Definition sample_no_instant : DataFrame :=
  {| columns := [ "datetime"; "位置"; "楼层"; "室温温度(℃)" ];
     rows := [ reading 0 NA "L1" "1" (Num (21 # 1)) ] |}.

(** A table without any measurement column. *)
Definition sample_no_measurement : DataFrame :=
  {| columns := [ "datetime"; "位置"; "楼层"; "报警状态" ];
     rows := [ (0, row_of [ ("datetime", Stamp eight); ("位置", Str "L1");
                            ("楼层", Str "1"); ("报警状态", Str "正常") ]) ] |}.

(** Eighteen readings at one and the same instant, and an index
    permutation under which their (equal) instants ascend.  An argsort
    that partitions before it insertion-sorts, as numpy's introsort does
    on more than sixteen elements, swaps around the pivot and returns such
    a permutation rather than the identity. *)
Definition sample_ties : DataFrame :=
  {| columns := [ "datetime"; "位置"; "楼层"; "室温温度(℃)" ];
     rows := map (fun i => reading (Z.of_nat i) (Stamp eight) "L1" "1"
                                   (Num (inject_Z (Z.of_nat i))))
                 (seq 0 18) |}.

Definition sample_ties_indexer : list nat :=
  0%nat :: rev (seq 1 15) ++ [16%nat; 17%nat].

Definition sample_hourly : DataFrame :=
  Eval vm_compute in or_empty (_resample_data sample_readings).

(** The sample sheets unified, and the sample directory merged. *)
Definition sample_low_cycle_unified : DataFrame :=
  Eval vm_compute in
    or_empty (@process_low_cycle_data sample_library "data/低环_室温.xlsx").

Definition sample_two_network_unified : DataFrame :=
  Eval vm_compute in
    or_empty (@process_two_network_data sample_library
                "data/二网_2023-11-20.xlsx").

Definition sample_master : DataFrame :=
  Eval vm_compute in or_empty (@merge_all_data sample_library "data").

(* ================================================================== *)
(** ** Vocabulary of the further properties *)
(* ================================================================== *)

(** A listing entry that [find_data_files] looks at: an Excel file name
    that is not an editor's lock file. *)
Definition is_excel_name (filename : string) : bool :=
  (endswith filename ".xlsx" || endswith filename ".xls")
  && negb (startswith filename "~$").

Definition is_low_cycle_name (filename : string) : bool :=
  is_excel_name filename && contains "低环" filename.

Definition is_two_network_name (filename : string) : bool :=
  is_excel_name filename && negb (contains "低环" filename)
  && contains "二网" filename.

(** One day in nanoseconds, and [Timestamp.floor('D')] and
    [Timestamp.ceil('D')] on instants without a time zone. *)
Definition day : Z := 24 * hour.
Definition floor_d (t : Z) : Z := (t / day) * day.
Definition ceil_d (t : Z) : Z := - ((- t) / day * day).

(** The loop of the three plotting functions that shades the peak hours:
    [while current_date <= end_date], one turn per day; the result is the
    list of the spans handed to [ax.axvspan], in the order of the calls.
    [fuel] bounds the number of turns; [None] when it does not suffice. *)
Fixpoint peak_loop (fuel : nat) (current_date end_date min_time max_time : Z)
  : option (list (Z * Z)) :=
  match fuel with
  | O => if current_date <=? end_date then None else Some []
  | S fuel' =>
      if current_date <=? end_date then
        let peak_start := current_date + 6 * hour in
        let peak_end := current_date + 18 * hour in
        let spans :=
          if (peak_end >=? min_time) && (peak_start <=? max_time)
          then [(Z.max peak_start min_time, Z.min peak_end max_time)]
          else [] in
        match peak_loop fuel' (current_date + day) end_date min_time max_time
        with
        | Some later => Some (spans ++ later)
        | None => None
        end
      else Some []
  end.

(** The shading of a chart whose time axis runs from [min_time] to
    [max_time]: the loop started at [min_time.floor('D')] and run up to
    [max_time.ceil('D')], with one turn per day of that range. *)
Definition peak_spans (min_time max_time : Z) : option (list (Z * Z)) :=
  peak_loop (Z.to_nat ((ceil_d max_time - floor_d min_time) / day + 1))
            (floor_d min_time) (ceil_d max_time) min_time max_time.

(** Sorted insertion of a row label, an equal label being kept once. *)
Fixpoint insert_label (t : Z) (l : list Z) : list Z :=
  match l with
  | [] => [t]
  | x :: tl =>
      if t =? x then l
      else if t <? x then t :: l
      else x :: insert_label t tl
  end.

(** The group labels of [data.groupby(data.index)]: the distinct row
    labels, ascending. *)
Definition index_labels (rs : list (Z * row)) : list Z :=
  fold_left (fun acc r => insert_label (fst r) acc) rs [].

(** [data.groupby(data.index)[col].mean()]: a series with one entry per
    distinct row label, the mean of the column over the rows with that
    label; selecting a column the table lacks raises [KeyError]. *)
Definition groupby_index_mean (col : string) (data : DataFrame)
  : result (list (Z * cell)) :=
  if has_column col data then
    Ok (map (fun t => (t, mean (map (fun r => snd r col)
                                    (filter (fun r => fst r =? t) (rows data)))))
            (index_labels (rows data)))
  else Err (KeyError col).

(** [Series.dropna()] *)
Definition dropna (s : list (Z * cell)) : list (Z * cell) :=
  filter (fun p => notna (snd p)) s.

(** The series the flow chart and the supply and return chart plot:
    [data.groupby(data.index)[col].mean().dropna()]. *)
Definition aggregate_by_time (col : string) (data : DataFrame)
  : result (list (Z * cell)) :=
  s <- groupby_index_mean col data ;;
  Ok (dropna s).

(** The names under which [clean_and_preprocess_data] looks for the two
    key columns, in the order in which it tries them. *)
Definition location_columns : list string :=
  [ "位置"; "地点"; "区域"; "location"; "area" ].

Definition floor_columns : list string := [ "楼层"; "floor"; "层" ].

(** One of the two loops over candidate names: the first candidate that
    is a column is copied to [target] ([break] ends the loop); without any
    the column is filled with [default]. *)
Definition unify_column (target : string) (candidates : list string)
  (default : string) (df : DataFrame) : DataFrame :=
  match find (fun col => has_column col df) candidates with
  | Some col => setitem_series target (column col df) df
  | None => setitem target (Str default) df
  end.

Section KeyColumns.
(** [Series.astype(str)], cell by cell. *)
Variable astype_str : cell -> cell.

Definition astype_column (c : string) (df : DataFrame) : DataFrame :=
  setitem_series c (map astype_str (column c df)) df.

(** Step 2 of [clean_and_preprocess_data]: the location and floor
    columns are settled and cast to text. *)
Definition unify_key_columns (df_copy : DataFrame) : DataFrame :=
  let df_copy := unify_column "位置" location_columns "默认位置" df_copy in
  let df_copy := unify_column "楼层" floor_columns "1" df_copy in
  let df_copy := astype_column "位置" df_copy in
  astype_column "楼层" df_copy.

End KeyColumns.

(** The cell a key column is settled from, before the cast. *)
Definition key_source (candidates : list string) (default : string)
  (df : DataFrame) (r : string -> cell) : cell :=
  match find (fun col => has_column col df) candidates with
  | Some col => r col
  | None => Str default
  end.

(** [Series.isin(values)] on one cell, for a list of texts. *)
Definition isin (values : list string) (c : cell) : bool :=
  match c with
  | Str s => mem s values
  | _ => false
  end.

(** [if selected: data = data[data[col].isin(selected)]]: nothing is
    selected away when the configured list is [None] or empty. *)
Definition select_rows (col : string) (selected : option (list string))
  (data : DataFrame) : result DataFrame :=
  match selected with
  | None => Ok data
  | Some [] => Ok data
  | Some values =>
      if has_column col data then
        Ok {| columns := columns data;
              rows := filter (fun r => isin values (snd r col)) (rows data) |}
      else Err (KeyError col)
  end.

(** The selection at the head of the room-temperature chart. *)
Definition apply_selection (selected_locations selected_floors
                            : option (list string)) (data : DataFrame)
  : result DataFrame :=
  data <- select_rows "位置" selected_locations data ;;
  select_rows "楼层" selected_floors data.

(** Whether a configured selection lets a text through. *)
Definition chosen (selected : option (list string)) (s : string) : bool :=
  match selected with
  | None => true
  | Some [] => true
  | Some values => mem s values
  end.

(** The series the room-temperature chart draws for one key:
    [data[(data['位置'] == location) & (data['楼层'] == floor)][col].dropna()],
    as (label, value) pairs. *)
Definition key_series (col : string) (name : string * string)
  (data : DataFrame) : list (Z * cell) :=
  dropna (map (fun r => (fst r, snd r col)) (group_rows name (rows data))).

(** [df_copy['datetime'] >= bound] and [<= bound] on one cell; a missing
    instant compares false. *)
Definition ge_instant (bound : Z) (c : cell) : bool :=
  match c with
  | Stamp t => bound <=? t
  | _ => false
  end.

Definition le_instant (bound : Z) (c : cell) : bool :=
  match c with
  | Stamp t => t <=? bound
  | _ => false
  end.

(** [df[mask]] *)
Definition boolean_index (mask : Z * (string -> cell) -> bool)
  (df : DataFrame) : DataFrame :=
  {| columns := columns df; rows := filter mask (rows df) |}.

(** Step 4 of [clean_and_preprocess_data]: the configured date range,
    either bound of which may be unset. *)
Definition filter_date_range (start_date end_date : option Z)
  (df_copy : DataFrame) : DataFrame :=
  match start_date, end_date with
  | Some s, Some e =>
      boolean_index (fun r => ge_instant s (snd r "datetime")
                              && le_instant e (snd r "datetime")) df_copy
  | Some s, None =>
      boolean_index (fun r => ge_instant s (snd r "datetime")) df_copy
  | None, Some e =>
      boolean_index (fun r => le_instant e (snd r "datetime")) df_copy
  | None, None => df_copy
  end.

(** Whether an instant lies in the configured range. *)
Definition in_date_range (start_date end_date : option Z) (t : Z) : bool :=
  match start_date with Some s => s <=? t | None => true end
  && match end_date with Some e => t <=? e | None => true end.

(* ================================================================== *)
(** * Properties *)
(* ================================================================== *)

(* ---------- basic facts on frames ---------- *)

Lemma mem_In (c : string) (l : list string) : mem c l = true <-> In c l.
Proof.
  unfold mem. rewrite existsb_exists. split.
  - intros [x [Hx He]]. apply String.eqb_eq in He. now subst.
  - intros Hc. exists c. split; [assumption | apply String.eqb_refl].
Qed.

Lemma mem_app (c : string) (l1 l2 : list string) :
  mem c (l1 ++ l2) = mem c l1 || mem c l2.
Proof. unfold mem. apply existsb_app. Qed.

Lemma has_column_setitem (c k : string) (v : cell) (df : DataFrame) :
  has_column k (setitem c v df) = has_column k df || String.eqb k c.
Proof.
  unfold has_column at 1. unfold setitem. simpl.
  destruct (has_column c df) eqn:Hc.
  - unfold has_column. destruct (String.eqb_spec k c) as [->|Hn].
    + unfold has_column in Hc. rewrite Hc. reflexivity.
    + now rewrite orb_false_r.
  - rewrite mem_app. simpl. unfold has_column. now rewrite orb_false_r.
Qed.

Lemma has_column_setitem_series (c k : string) (vs : list cell) (df : DataFrame) :
  has_column k (setitem_series c vs df) = has_column k df || String.eqb k c.
Proof.
  unfold has_column at 1. unfold setitem_series. simpl.
  destruct (has_column c df) eqn:Hc.
  - unfold has_column. destruct (String.eqb_spec k c) as [->|Hn].
    + unfold has_column in Hc. rewrite Hc. reflexivity.
    + now rewrite orb_false_r.
  - rewrite mem_app. simpl. unfold has_column. now rewrite orb_false_r.
Qed.

Lemma has_column_fold_setitem (l : list string) (k : string) (df : DataFrame) :
  has_column k (fold_left (fun d col => setitem col NA d) l df)
  = has_column k df || mem k l.
Proof.
  revert df. induction l as [|c l IH]; intros df; simpl.
  - now rewrite orb_false_r.
  - rewrite IH, has_column_setitem. now rewrite orb_assoc.
Qed.

Lemma has_column_add_missing (k : string) (df : DataFrame) :
  In k standard_columns -> has_column k (add_missing_columns df) = true.
Proof.
  intros Hk. unfold add_missing_columns. rewrite has_column_fold_setitem.
  destruct (has_column k df) eqn:Hc; [reflexivity|]. simpl.
  apply mem_In. unfold missing_columns. apply filter_In. split; [assumption|].
  now rewrite Hc.
Qed.

Lemma rows_rel_refl (P : row -> row -> Prop) rs :
  (forall r, P r r) -> rows_rel P rs rs.
Proof.
  intros HP. induction rs; constructor; auto.
Qed.

Lemma rows_rel_trans (P Q R : row -> row -> Prop) rs1 rs2 rs3 :
  (forall a b c, P a b -> Q b c -> R a c) ->
  rows_rel P rs1 rs2 -> rows_rel Q rs2 rs3 -> rows_rel R rs1 rs3.
Proof.
  intros HPQ H12. revert rs3. induction H12 as [|a b l1 l2 [Hl Hab] _ IH];
    intros rs3 H23; inversion H23 as [|b' c l2' l3 [Hl' Hbc] Hrest]; subst.
  - constructor.
  - constructor; [|now apply IH]. split; [congruence | eauto].
Qed.

Lemma rows_rel_weaken (P Q : row -> row -> Prop) rs rs' :
  (forall a b, P a b -> Q a b) -> rows_rel P rs rs' -> rows_rel Q rs rs'.
Proof.
  intros HPQ H. induction H as [|a b l1 l2 [Hl Hab] _ IH]; constructor; auto.
Qed.

Lemma rows_rel_length (P : row -> row -> Prop) rs rs' :
  rows_rel P rs rs' -> List.length rs' = List.length rs.
Proof. intros H. symmetry. eapply Forall2_length; eauto. Qed.

Lemma rows_rel_map (f : row -> row) rs :
  rows_rel (fun r r' => r' = f r) rs (map (fun r => (fst r, f (snd r))) rs).
Proof. induction rs; simpl; constructor; auto. Qed.

Lemma rows_rel_setitem (c : string) (v : cell) (df : DataFrame) :
  rows_rel (fun r r' => r' = upd r c v) (rows df) (rows (setitem c v df)).
Proof. unfold setitem; simpl. apply (rows_rel_map (fun r => upd r c v)). Qed.

Lemma rows_rel_zip_update (c : string) rs vs :
  rows_rel (fun r r' => exists v, r' = upd r c v) rs (zip_update c rs vs).
Proof.
  revert vs. induction rs as [|r rs IH]; intros vs; simpl; constructor.
  - split; [reflexivity | eexists; reflexivity].
  - apply IH.
Qed.

Lemma rows_rel_setitem_series (c : string) vs (df : DataFrame) :
  rows_rel (fun r r' => exists v, r' = upd r c v)
           (rows df) (rows (setitem_series c vs df)).
Proof. unfold setitem_series; simpl. apply rows_rel_zip_update. Qed.

Lemma rows_rel_fold_setitem (l : list string) (df : DataFrame) :
  rows_rel (fun r r' => forall k, r' k = if mem k l then NA else r k)
           (rows df) (rows (fold_left (fun d col => setitem col NA d) l df)).
Proof.
  revert df. induction l as [|c l IH]; intros df; simpl.
  - apply rows_rel_refl. reflexivity.
  - eapply rows_rel_trans; [| apply rows_rel_setitem | apply IH].
    intros a b c0 -> Hc k. rewrite Hc. unfold upd, mem. simpl.
    destruct (String.eqb k c); simpl; [now destruct (existsb _ l) | reflexivity].
Qed.

Lemma getitem_list_ok (names : list string) (df out : DataFrame) :
  getitem_list names df = Ok out ->
  columns out = names /\
  rows_rel (fun r r' => r' = restrict names r) (rows df) (rows out).
Proof.
  unfold getitem_list. destruct (find _ names); [discriminate|].
  intros [= <-]. simpl. split; [reflexivity|].
  apply (rows_rel_map (restrict names)).
Qed.

Lemma getitem_list_succeeds (names : list string) (df : DataFrame) :
  (forall c, In c names -> has_column c df = true) ->
  exists out, getitem_list names df = Ok out.
Proof.
  intros Hall. unfold getitem_list.
  destruct (find _ names) as [c|] eqn:Hf; [|eauto].
  apply find_some in Hf. destruct Hf as [Hin Hneg].
  rewrite (Hall c Hin) in Hneg. discriminate.
Qed.
Lemma rows_rel_comp (P Q : row -> row -> Prop) rs1 rs2 rs3 :
  rows_rel P rs1 rs2 -> rows_rel Q rs2 rs3 ->
  rows_rel (fun a c => exists b, P a b /\ Q b c) rs1 rs3.
Proof.
  intros H12 H23. eapply rows_rel_trans; [| exact H12 | exact H23].
  intros a b c Hab Hbc. exists b. split; assumption.
Qed.

Lemma first_missing_none (required : list string) (df : DataFrame) :
  first_missing required df = None <-> all_present required df.
Proof.
  unfold first_missing, all_present. split.
  - intros Hf col Hin. pose proof (find_none _ _ Hf col Hin) as Hn.
    simpl in Hn. now destruct (has_column col df).
  - intros Hall. destruct (find _ required) as [c|] eqn:Hf; [|reflexivity].
    apply find_some in Hf. destruct Hf as [Hin Hneg].
    rewrite (Hall c Hin) in Hneg. discriminate.
Qed.

Lemma first_missing_some (required : list string) (df : DataFrame) (col : string) :
  first_missing required df = Some col ->
  In col required /\ has_column col df = false.
Proof.
  unfold first_missing. intros Hf. apply find_some in Hf.
  destruct Hf as [Hin Hneg]. split; [assumption|].
  now destruct (has_column col df).
Qed.

Lemma first_missing_absent (required : list string) (df : DataFrame) :
  some_absent required df <-> exists col, first_missing required df = Some col.
Proof.
  split.
  - intros [col [Hin Hc]].
    destruct (first_missing required df) as [c|] eqn:Hf; [eauto|].
    apply first_missing_none in Hf. rewrite (Hf col Hin) in Hc. discriminate.
  - intros [col Hf]. exists col. now apply first_missing_some.
Qed.

Lemma mem_missing_columns (c : string) (df : DataFrame) :
  mem c (missing_columns df) = mem c standard_columns && negb (has_column c df).
Proof.
  unfold missing_columns.
  destruct (mem c (filter _ standard_columns)) eqn:Hm.
  - apply mem_In in Hm. apply filter_In in Hm. destruct Hm as [Hin Hn].
    apply mem_In in Hin. now rewrite Hin, Hn.
  - destruct (mem c standard_columns) eqn:Hs; [|reflexivity].
    destruct (has_column c df) eqn:Hc; [reflexivity|].
    assert (In c (filter (fun col => negb (has_column col df)) standard_columns)) as Hin.
    { apply filter_In. split; [now apply mem_In | now rewrite Hc]. }
    apply mem_In in Hin. congruence.
Qed.

Ltac eqb_neq c s :=
  let E := fresh "E" in
  destruct (String.eqb_spec c s) as [E|E];
  [ subst c; exfalso;
    match goal with
    | Hp : ~ In _ _ |- _ => apply Hp; simpl; tauto
    | Ha : has_column ?k ?d = false, Hb : has_column ?k ?d = true |- _ =>
        rewrite Hb in Ha; discriminate Ha
    end
  | ].

Lemma rows_rel_add_missing (df : DataFrame) :
  rows_rel (fun r r' => forall k,
              r' k = if mem k (missing_columns df) then NA else r k)
           (rows df) (rows (add_missing_columns df)).
Proof.
  unfold add_missing_columns. generalize (missing_columns df). intros l.
  apply rows_rel_fold_setitem.
Qed.

(** The rows after the unifier's column writes of the first category:
    two scalar stamps, two computed columns, then the selection. *)
Lemma low_cycle_writes (d0 d1 : DataFrame) (P1 : row -> row -> Prop)
  (c2 c3 c4 c5 : string) (v2 v3 : cell) (v4 v5 : list cell)
  (names : list string) (out : DataFrame) :
  rows_rel P1 (rows d0) (rows d1) ->
  getitem_list names
    (setitem_series c5 v5 (setitem_series c4 v4
       (setitem c3 v3 (setitem c2 v2 d1)))) = Ok out ->
  columns out = names /\
  rows_rel (fun r r' => exists r1 x4 x5,
              P1 r r1 /\
              r' = restrict names
                     (upd (upd (upd (upd r1 c2 v2) c3 v3) c4 x4) c5 x5))
           (rows d0) (rows out).
Proof.
  intros H1 Hsel. apply getitem_list_ok in Hsel. destruct Hsel as [Hcols Hrows].
  split; [exact Hcols|].
  pose proof (rows_rel_setitem c2 v2 d1) as H2.
  pose proof (rows_rel_setitem c3 v3 (setitem c2 v2 d1)) as H3.
  pose proof (rows_rel_setitem_series c4 v4 (setitem c3 v3 (setitem c2 v2 d1)))
    as H4.
  pose proof (rows_rel_setitem_series c5 v5
                (setitem_series c4 v4 (setitem c3 v3 (setitem c2 v2 d1)))) as H5.
  pose proof (rows_rel_comp _ _ _ _ _ H1 H2) as H12.
  pose proof (rows_rel_comp _ _ _ _ _ H12 H3) as H13.
  pose proof (rows_rel_comp _ _ _ _ _ H13 H4) as H14.
  pose proof (rows_rel_comp _ _ _ _ _ H14 H5) as H15.
  pose proof (rows_rel_comp _ _ _ _ _ H15 Hrows) as H16.
  eapply rows_rel_weaken; [|exact H16].
  intros r r' [r5 [[r4 [[r3 [[r2 [[r1 [Hr1 Hr2]] Hr3]] [x4 Hr4]]] [x5 Hr5]]] Hr6]].
  subst r' r5 r4 r3 r2. exists r1, x4, x5. split; [assumption | reflexivity].
Qed.

Lemma process_low_cycle_data_unified `{Library} (path : string) (out : DataFrame) :
  process_low_cycle_data path = Ok out ->
  unified (read_excel path) (os_path_basename path) "低环" out.
Proof.
  unfold process_low_cycle_data.
  destruct (first_missing low_cycle_required (read_excel path)) eqn:Hfm;
    [discriminate|].
  apply first_missing_none in Hfm.
  intros Hsel.
  apply (low_cycle_writes (read_excel path) _ _ _ _ _ _ _ _ _ _ _ _
           (rows_rel_add_missing (read_excel path))) in Hsel.
  destruct Hsel as [Hcols Hall].
  split; [exact Hcols|].
  eapply rows_rel_weaken; [|exact Hall]. clear Hall.
  intros r r' [r1 [v4 [v5 [H1 Hr']]]]. subst r'.
  assert (Hpresent : has_column "数据时间" (read_excel path) = true)
    by (apply Hfm; simpl; tauto).
  split; [|split; [|split; reflexivity]].
  - intros c Hin Habs Hprov. unfold restrict.
    apply mem_In in Hin. rewrite Hin. unfold upd.
    eqb_neq c "日期". eqb_neq c "数据时间".
    eqb_neq c "数据类型". eqb_neq c "源文件".
    rewrite H1, mem_missing_columns, Hin, Habs. reflexivity.
  - intros c Hin Hc Hprov. unfold restrict.
    apply mem_In in Hin. rewrite Hin. unfold upd.
    eqb_neq c "日期". eqb_neq c "数据时间".
    eqb_neq c "数据类型". eqb_neq c "源文件".
    rewrite H1, mem_missing_columns, Hin, Hc. reflexivity.
Qed.
(** The same for the second category: three scalar stamps, one computed
    column, then the selection. *)
Lemma two_network_writes (d0 d1 : DataFrame) (P1 : row -> row -> Prop)
  (c2 c3 c4 c5 : string) (v2 v3 v4 : cell) (v5 : list cell)
  (names : list string) (out : DataFrame) :
  rows_rel P1 (rows d0) (rows d1) ->
  getitem_list names
    (setitem_series c5 v5 (setitem c4 v4
       (setitem c3 v3 (setitem c2 v2 d1)))) = Ok out ->
  columns out = names /\
  rows_rel (fun r r' => exists r1 x5,
              P1 r r1 /\
              r' = restrict names
                     (upd (upd (upd (upd r1 c2 v2) c3 v3) c4 v4) c5 x5))
           (rows d0) (rows out).
Proof.
  intros H1 Hsel. apply getitem_list_ok in Hsel. destruct Hsel as [Hcols Hrows].
  split; [exact Hcols|].
  pose proof (rows_rel_setitem c2 v2 d1) as H2.
  pose proof (rows_rel_setitem c3 v3 (setitem c2 v2 d1)) as H3.
  pose proof (rows_rel_setitem c4 v4 (setitem c3 v3 (setitem c2 v2 d1))) as H4.
  pose proof (rows_rel_setitem_series c5 v5
                (setitem c4 v4 (setitem c3 v3 (setitem c2 v2 d1)))) as H5.
  pose proof (rows_rel_comp _ _ _ _ _ H1 H2) as H12.
  pose proof (rows_rel_comp _ _ _ _ _ H12 H3) as H13.
  pose proof (rows_rel_comp _ _ _ _ _ H13 H4) as H14.
  pose proof (rows_rel_comp _ _ _ _ _ H14 H5) as H15.
  pose proof (rows_rel_comp _ _ _ _ _ H15 Hrows) as H16.
  eapply rows_rel_weaken; [|exact H16].
  intros r r' [r5 [[r4 [[r3 [[r2 [[r1 [Hr1 Hr2]] Hr3]] Hr4]] [x5 Hr5]]] Hr6]].
  subst r' r5 r4 r3 r2. exists r1, x5. split; [assumption | reflexivity].
Qed.

Lemma process_two_network_data_unified `{Library} (path : string) (out : DataFrame) :
  process_two_network_data path = Ok out ->
  unified (read_excel path) (os_path_basename path) "二网" out.
Proof.
  unfold process_two_network_data.
  destruct (first_missing two_network_required (read_excel path)) eqn:Hfm;
    [discriminate|].
  apply first_missing_none in Hfm.
  destruct (re_search_date (chars (os_path_basename path))) as [m|];
    [|discriminate].
  intros Hsel.
  apply (two_network_writes (read_excel path) _ _ _ _ _ _ _ _ _ _ _ _
           (rows_rel_add_missing (read_excel path))) in Hsel.
  destruct Hsel as [Hcols Hall].
  split; [exact Hcols|].
  eapply rows_rel_weaken; [|exact Hall]. clear Hall.
  intros r r' [r1 [v5 [H1 Hr']]]. subst r'.
  assert (Hpresent : has_column "数据时间" (read_excel path) = true)
    by (apply Hfm; simpl; tauto).
  split; [|split; [|split; reflexivity]].
  - intros c Hin Habs Hprov. unfold restrict.
    apply mem_In in Hin. rewrite Hin. unfold upd.
    eqb_neq c "数据时间". eqb_neq c "日期".
    eqb_neq c "数据类型". eqb_neq c "源文件".
    rewrite H1, mem_missing_columns, Hin, Habs. reflexivity.
  - intros c Hin Hc Hprov. unfold restrict.
    apply mem_In in Hin. rewrite Hin. unfold upd.
    eqb_neq c "数据时间". eqb_neq c "日期".
    eqb_neq c "数据类型". eqb_neq c "源文件".
    rewrite H1, mem_missing_columns, Hin, Hc. reflexivity.
Qed.

Lemma canonical_selection_succeeds (df : DataFrame) :
  (forall c, In c standard_columns -> has_column c df = true) ->
  exists out, getitem_list standard_columns df = Ok out.
Proof. apply getitem_list_succeeds. Qed.

Lemma process_low_cycle_data_succeeds `{Library} (path : string) :
  all_present low_cycle_required (read_excel path) ->
  exists out, process_low_cycle_data path = Ok out.
Proof.
  intros Hall. apply first_missing_none in Hall.
  unfold process_low_cycle_data. rewrite Hall.
  apply getitem_list_succeeds. intros c Hc.
  rewrite !has_column_setitem_series, !has_column_setitem.
  rewrite (has_column_add_missing c _ Hc). reflexivity.
Qed.

(** The search finds a match exactly when some ten consecutive characters
    have the shape of a date. *)
Lemma date_shape_length `{Library} (cs : list string) :
  date_shape cs = true -> List.length cs = 10%nat.
Proof.
  unfold date_shape.
  do 10 (destruct cs as [|? cs]; [discriminate|]).
  destruct cs; [reflexivity | discriminate].
Qed.

Lemma re_search_date_none `{Library} (cs : list string) :
  re_search_date cs = None <->
  ~ exists before date after,
      cs = before ++ date ++ after /\ date_shape date = true.
Proof.
  induction cs as [|c cs IH].
  - simpl. split; [|reflexivity]. intros _ [b [d [a [Heq Hd]]]].
    apply date_shape_length in Hd.
    symmetry in Heq. apply app_eq_nil in Heq. destruct Heq as [_ Heq].
    apply app_eq_nil in Heq. destruct Heq as [-> _]. discriminate.
  - cbn [re_search_date].
    destruct (date_shape (firstn 10 (c :: cs))) eqn:Hs.
    + split; [discriminate|]. intros Hno. exfalso. apply Hno.
      exists [], (firstn 10 (c :: cs)), (skipn 10 (c :: cs)).
      split; [|exact Hs]. symmetry. exact (firstn_skipn 10 (c :: cs)).
    + rewrite IH. split.
      * intros Hno [b [d [a [Heq Hd]]]]. destruct b as [|b0 b].
        -- simpl in Heq. rewrite Heq in Hs.
           pose proof (date_shape_length _ Hd) as Hl.
           rewrite <- Hl, firstn_app, Nat.sub_diag, firstn_all in Hs.
           simpl in Hs. rewrite app_nil_r in Hs. congruence.
        -- simpl in Heq. injection Heq as _ Heq. apply Hno. eauto.
      * intros Hno [b [d [a [Heq Hd]]]]. apply Hno.
        exists (c :: b), d, a. split; [|exact Hd]. simpl. now rewrite Heq.
Qed.

Lemma re_search_date_some `{Library} (cs m : list string) :
  re_search_date cs = Some m ->
  exists before date after,
    cs = before ++ date ++ after /\ date_shape date = true.
Proof.
  induction cs as [|c cs IH]; [discriminate|].
  cbn [re_search_date].
  destruct (date_shape (firstn 10 (c :: cs))) eqn:Hs.
  - intros _. exists [], (firstn 10 (c :: cs)), (skipn 10 (c :: cs)).
    split; [|exact Hs]. symmetry. exact (firstn_skipn 10 (c :: cs)).
  - intros Hm. destruct (IH Hm) as [b [d [a [Heq Hd]]]].
    exists (c :: b), d, a. split; [|exact Hd]. simpl. now rewrite Heq.
Qed.

Lemma process_two_network_data_succeeds `{Library} (path : string) :
  all_present two_network_required (read_excel path) ->
  contains_date (os_path_basename path) ->
  exists out, process_two_network_data path = Ok out.
Proof.
  intros Hall Hdate. apply first_missing_none in Hall.
  unfold process_two_network_data. rewrite Hall.
  destruct (re_search_date (chars (os_path_basename path))) as [m|] eqn:Hre.
  - apply getitem_list_succeeds. intros c Hc.
    rewrite !has_column_setitem_series, !has_column_setitem.
    rewrite (has_column_add_missing c _ Hc). reflexivity.
  - apply re_search_date_none in Hre. contradiction.
Qed.
Lemma mapM_Forall2 {A B : Type} (f : A -> result B) (l : list A) (bs : list B) :
  mapM f l = Ok bs -> Forall2 (fun a b => f a = Ok b) l bs.
Proof.
  revert bs. induction l as [|a l IH]; intros bs; simpl.
  - intros [= <-]. constructor.
  - destruct (f a) as [b|e] eqn:Hfa; simpl; [|discriminate].
    destruct (mapM f l) as [bs'|e]; simpl; [|discriminate].
    intros [= <-]. constructor; auto.
Qed.

Lemma relabel_length (s : Z) rs : List.length (relabel s rs) = List.length rs.
Proof. revert s. induction rs; intros s; simpl; auto. Qed.

Lemma relabel_same_cells (s : Z) rs : Forall2 same_cells rs (relabel s rs).
Proof.
  revert s. induction rs; intros s; simpl; constructor; auto.
  intros c. reflexivity.
Qed.

Lemma same_cells_has_tag (tag : string) r r' :
  same_cells r r' -> has_tag tag r' = has_tag tag r.
Proof. intros Hs. unfold has_tag. now rewrite Hs. Qed.

Lemma same_cells_filter_tag (tag : string) rs rs' :
  Forall2 same_cells rs rs' ->
  Forall2 same_cells (filter (has_tag tag) rs) (filter (has_tag tag) rs').
Proof.
  induction 1 as [|r r' rs rs' Hr _ IH]; simpl; [constructor|].
  rewrite (same_cells_has_tag tag r r' Hr).
  destruct (has_tag tag r); [constructor|]; assumption.
Qed.

Lemma Forall2_same_cells_trans l1 l2 l3 :
  Forall2 same_cells l1 l2 -> Forall2 same_cells l2 l3 -> Forall2 same_cells l1 l3.
Proof.
  intros H12. revert l3.
  induction H12 as [|a b l1 l2 Hab _ IH]; intros l3 H23;
    inversion H23 as [|b' c l2' l3' Hbc Hrest]; subst; constructor.
  - intros k. rewrite (Hbc k). apply Hab.
  - apply IH. assumption.
Qed.

Lemma getitem_list_canonical (df out : DataFrame) :
  getitem_list standard_columns df = Ok out -> canonical out.
Proof.
  unfold getitem_list. destruct (find _ standard_columns); [discriminate|].
  intros [= <-]. split; [reflexivity|]. cbn [rows].
  apply Forall_forall. intros r Hr. apply in_map_iff in Hr.
  destruct Hr as [r0 [<- _]]. intros c Hc. cbn [snd]. unfold restrict. now rewrite Hc.
Qed.

Lemma process_low_cycle_data_canonical `{Library} path out :
  process_low_cycle_data path = Ok out -> canonical out.
Proof.
  unfold process_low_cycle_data. destruct (first_missing _ _); [discriminate|].
  apply getitem_list_canonical.
Qed.

Lemma process_two_network_data_canonical `{Library} path out :
  process_two_network_data path = Ok out -> canonical out.
Proof.
  unfold process_two_network_data. destruct (first_missing _ _); [discriminate|].
  destruct (re_search_date _); [|discriminate].
  apply getitem_list_canonical.
Qed.

Lemma concat_rows_canonical (dfs : list DataFrame) :
  Forall canonical dfs ->
  Forall2 same_cells (flat_map rows dfs) (concat_rows dfs).
Proof.
  induction 1 as [|df dfs [Hc Hr] _ IH]; simpl; [constructor|].
  apply Forall2_app; [|exact IH]. clear IH.
  induction Hr as [|r rs Hr _ IH]; simpl; constructor; [|exact IH].
  intros c. cbn [snd]. unfold restrict. rewrite Hc.
  destruct (mem c standard_columns) eqn:Hm; [reflexivity|]. symmetry. auto.
Qed.

Lemma union_columns_standard :
  union_columns [] standard_columns = standard_columns /\
  union_columns standard_columns standard_columns = standard_columns.
Proof. split; reflexivity. Qed.

Lemma same_cells_outside (l l' : list (Z * row)) :
  Forall2 same_cells l l' ->
  Forall (fun r => forall c, mem c standard_columns = false -> snd r c = NA) l ->
  Forall (fun r => forall c, mem c standard_columns = false -> snd r c = NA) l'.
Proof.
  induction 1 as [|r r' rs rs' Hr _ IH]; intros Hf; constructor.
  - intros c Hc. rewrite Hr. inversion Hf; subst. auto.
  - apply IH. now inversion Hf.
Qed.

Lemma fold_union_standard (dfs : list DataFrame) :
  Forall canonical dfs ->
  fold_left union_columns (map columns dfs) standard_columns = standard_columns.
Proof.
  induction 1 as [|d dfs [Hd _] _ IH]; simpl; [reflexivity|].
  rewrite Hd, (proj2 union_columns_standard). exact IH.
Qed.

Lemma concat_canonical (dfs : list DataFrame) :
  dfs <> [] -> Forall canonical dfs ->
  exists out, concat true dfs = Ok out /\ canonical out /\
              Forall2 same_cells (flat_map rows dfs) (rows out).
Proof.
  intros Hne Hall. destruct dfs as [|d dfs]; [congruence|].
  eexists. split; [reflexivity|]. cbn [rows columns].
  assert (Hsame : Forall2 same_cells (flat_map rows (d :: dfs))
                          (relabel 0 (concat_rows (d :: dfs)))).
  { eapply Forall2_same_cells_trans;
      [apply concat_rows_canonical; assumption | apply relabel_same_cells]. }
  split; [split|exact Hsame].
  - cbn [columns]. inversion Hall as [|? ? [Hd Hdr] Hrest]; subst.
    cbn [map fold_left]. rewrite Hd, (proj1 union_columns_standard).
    now apply fold_union_standard.
  - cbn [rows]. apply (same_cells_outside _ _ Hsame).
    apply Forall_flat_map. eapply Forall_impl; [|exact Hall].
    intros a [_ Ha]. exact Ha.
Qed.
Lemma unified_rows (raw : DataFrame) (f cat : string) (out : DataFrame) :
  unified raw f cat out ->
  nrows out = nrows raw /\
  Forall (fun r => snd r "数据类型" = Str cat) (rows out).
Proof.
  intros [_ Hrel]. split.
  - unfold nrows. eapply rows_rel_length; eauto.
  - induction Hrel as [|r r' rs rs' [_ [_ [_ [_ Ht]]]] _ IH]; constructor; auto.
Qed.

Lemma tagged_rows_of `{Library}
  (process : string -> result DataFrame) (cat : string)
  (files : list string) (dfs : list DataFrame) :
  (forall path out, process path = Ok out ->
     unified (read_excel path) (os_path_basename path) cat out) ->
  mapM process files = Ok dfs ->
  Forall (fun r => snd r "数据类型" = Str cat) (flat_map rows dfs) /\
  List.length (flat_map rows dfs)
  = list_sum (map (fun path => nrows (read_excel path)) files).
Proof.
  intros Hu Hm. apply mapM_Forall2 in Hm.
  induction Hm as [|p d ps ds Hp _ [IH1 IH2]]; simpl.
  - split; [constructor | reflexivity].
  - apply Hu in Hp. apply unified_rows in Hp. destruct Hp as [Hn Ht].
    split.
    + apply Forall_app. split; assumption.
    + rewrite length_app, IH2. unfold nrows in Hn. now rewrite Hn.
Qed.

Lemma filter_tag_all (tag cat : string) rs :
  Forall (fun r => snd r "数据类型" = Str cat) rs ->
  filter (has_tag tag) rs = if String.eqb cat tag then rs else [].
Proof.
  induction 1 as [|r rs Hr _ IH]; cbn [filter].
  - now destruct (String.eqb cat tag).
  - unfold has_tag at 1. rewrite Hr, IH. now destruct (String.eqb cat tag).
Qed.

Lemma mapM_nonempty {A B : Type} (f : A -> result B) a l bs :
  mapM f (a :: l) = Ok bs -> bs <> [].
Proof.
  intros Hm. apply mapM_Forall2 in Hm. inversion Hm. discriminate.
Qed.

Lemma mapM_canonical {A : Type} (f : A -> result DataFrame) l dfs :
  (forall a d, f a = Ok d -> canonical d) ->
  mapM f l = Ok dfs -> Forall canonical dfs.
Proof.
  intros Hc Hm. apply mapM_Forall2 in Hm.
  induction Hm; constructor; eauto.
Qed.

(** C7.  When the merge succeeds, its table holds the rows of the unified
    first-category tables followed by those of the unified second-category
    tables: with N and M their numbers of rows (which are the numbers of
    rows of the raw sheets), the table has N + M rows, N of them tagged
    with the first category and M with the second, and the rows of each
    category appear in their input order. *)
Theorem merge_count_conservation `{Library} (data_dir : string) (out : DataFrame) :
  merge_all_data data_dir = Ok out ->
  exists low_cycle_dfs two_network_dfs,
    mapM process_low_cycle_data (fst (find_data_files data_dir))
      = Ok low_cycle_dfs /\
    mapM process_two_network_data (snd (find_data_files data_dir))
      = Ok two_network_dfs /\
    let A := flat_map rows low_cycle_dfs in
    let B := flat_map rows two_network_dfs in
    List.length A
      = list_sum (map (fun path => nrows (read_excel path))
                      (fst (find_data_files data_dir))) /\
    List.length B
      = list_sum (map (fun path => nrows (read_excel path))
                      (snd (find_data_files data_dir))) /\
    nrows out = (List.length A + List.length B)%nat /\
    tag_count "低环" (rows out) = List.length A /\
    tag_count "二网" (rows out) = List.length B /\
    Forall2 same_cells (A ++ B) (rows out) /\
    Forall2 same_cells A (filter (has_tag "低环") (rows out)) /\
    Forall2 same_cells B (filter (has_tag "二网") (rows out)).
Proof.
  unfold merge_all_data.
  destruct (find_data_files data_dir) as [low two].
  destruct low as [|l0 low]; [discriminate|].
  destruct two as [|t0 two]; [discriminate|].
  destruct (mapM process_low_cycle_data (l0 :: low)) as [ldfs|e] eqn:Hl;
    [|discriminate].
  cbn [bind].
  destruct (concat_canonical ldfs (mapM_nonempty _ _ _ _ Hl)
              (mapM_canonical _ _ _ process_low_cycle_data_canonical Hl))
    as [lc [Hlc [Clc Slc]]].
  rewrite Hlc. cbn [bind].
  destruct (mapM process_two_network_data (t0 :: two)) as [tdfs|e] eqn:Ht;
    [|discriminate].
  cbn [bind].
  destruct (concat_canonical tdfs (mapM_nonempty _ _ _ _ Ht)
              (mapM_canonical _ _ _ process_two_network_data_canonical Ht))
    as [tc [Htc [Ctc Stc]]].
  rewrite Htc. cbn [bind].
  destruct (concat_canonical [lc; tc] ltac:(discriminate)
              (Forall_cons _ Clc (Forall_cons _ Ctc (Forall_nil _))))
    as [all_data [Hall [_ Sall]]].
  rewrite Hall. intros [= <-].
  exists ldfs, tdfs. cbn [fst snd].
  split; [exact Hl|]. split; [exact Ht|].
  destruct (tagged_rows_of process_low_cycle_data "低环" _ _
              process_low_cycle_data_unified Hl) as [TA NA_].
  destruct (tagged_rows_of process_two_network_data "二网" _ _
              process_two_network_data_unified Ht) as [TB NB_].
  set (A := flat_map rows ldfs) in *. set (B := flat_map rows tdfs) in *.
  assert (Hrows : Forall2 same_cells (A ++ B) (rows all_data)).
  { eapply Forall2_same_cells_trans; [|exact Sall].
    simpl. rewrite app_nil_r. apply Forall2_app; assumption. }
  assert (HfA : filter (has_tag "低环") (A ++ B) = A).
  { rewrite filter_app, (filter_tag_all _ _ _ TA), (filter_tag_all _ _ _ TB).
    simpl. apply app_nil_r. }
  assert (HfB : filter (has_tag "二网") (A ++ B) = B).
  { rewrite filter_app, (filter_tag_all _ _ _ TA), (filter_tag_all _ _ _ TB).
    reflexivity. }
  pose proof (same_cells_filter_tag "低环" _ _ Hrows) as HA. rewrite HfA in HA.
  pose proof (same_cells_filter_tag "二网" _ _ Hrows) as HB. rewrite HfB in HB.
  cbv zeta. split; [exact NA_|]. split; [exact NB_|].
  split; [|split; [|split; [|split; [|split]]]]; try assumption.
  - unfold nrows. rewrite <- (Forall2_length Hrows). apply length_app.
  - unfold tag_count. now rewrite <- (Forall2_length HA).
  - unfold tag_count. now rewrite <- (Forall2_length HB).
Qed.

Lemma merge_count_conservation_witness :
  nrows sample_master = 5%nat /\
  tag_count "低环" (rows sample_master) = 2%nat /\
  tag_count "二网" (rows sample_master) = 3%nat.
Proof.
  destruct (@merge_count_conservation sample_library "data" sample_master)
    as [ldfs [tdfs [Hl [Ht [_ [_ [Hn [Ha [Hb _]]]]]]]]].
  - vm_compute. reflexivity.
  - vm_compute in Hl. injection Hl as <-.
    vm_compute in Ht. injection Ht as <-.
    split; [exact Hn|]. split; [exact Ha | exact Hb].
Defined.

(* ------------------------------------------------------------------ *)
(** ** The time and date fields of the unified tables *)
(* ------------------------------------------------------------------ *)

Lemma zip_update_map (c : string) (g : Z * row -> cell) (rs : list (Z * row)) :
  zip_update c rs (map g rs)
  = map (fun r => (fst r, upd (snd r) c (g r))) rs.
Proof.
  induction rs as [|r rs IH]; [reflexivity|].
  cbn [map zip_update hd tl]. now rewrite IH.
Qed.

Lemma zip_update_column (c : string) (rs : list (Z * row)) (vs : list cell) :
  List.length vs = List.length rs ->
  map (fun r => snd r c) (zip_update c rs vs) = vs.
Proof.
  revert vs. induction rs as [|r rs IH]; intros vs Hl.
  - destruct vs; [reflexivity | discriminate].
  - destruct vs as [|v vs]; [discriminate|].
    cbn [zip_update map hd tl snd]. unfold upd at 1. rewrite String.eqb_refl.
    f_equal. apply IH. now injection Hl.
Qed.

Lemma rows_rel_setitem_series_map (c : string) (g : row -> cell)
  (vs : list cell) (df : DataFrame) :
  vs = map (fun r => g (snd r)) (rows df) ->
  rows_rel (fun r r' => r' = upd r c (g r))
           (rows df) (rows (setitem_series c vs df)).
Proof.
  intros ->. unfold setitem_series. cbn [rows].
  rewrite (zip_update_map c (fun r => g (snd r))).
  apply (rows_rel_map (fun r => upd r c (g r))).
Qed.

Lemma re_search_date_leftmost `{Library} (cs m : list string) :
  re_search_date cs = Some m ->
  exists before after,
    cs = before ++ m ++ after /\ date_shape m = true /\
    forall b d a, cs = b ++ d ++ a -> date_shape d = true ->
                  (List.length before <= List.length b)%nat.
Proof.
  revert m. induction cs as [|c cs IH]; intros m; [discriminate|].
  cbn [re_search_date].
  destruct (date_shape (firstn 10 (c :: cs))) eqn:Hs.
  - intros [= <-]. exists [], (skipn 10 (c :: cs)).
    split; [symmetry; exact (firstn_skipn 10 (c :: cs))|].
    split; [exact Hs|]. intros b d a _ _. cbn [List.length]. lia.
  - intros Hm. destruct (IH m Hm) as [before [after [Heq [Hd Hleft]]]].
    exists (c :: before), after. split; [cbn [app]; now rewrite Heq|].
    split; [exact Hd|].
    intros b d a Hcs Hdd. destruct b as [|b0 b].
    + exfalso. cbn [app] in Hcs.
      pose proof (date_shape_length _ Hdd) as Hl.
      rewrite Hcs, <- Hl, firstn_app, Nat.sub_diag, firstn_all in Hs.
      cbn [firstn] in Hs. rewrite app_nil_r in Hs. congruence.
    + cbn [app] in Hcs. injection Hcs as _ Hcs.
      cbn [List.length]. apply le_n_S. exact (Hleft b d a Hcs Hdd).
Qed.

(** The rows of a unified second-category table, with the date and the
    combined time spelled out. *)
Lemma process_two_network_data_rows `{Library} (path : string)
  (out : DataFrame) :
  process_two_network_data path = Ok out ->
  exists m,
    re_search_date (chars (os_path_basename path)) = Some m /\
    rows_rel (fun r r' =>
                r' "日期" = Str (unchars m) /\
                r' "数据时间" = combine_datetime (unchars m) r)
             (rows (read_excel path)) (rows out).
Proof.
  unfold process_two_network_data.
  destruct (first_missing two_network_required (read_excel path)) eqn:Hfm;
    [discriminate|].
  apply first_missing_none in Hfm.
  destruct (re_search_date (chars (os_path_basename path))) as [m|];
    [|discriminate].
  intros Hsel. exists m. split; [reflexivity|].
  apply getitem_list_ok in Hsel. destruct Hsel as [_ Hsel].
  set (d1 := add_missing_columns (read_excel path)) in *.
  set (d2 := setitem "源文件" (Str (os_path_basename path)) d1) in *.
  set (d3 := setitem "数据类型" (Str "二网") d2) in *.
  set (d4 := setitem "日期" (Str (unchars m)) d3) in *.
  pose proof (rows_rel_add_missing (read_excel path)) as H1. fold d1 in H1.
  pose proof (rows_rel_setitem "源文件" (Str (os_path_basename path)) d1) as H2.
  fold d2 in H2.
  pose proof (rows_rel_setitem "数据类型" (Str "二网") d2) as H3. fold d3 in H3.
  pose proof (rows_rel_setitem "日期" (Str (unchars m)) d3) as H4. fold d4 in H4.
  pose proof (rows_rel_setitem_series_map "数据时间"
                (combine_datetime (unchars m)) _ d4 eq_refl) as H5.
  pose proof (rows_rel_comp _ _ _ _ _ H1 H2) as H12.
  pose proof (rows_rel_comp _ _ _ _ _ H12 H3) as H13.
  pose proof (rows_rel_comp _ _ _ _ _ H13 H4) as H14.
  pose proof (rows_rel_comp _ _ _ _ _ H14 H5) as H15.
  pose proof (rows_rel_comp _ _ _ _ _ H15 Hsel) as H16.
  eapply rows_rel_weaken; [|exact H16].
  intros r r' [r5 [[r4 [[r3 [[r2 [[r1 [Hr1 Hr2]] Hr3]] Hr4]] Hr5]] Hr6]].
  subst r' r5 r4 r3 r2.
  assert (Hpresent : has_column "数据时间" (read_excel path) = true)
    by (apply Hfm; simpl; tauto).
  assert (Htime : r1 "数据时间" = r "数据时间").
  { rewrite Hr1, mem_missing_columns, Hpresent.
    now rewrite andb_false_r. }
  split; [reflexivity|].
  unfold restrict. cbn [mem existsb standard_columns].
  replace (existsb (String.eqb "数据时间") standard_columns) with true
    by reflexivity.
  unfold upd at 1. rewrite String.eqb_refl.
  unfold combine_datetime, upd. cbn [String.eqb Ascii.eqb Bool.eqb andb].
  rewrite Htime. reflexivity.
Qed.

Lemma rows_rel_column (c : string) (rs rs' : list (Z * row)) :
  rows_rel (fun r r' => r' c = r c) rs rs' ->
  map (fun r => snd r c) rs' = map (fun r => snd r c) rs.
Proof.
  induction 1 as [|r r' rs rs' [_ Hc] _ IH]; [reflexivity|].
  cbn [map]. now rewrite Hc, IH.
Qed.

Lemma rows_rel_Forall (P : row -> row -> Prop) (Q : row -> Prop)
  (rs rs' : list (Z * row)) :
  (forall a b, P a b -> Q b) -> rows_rel P rs rs' ->
  Forall (fun r => Q (snd r)) rs'.
Proof.
  intros HPQ. induction 1 as [|r r' rs rs' [_ Hp] _ IH]; constructor; eauto.
Qed.

(** The date and the data time of a unified first-category table. *)
Lemma process_low_cycle_data_times `{Library} (path : string) (out : DataFrame) :
  process_low_cycle_data path = Ok out ->
  Forall (fun r => snd r "日期"
                   = match snd r "数据时间" with
                     | Stamp t => Str (strftime_ymd t)
                     | _ => NA
                     end) (rows out) /\
  (List.length (to_datetime (column "数据时间" (read_excel path)))
   = nrows (read_excel path) ->
   column "数据时间" out = to_datetime (column "数据时间" (read_excel path))).
Proof.
  unfold process_low_cycle_data.
  destruct (first_missing low_cycle_required (read_excel path)) eqn:Hfm;
    [discriminate|].
  apply first_missing_none in Hfm.
  intros Hsel. apply getitem_list_ok in Hsel. destruct Hsel as [_ Hsel].
  set (d1 := add_missing_columns (read_excel path)) in *.
  set (d2 := setitem "源文件" (Str (os_path_basename path)) d1) in *.
  set (d3 := setitem "数据类型" (Str "低环") d2) in *.
  set (v4 := to_datetime (column "数据时间" d3)) in *.
  set (d4 := setitem_series "数据时间" v4 d3) in *.
  set (g := fun r : row => match r "数据时间" with
                           | Stamp t => Str (strftime_ymd t)
                           | _ => NA
                           end).
  assert (Hv5 : dt_strftime (column "数据时间" d4)
                = map (fun r => g (snd r)) (rows d4)).
  { unfold dt_strftime, column. rewrite map_map. reflexivity. }
  pose proof (rows_rel_add_missing (read_excel path)) as H1. fold d1 in H1.
  pose proof (rows_rel_setitem "源文件" (Str (os_path_basename path)) d1) as H2.
  fold d2 in H2.
  pose proof (rows_rel_setitem "数据类型" (Str "低环") d2) as H3. fold d3 in H3.
  pose proof (rows_rel_setitem_series_map "日期" g _ d4 Hv5) as H5.
  assert (Hpresent : has_column "数据时间" (read_excel path) = true)
    by (apply Hfm; simpl; tauto).
  split.
  - pose proof (rows_rel_comp _ _ _ _ _ H5 Hsel) as H56.
    apply (rows_rel_Forall _ (fun r' => r' "日期" = g r') _ _) in H56;
      [exact H56|].
    intros a b [r5 [-> ->]]. unfold restrict, g.
    replace (mem "日期" standard_columns) with true by reflexivity.
    replace (mem "数据时间" standard_columns) with true by reflexivity.
    unfold upd. cbn [String.eqb Ascii.eqb Bool.eqb andb].
    reflexivity.
  - intros Hlen.
    assert (H13 : rows_rel (fun r r' => r' "数据时间" = r "数据时间")
                    (rows (read_excel path)) (rows d3)).
    { pose proof (rows_rel_comp _ _ _ _ _ (rows_rel_comp _ _ _ _ _ H1 H2) H3)
        as H123.
      eapply rows_rel_weaken; [|exact H123].
      intros a b [r2 [[r1 [Hr1 ->]] ->]]. unfold upd.
      cbn [String.eqb Ascii.eqb Bool.eqb andb].
      rewrite Hr1, mem_missing_columns, Hpresent. now rewrite andb_false_r. }
    assert (Hraw : column "数据时间" d3 = column "数据时间" (read_excel path)).
    { unfold column. now apply rows_rel_column. }
    assert (Hl3 : List.length (rows d3) = nrows (read_excel path)).
    { unfold nrows. eapply rows_rel_length. exact H13. }
    assert (Hd4 : column "数据时间" d4 = v4).
    { unfold column, d4, setitem_series. cbn [rows].
      apply zip_update_column. unfold v4. rewrite Hraw, Hlen. now symmetry. }
    pose proof (rows_rel_comp _ _ _ _ _ H5 Hsel) as H56.
    assert (H46 : rows_rel (fun r r' => r' "数据时间" = r "数据时间")
                    (rows d4) (rows out)).
    { eapply rows_rel_weaken; [|exact H56].
      intros a b [r5 [-> ->]]. unfold restrict.
      replace (mem "数据时间" standard_columns) with true by reflexivity.
      unfold upd. cbn [String.eqb Ascii.eqb Bool.eqb andb]. reflexivity. }
    transitivity (column "数据时间" d4).
    { unfold column. exact (rows_rel_column _ _ _ H46). }
    rewrite Hd4. unfold v4. now rewrite Hraw.
Qed.

(** C5 (as amended).  A unified table of either category has exactly the
    27 canonical columns in canonical order and one row for each raw row,
    in the same order and under the same label.  In each row, a canonical
    column that the raw sheet lacks is null unless it is one of the three
    stamped columns (source file, category, date); the source file and the
    category hold the file name and the category tag; and a canonical
    column that the sheet has, other than the data time and the stamped
    ones, keeps the raw cell.  The date column holds the derived date: in
    the first category the day of the row's parsed data time, missing
    where the time did not parse, the data-time column being what the
    parser returned for the raw column (provided it returned one value
    per row); in the second category the leftmost YYYY-MM-DD substring of
    the file name, in every row. *)
Theorem schema_completeness `{Library} (path : string) (out : DataFrame) :
  List.length standard_columns = 27%nat /\
  NoDup standard_columns /\
  (process_low_cycle_data path = Ok out ->
   unified (read_excel path) (os_path_basename path) "低环" out /\
   Forall (fun r => snd r "日期"
                    = match snd r "数据时间" with
                      | Stamp t => Str (strftime_ymd t)
                      | _ => NA
                      end) (rows out) /\
   (List.length (to_datetime (column "数据时间" (read_excel path)))
    = nrows (read_excel path) ->
    column "数据时间" out
    = to_datetime (column "数据时间" (read_excel path)))) /\
  (process_two_network_data path = Ok out ->
   unified (read_excel path) (os_path_basename path) "二网" out /\
   exists before date after,
     chars (os_path_basename path) = before ++ date ++ after /\
     date_shape date = true /\
     (forall b d a,
        chars (os_path_basename path) = b ++ d ++ a -> date_shape d = true ->
        (List.length before <= List.length b)%nat) /\
     Forall (fun r => snd r "日期" = Str (unchars date)) (rows out)).
Proof.
  split; [reflexivity|]. split.
  - repeat (constructor; [simpl; intuition discriminate|]). constructor.
  - split.
    + intros Hok. split; [now apply process_low_cycle_data_unified|].
      exact (process_low_cycle_data_times path out Hok).
    + intros Hok. split; [now apply process_two_network_data_unified|].
      destruct (process_two_network_data_rows path out Hok) as [m [Hm Hrows]].
      destruct (re_search_date_leftmost _ _ Hm)
        as [before [after [Heq [Hd Hl]]]].
      exists before, m, after. repeat (split; [assumption|]).
      apply (rows_rel_Forall _ (fun r' => r' "日期" = Str (unchars m)) _ _)
        in Hrows; [exact Hrows|].
      intros a b [Hdate _]. exact Hdate.
Qed.

Lemma schema_completeness_witness :
  unified two_network_raw "二网_2023-11-20.xlsx" "二网"
          sample_two_network_unified /\
  Forall (fun r => snd r "日期" = Str "2023-11-20")
         (rows sample_two_network_unified).
Proof.
  destruct (proj2 (proj2 (proj2
    (@schema_completeness sample_library "data/二网_2023-11-20.xlsx"
       sample_two_network_unified))))
    as [Hunified [before [date [after [_ [_ [_ Hdate]]]]]]].
  - vm_compute. reflexivity.
  - split; [exact Hunified|].
    rewrite Forall_forall in Hdate.
    set (r0 := nth 0 (rows sample_two_network_unified) (0, fun _ => NA)).
    assert (Hin : In r0 (rows sample_two_network_unified))
      by (vm_compute; left; reflexivity).
    assert (Hfirst : snd r0 "日期" = Str "2023-11-20")
      by (vm_compute; reflexivity).
    rewrite (Hdate r0 Hin) in Hfirst. injection Hfirst as Hd.
    apply Forall_forall. intros r Hr. rewrite (Hdate r Hr), Hd. reflexivity.
Defined.

(** C5 as stated fails: the first-category sheet of the sample directory
    has no category column, and the unified rows carry the tag there, not
    a null. *)
Lemma schema_completeness_counterexample :
  @process_low_cycle_data sample_library "data/低环_室温.xlsx"
    = Ok sample_low_cycle_unified /\
  ~ absent_columns_null low_cycle_raw sample_low_cycle_unified.
Proof.
  split; [vm_compute; reflexivity|].
  intros Hnull.
  assert (Hin : In "数据类型" standard_columns) by (simpl; tauto).
  specialize (Hnull "数据类型" Hin eq_refl).
  inversion Hnull as [|r rs Hr _]. vm_compute in Hr. discriminate Hr.
Qed.

(** C6 (as amended).  Unifying a first-category sheet fails, naming a
    required column the sheet lacks, exactly when it lacks one, and
    succeeds otherwise.  Unifying a second-category sheet fails naming a
    lacking required column exactly when it lacks one; fails naming the
    file exactly when no required column is lacking and the file name
    holds no YYYY-MM-DD substring; and succeeds exactly when no required
    column is lacking and the name holds one. *)
Theorem unification_errors `{Library} (path : string) :
  let raw := read_excel path in
  let filename := os_path_basename path in
  (forall col, process_low_cycle_data path = Err (MissingLowCycleColumn col) ->
               In col low_cycle_required /\ has_column col raw = false) /\
  (some_absent low_cycle_required raw <->
   exists col, process_low_cycle_data path = Err (MissingLowCycleColumn col)) /\
  (all_present low_cycle_required raw <->
   exists out, process_low_cycle_data path = Ok out) /\
  (forall col,
     process_two_network_data path = Err (MissingTwoNetworkColumn col) ->
     In col two_network_required /\ has_column col raw = false) /\
  (some_absent two_network_required raw <->
   exists col,
     process_two_network_data path = Err (MissingTwoNetworkColumn col)) /\
  (all_present two_network_required raw /\ ~ contains_date filename <->
   process_two_network_data path = Err (NoDateInFileName filename)) /\
  (all_present two_network_required raw /\ contains_date filename <->
   exists out, process_two_network_data path = Ok out).
Proof.
  cbv zeta.
  assert (Hlow : forall col,
    process_low_cycle_data path = Err (MissingLowCycleColumn col) <->
    first_missing low_cycle_required (read_excel path) = Some col).
  { intros col. unfold process_low_cycle_data.
    destruct (first_missing low_cycle_required (read_excel path)) as [c|] eqn:Hf.
    - split; intros [= ->]; reflexivity.
    - split; [|discriminate]. intros He. exfalso.
      apply first_missing_none in Hf.
      destruct (process_low_cycle_data_succeeds path Hf) as [o Ho].
      unfold process_low_cycle_data in Ho.
      apply first_missing_none in Hf. rewrite Hf in Ho.
      rewrite Ho in He. discriminate. }
  assert (Htwo : forall col,
    process_two_network_data path = Err (MissingTwoNetworkColumn col) <->
    first_missing two_network_required (read_excel path) = Some col).
  { intros col. unfold process_two_network_data.
    destruct (first_missing two_network_required (read_excel path))
      as [c|] eqn:Hf.
    - split; intros [= ->]; reflexivity.
    - split; [|discriminate].
      destruct (re_search_date (chars (os_path_basename path))); [|discriminate].
      unfold getitem_list. destruct (find _ standard_columns); discriminate. }
  split; [|split; [|split; [|split; [|split; [|split]]]]].
  - intros col He. apply Hlow in He. now apply first_missing_some.
  - rewrite first_missing_absent. split; intros [col Hc]; exists col;
      now apply Hlow.
  - split; [apply process_low_cycle_data_succeeds|].
    intros [o Ho]. apply first_missing_none. unfold process_low_cycle_data in Ho.
    destruct (first_missing low_cycle_required (read_excel path));
      [discriminate | reflexivity].
  - intros col He. apply Htwo in He. now apply first_missing_some.
  - rewrite first_missing_absent. split; intros [col Hc]; exists col;
      now apply Htwo.
  - unfold process_two_network_data, contains_date.
    rewrite <- first_missing_none, <- re_search_date_none.
    destruct (first_missing two_network_required (read_excel path)) as [c|].
    + split; [intros [Hc _]; discriminate | discriminate].
    + destruct (re_search_date (chars (os_path_basename path))) as [m|].
      * split; [intros [_ Hn]; discriminate|].
        unfold getitem_list. destruct (find _ standard_columns); discriminate.
      * split; [reflexivity | auto].
  - split.
    + intros [Hall Hd]. now apply process_two_network_data_succeeds.
    + intros [o Ho]. unfold process_two_network_data in Ho.
      destruct (first_missing two_network_required (read_excel path))
        as [c|] eqn:Hf; [discriminate|].
      apply first_missing_none in Hf. split; [exact Hf|].
      destruct (re_search_date (chars (os_path_basename path))) as [m|] eqn:Hre;
        [|discriminate].
      exact (re_search_date_some _ _ Hre).
Qed.

Lemma unification_errors_witness :
  (exists col,
     @process_two_network_data sample_library "data/二网_日报.xlsx"
       = Err (MissingTwoNetworkColumn col)) /\
  (exists out,
     @process_two_network_data sample_library "data/二网_2023-11-20.xlsx"
       = Ok out).
Proof.
  split.
  - apply (proj1 (proj2 (proj2 (proj2 (proj2
      (@unification_errors sample_library "data/二网_日报.xlsx")))))).
    exists "环路". split; [simpl; tauto | reflexivity].
  - apply (proj2 (proj2 (proj2 (proj2 (proj2 (proj2
      (@unification_errors sample_library "data/二网_2023-11-20.xlsx"))))))).
    split.
    + intros col Hin. simpl in Hin.
      repeat (destruct Hin as [<-|Hin]; [reflexivity|]). contradiction.
    + exists ["二"; "网"; "_"],
             ["2"; "0"; "2"; "3"; "-"; "1"; "1"; "-"; "2"; "0"],
             ["."; "x"; "l"; "s"; "x"].
      split; reflexivity.
Defined.

(** C6 as stated fails: a second-category sheet without its loop column,
    in a file whose name holds no date, is refused for the column, not for
    the file name. *)
Lemma unification_errors_counterexample :
  ~ @date_error_iff_no_date sample_library "data/二网_日报.xlsx".
Proof.
  intros [_ Hback].
  assert (Hno : ~ @contains_date sample_library
                    (@os_path_basename sample_library "data/二网_日报.xlsx")).
  { apply re_search_date_none. vm_compute. reflexivity. }
  specialize (Hback Hno). vm_compute in Hback. discriminate Hback.
Qed.

(* ------------------------------------------------------------------ *)
(** ** Hours and the timeline *)
(* ------------------------------------------------------------------ *)

Lemma hour_pos : 0 < hour.
Proof. reflexivity. Qed.

Lemma floor_h_le (t : Z) : floor_h t <= t.
Proof.
  unfold floor_h. pose proof (Z.mul_div_le t hour hour_pos). lia.
Qed.

Lemma floor_h_bucket (t b : Z) :
  b mod hour = 0 -> (floor_h t = b <-> b <= t < b + hour).
Proof.
  intros Hb. unfold floor_h.
  pose proof hour_pos as Hp.
  pose proof (Z.div_mod t hour ltac:(lia)) as Hdm.
  pose proof (Z.mod_pos_bound t hour Hp) as Hm.
  pose proof (Z.div_mod b hour ltac:(lia)) as Hbd. rewrite Hb in Hbd.
  split.
  - intros <-. lia.
  - intros [Hlo Hhi].
    assert (t / hour = b / hour) as ->; [|lia].
    symmetry. apply Z.div_unique with (r := t - b); lia.
Qed.

Lemma floor_h_aligned (t : Z) : floor_h t mod hour = 0.
Proof. unfold floor_h. apply Z.mod_mul. pose proof hour_pos; lia. Qed.

Lemma ceil_h_aligned (t : Z) : ceil_h t mod hour = 0.
Proof.
  unfold ceil_h. rewrite <- Z.mul_opp_l. apply Z.mod_mul.
  pose proof hour_pos; lia.
Qed.

Lemma ceil_h_ge (t : Z) : t <= ceil_h t.
Proof.
  unfold ceil_h. pose proof (Z.mul_div_le (- t) hour hour_pos). lia.
Qed.

Lemma floor_h_mono (a b : Z) : a <= b -> floor_h a <= floor_h b.
Proof.
  intros Hab. unfold floor_h.
  apply Z.mul_le_mono_nonneg_r; [pose proof hour_pos; lia|].
  apply Z.div_le_mono; [apply hour_pos | assumption].
Qed.

Lemma date_range_In (start stop x : Z) :
  In x (date_range start stop) <->
  exists k : Z, 0 <= k /\ x = start + k * hour /\ x <= stop.
Proof.
  unfold date_range. rewrite in_map_iff.
  pose proof hour_pos as Hp.
  split.
  - intros [k [<- Hk]]. apply in_seq in Hk.
    exists (Z.of_nat k). split; [lia|]. split; [reflexivity|].
    assert (Z.of_nat k <= (stop - start) / hour) as Hle by lia.
    pose proof (Z.mul_div_le (stop - start) hour Hp).
    assert (Z.of_nat k * hour <= (stop - start) / hour * hour)
      by (apply Z.mul_le_mono_nonneg_r; lia).
    lia.
  - intros [k [Hk [-> Hle]]]. exists (Z.to_nat k).
    split; [rewrite Z2Nat.id; [reflexivity | assumption]|].
    apply in_seq. split; [lia|]. simpl.
    assert (k <= (stop - start) / hour).
    { apply Z.div_le_lower_bound; lia. }
    lia.
Qed.

Lemma date_range_length (start stop : Z) :
  List.length (date_range start stop)
  = Z.to_nat ((stop - start) / hour + 1).
Proof. unfold date_range. now rewrite length_map, length_seq. Qed.

Lemma date_range_aligned (start stop x : Z) :
  start mod hour = 0 -> In x (date_range start stop) -> x mod hour = 0.
Proof.
  intros Hs Hx. apply date_range_In in Hx. destruct Hx as [k [_ [-> _]]].
  rewrite Z.mod_add; [assumption | pose proof hour_pos; lia].
Qed.

Lemma date_range_floor_In (lo t hi : Z) :
  lo <= t <= hi -> In (floor_h t) (date_range (floor_h lo) (floor_h hi)).
Proof.
  intros [Hlo Hhi]. apply date_range_In.
  exists (t / hour - lo / hour). pose proof hour_pos as Hp.
  split; [pose proof (Z.div_le_mono lo t hour Hp Hlo); lia|].
  split; [unfold floor_h; lia | now apply floor_h_mono].
Qed.

Lemma date_range_NoDup (start stop : Z) : NoDup (date_range start stop).
Proof.
  unfold date_range. apply Finite.Injective_map_NoDup; [|apply seq_NoDup].
  intros a b Hab. pose proof hour_pos. nia.
Qed.

Lemma fold_min_le (l : list Z) (x : Z) :
  fold_left Z.min l x <= x /\ Forall (fun y => fold_left Z.min l x <= y) l.
Proof.
  revert x. induction l as [|a l IH]; intros x; simpl.
  - split; [lia | constructor].
  - destruct (IH (Z.min x a)) as [H1 H2]. split; [lia|].
    constructor; [lia | assumption].
Qed.

Lemma fold_max_ge (l : list Z) (x : Z) :
  x <= fold_left Z.max l x /\ Forall (fun y => y <= fold_left Z.max l x) l.
Proof.
  revert x. induction l as [|a l IH]; intros x; simpl.
  - split; [lia | constructor].
  - destruct (IH (Z.max x a)) as [H1 H2]. split; [lia|].
    constructor; [lia | assumption].
Qed.

Lemma series_min_le (l : list Z) (m x : Z) :
  series_min l = Some m -> In x l -> m <= x.
Proof.
  destruct l as [|a l]; [discriminate|]. intros [= <-] Hx.
  destruct (fold_min_le l a) as [H1 H2]. destruct Hx as [<-|Hx]; [assumption|].
  rewrite Forall_forall in H2. now apply H2.
Qed.

Lemma series_max_ge (l : list Z) (m x : Z) :
  series_max l = Some m -> In x l -> x <= m.
Proof.
  destruct l as [|a l]; [discriminate|]. intros [= <-] Hx.
  destruct (fold_max_ge l a) as [H1 H2]. destruct Hx as [<-|Hx]; [assumption|].
  rewrite Forall_forall in H2. now apply H2.
Qed.

Lemma series_min_some (l : list Z) :
  l <> [] -> exists m, series_min l = Some m.
Proof. destruct l; [congruence | simpl; eauto]. Qed.

Lemma series_max_some (l : list Z) :
  l <> [] -> exists m, series_max l = Some m.
Proof. destruct l; [congruence | simpl; eauto]. Qed.

Lemma instants_In (rs : list (Z * row)) (t : Z) :
  In t (instants rs) <-> exists r, In r rs /\ instant_of r = Some t.
Proof.
  unfold instants. rewrite in_flat_map. split.
  - intros [r [Hr Ht]]. exists r. split; [assumption|].
    destruct (instant_of r); simpl in Ht; [|contradiction].
    destruct Ht as [<-|[]]. reflexivity.
  - intros [r [Hr Ht]]. exists r. split; [assumption|]. rewrite Ht. now left.
Qed.

(* ------------------------------------------------------------------ *)
(** ** Order of group keys *)
(* ------------------------------------------------------------------ *)

Lemma string_compare_refl (a : string) : String.compare a a = Eq.
Proof.
  induction a as [|c a IH]; simpl; [reflexivity|].
  unfold Ascii.compare. now rewrite N.compare_refl.
Qed.

Lemma string_compare_lt_trans (a b c : string) :
  String.compare a b = Lt -> String.compare b c = Lt -> String.compare a c = Lt.
Proof.
  revert b c. induction a as [|x a IH]; intros [|y b] [|z c]; simpl;
    try discriminate; try reflexivity.
  destruct (Ascii.compare x y) eqn:Hxy; try discriminate.
  - apply Ascii.compare_eq_iff in Hxy. subst y.
    destruct (Ascii.compare x z); try discriminate; [|reflexivity].
    apply IH.
  - intros _. destruct (Ascii.compare y z) eqn:Hyz; try discriminate.
    + apply Ascii.compare_eq_iff in Hyz. subst z. now rewrite Hxy.
    + intros _. unfold Ascii.compare in *.
      rewrite N.compare_lt_iff in Hxy, Hyz.
      assert (N_of_ascii x < N_of_ascii z)%N as Hxz by lia.
      apply N.compare_lt_iff in Hxz. now rewrite Hxz.
Qed.

Lemma key_eqb_eq (a b : string * string) : key_eqb a b = true <-> a = b.
Proof.
  destruct a as [a1 a2], b as [b1 b2]. unfold key_eqb. cbn [fst snd].
  rewrite andb_true_iff, !String.eqb_eq. split.
  - intros [-> ->]. reflexivity.
  - intros [= -> ->]. split; reflexivity.
Qed.

Lemma key_eqb_refl (a : string * string) : key_eqb a a = true.
Proof. now apply key_eqb_eq. Qed.

Lemma key_lt_cases (a b : string * string) :
  key_lt a b <->
  String.compare (fst a) (fst b) = Lt \/
  (fst a = fst b /\ String.compare (snd a) (snd b) = Lt).
Proof.
  destruct a as [a1 a2], b as [b1 b2]. unfold key_lt, key_leb. cbn [fst snd].
  destruct (String.compare a1 b1) eqn:H1.
  - apply String.compare_eq_iff in H1. subst b1. unfold String.leb.
    destruct (String.compare a2 b2) eqn:H2.
    + apply String.compare_eq_iff in H2. subst b2.
      split; [intros [_ Hne]; congruence | intros [?|[_ ?]]; discriminate].
    + split; [auto|]. intros _. split; [reflexivity|].
      intros [= <-]. rewrite string_compare_refl in H2. discriminate.
    + split; [intros [? _]; discriminate | intros [?|[_ ?]]; discriminate].
  - split; [auto|]. intros _. split; [reflexivity|].
    intros [= <- <-]. rewrite string_compare_refl in H1. discriminate.
  - split; [intros [? _]; discriminate|].
    intros [?|[-> _]]; [discriminate|].
    rewrite string_compare_refl in H1. discriminate.
Qed.

Lemma key_lt_trans (a b c : string * string) :
  key_lt a b -> key_lt b c -> key_lt a c.
Proof.
  rewrite !key_lt_cases. intros [H1|[E1 H1]] [H2|[E2 H2]].
  - left. eapply string_compare_lt_trans; eauto.
  - left. now rewrite <- E2.
  - left. now rewrite E1.
  - right. split; [congruence|]. eapply string_compare_lt_trans; eauto.
Qed.

Lemma key_lt_irrefl (a : string * string) : ~ key_lt a a.
Proof. intros [_ Hne]. congruence. Qed.

Lemma key_lt_total (a b : string * string) :
  key_leb a b = false -> key_lt b a.
Proof.
  intros Hf. apply key_lt_cases.
  destruct a as [a1 a2], b as [b1 b2]. unfold key_leb in Hf. cbn [fst snd] in *.
  rewrite String.compare_antisym in Hf.
  destruct (String.compare b1 a1) eqn:H1; simpl in Hf; try discriminate.
  - apply String.compare_eq_iff in H1. subst b1. right. split; [reflexivity|].
    unfold String.leb in Hf. rewrite String.compare_antisym in Hf.
    destruct (String.compare b2 a2); simpl in Hf; try discriminate. reflexivity.
  - now left.
Qed.

Lemma insert_key_In (k x : string * string) (l : list (string * string)) :
  In x (insert_key k l) <-> x = k \/ In x l.
Proof.
  induction l as [|y l IH]; simpl.
  - intuition.
  - destruct (key_eqb k y) eqn:He.
    + apply key_eqb_eq in He. subst y. simpl. intuition.
    + destruct (key_leb k y); simpl; [intuition|].
      rewrite IH. intuition.
Qed.

Lemma insert_key_sorted (k : string * string) (l : list (string * string)) :
  StronglySorted key_lt l -> StronglySorted key_lt (insert_key k l).
Proof.
  induction 1 as [|y l Hl IH Hy]; simpl.
  - constructor; constructor.
  - destruct (key_eqb k y) eqn:He; [now constructor|].
    assert (k <> y) as Hne.
    { intros ->. rewrite key_eqb_refl in He. discriminate. }
    destruct (key_leb k y) eqn:Hle.
    + constructor; [now constructor|].
      constructor; [split; assumption|].
      eapply Forall_impl; [|exact Hy]. intros z Hz.
      eapply key_lt_trans; [split; eassumption | exact Hz].
    + constructor; [exact IH|].
      apply Forall_forall. intros z Hz. apply insert_key_In in Hz.
      destruct Hz as [->|Hz]; [now apply key_lt_total|].
      rewrite Forall_forall in Hy. now apply Hy.
Qed.

Lemma sorted_NoDup (l : list (string * string)) :
  StronglySorted key_lt l -> NoDup l.
Proof.
  induction 1 as [|y l Hl IH Hy]; constructor; [|assumption].
  intros Hin. rewrite Forall_forall in Hy.
  exact (key_lt_irrefl y (Hy y Hin)).
Qed.

Lemma group_keys_fold (rs : list (Z * row)) (acc : list (string * string)) :
  let keys := fold_left (fun acc r => match key_of r with
                                      | Some k => insert_key k acc
                                      | None => acc
                                      end) rs acc in
  (StronglySorted key_lt acc -> StronglySorted key_lt keys) /\
  (forall k, In k keys <-> In k acc \/ In (Some k) (map key_of rs)).
Proof.
  revert acc. induction rs as [|r rs IH]; intros acc; simpl.
  - split; [auto | intuition].
  - destruct (key_of r) as [k0|] eqn:Hk.
    + destruct (IH (insert_key k0 acc)) as [IH1 IH2]. split.
      * intros Hs. apply IH1. now apply insert_key_sorted.
      * intros k. rewrite IH2, insert_key_In. intuition congruence.
    + destruct (IH acc) as [IH1 IH2]. split; [exact IH1|].
      intros k. rewrite IH2. intuition congruence.
Qed.

Lemma group_keys_sorted (rs : list (Z * row)) :
  StronglySorted key_lt (group_keys rs).
Proof. apply (proj1 (group_keys_fold rs [])). constructor. Qed.

Lemma group_keys_NoDup (rs : list (Z * row)) : NoDup (group_keys rs).
Proof. apply sorted_NoDup, group_keys_sorted. Qed.

Lemma group_keys_In (rs : list (Z * row)) (k : string * string) :
  In k (group_keys rs) <-> In (Some k) (map key_of rs).
Proof.
  unfold group_keys. rewrite (proj2 (group_keys_fold rs [])). simpl. intuition.
Qed.

(* ------------------------------------------------------------------ *)
(** ** One group of the resampler *)
(* ------------------------------------------------------------------ *)

Lemma available_columns_In (df : DataFrame) (c : string) :
  In c (available_columns df) <-> In c value_columns /\ has_column c df = true.
Proof. unfold available_columns. apply filter_In. Qed.

Lemma available_columns_no_key (df : DataFrame) :
  mem "位置" (available_columns df) = false /\
  mem "楼层" (available_columns df) = false.
Proof.
  split.
  - destruct (mem "位置" (available_columns df)) eqn:Hm; [|reflexivity].
    apply mem_In, available_columns_In in Hm. destruct Hm as [Hin _].
    simpl in Hin. repeat (destruct Hin as [Hin|Hin]; [discriminate Hin|]).
    contradiction.
  - destruct (mem "楼层" (available_columns df)) eqn:Hm; [|reflexivity].
    apply mem_In, available_columns_In in Hm. destruct Hm as [Hin _].
    simpl in Hin. repeat (destruct Hin as [Hin|Hin]; [discriminate Hin|]).
    contradiction.
Qed.

Lemma in_bucket_falls_in_hour (t : Z) (r : Z * row) :
  t mod hour = 0 -> in_bucket t r = falls_in_hour t r.
Proof.
  intros Ht. unfold in_bucket, falls_in_hour.
  destruct (instant_of r) as [x|]; [|reflexivity].
  pose proof (floor_h_bucket x t Ht) as Hb.
  destruct (Z.eqb_spec (floor_h x) t) as [He|He].
  - apply Hb in He. symmetry. apply andb_true_iff. split; [lia|].
    apply Z.ltb_lt. lia.
  - symmetry. apply andb_false_iff.
    destruct (Z.leb_spec t x); [|now left]. right.
    apply Z.ltb_ge. destruct (Z.lt_ge_cases x (t + hour)); [|lia].
    exfalso. apply He, Hb. lia.
Qed.

(** The row that [reindex] puts at label [t] over the hourly means of a
    group: the means of the rows of the group in the hour at [t], whether
    or not [t] lies between the first and last hour of the group. *)
Lemma reindex_bucket (cols : list string) (rs : list (Z * row))
  (lo hi t : Z) (c : string) :
  series_min (instants rs) = Some lo ->
  series_max (instants rs) = Some hi ->
  mem c cols = true ->
  snd (match find (fun r => Z.eqb (fst r) t)
                  (map (fun b => (b, bucket_row cols rs b))
                       (date_range (floor_h lo) (floor_h hi))) with
       | Some r => (t, snd r)
       | None => (t, fun _ => NA)
       end) c
  = mean (map (fun r => snd r c) (filter (in_bucket t) rs)).
Proof.
  intros Hlo Hhi Hc.
  destruct (find _ _) as [r|] eqn:Hf.
  - apply find_some in Hf. destruct Hf as [Hin He].
    apply in_map_iff in Hin. destruct Hin as [b [<- _]].
    cbn [fst snd] in *. apply Z.eqb_eq in He. subst b.
    unfold bucket_row. now rewrite Hc.
  - cbn [snd].
    assert (filter (in_bucket t) rs = []) as ->; [|reflexivity].
    destruct (filter (in_bucket t) rs) as [|r0 l] eqn:Hflt; [reflexivity|].
    exfalso.
    assert (In r0 (filter (in_bucket t) rs)) as Hr0 by (rewrite Hflt; now left).
    apply filter_In in Hr0. destruct Hr0 as [Hr0 Hb].
    unfold in_bucket in Hb. destruct (instant_of r0) as [x|] eqn:Hx;
      [|discriminate].
    apply Z.eqb_eq in Hb.
    assert (In x (instants rs)) as Hxin by (apply instants_In; eauto).
    pose proof (series_min_le _ _ _ Hlo Hxin).
    pose proof (series_max_ge _ _ _ Hhi Hxin).
    assert (In t (date_range (floor_h lo) (floor_h hi))) as Ht.
    { rewrite <- Hb. apply date_range_floor_In. lia. }
    pose proof (find_none _ _ Hf (t, bucket_row cols rs t)) as Hnone.
    cbn [fst] in Hnone. rewrite Z.eqb_refl in Hnone.
    assert (true = false); [|discriminate]. apply Hnone.
    apply in_map_iff. exists t. split; [reflexivity | exact Ht].
Qed.

Lemma resample_group_ok (cols : list string) (idx : list Z)
  (rs : list (Z * row)) (k : string * string) :
  mem "位置" cols = false -> mem "楼层" cols = false ->
  instants (group_rows k rs) <> [] ->
  exists g, resample_group cols idx rs k = Ok g /\
            group_frame_ok cols idx rs k g.
Proof.
  intros Hloc Hfl Hne.
  destruct (series_min_some _ Hne) as [lo Hlo].
  destruct (series_max_some _ Hne) as [hi Hhi].
  unfold resample_group, resample_mean. rewrite Hlo, Hhi. cbn [bind].
  eexists. split; [reflexivity|].
  unfold group_frame_ok, setitem, reindex, has_column. cbn [columns rows].
  rewrite Hloc. rewrite mem_app, Hfl. cbn [mem existsb orb].
  split; [now rewrite <- app_assoc|].
  rewrite !map_map. cbn [fst snd].
  split.
  - clear. induction idx as [|t idx IH]; simpl; [reflexivity|].
    rewrite IH. f_equal. now destruct (find _ _).
  - apply Forall_forall. intros r Hr. apply in_map_iff in Hr.
    destruct Hr as [t [<- _]]. cbn [fst snd].
    split; [|split].
    + unfold upd. reflexivity.
    + unfold upd. reflexivity.
    + intros c Hc. unfold upd.
      destruct (String.eqb_spec c "楼层") as [->|_]; [congruence|].
      destruct (String.eqb_spec c "位置") as [->|_]; [congruence|].
      assert (fst (match find (fun r => Z.eqb (fst r) t)
                  (map (fun b => (b, bucket_row cols (group_rows k rs) b))
                       (date_range (floor_h lo) (floor_h hi))) with
                   | Some r => (t, snd r)
                   | None => (t, fun _ => NA)
                   end) = t) as Hfst by (now destruct (find _ _)).
      rewrite Hfst. now apply reindex_bucket.
Qed.

(* ------------------------------------------------------------------ *)
(** ** All groups together *)
(* ------------------------------------------------------------------ *)

Lemma mapM_ok {A B : Type} (f : A -> result B) (P : A -> B -> Prop)
  (l : list A) :
  (forall a, In a l -> exists b, f a = Ok b /\ P a b) ->
  exists bs, mapM f l = Ok bs /\ Forall2 P l bs.
Proof.
  induction l as [|a l IH]; intros Hall; simpl.
  - exists []. split; [reflexivity | constructor].
  - destruct (Hall a (or_introl eq_refl)) as [b [Hb Hp]].
    destruct IH as [bs [Hbs Hps]]; [intros x Hx; apply Hall; now right|].
    exists (b :: bs). rewrite Hb, Hbs. split; [reflexivity | now constructor].
Qed.

Lemma group_frame_key (cols : list string) (idx : list Z)
  (rs : list (Z * row)) (k : string * string) (g : DataFrame) :
  group_frame_ok cols idx rs k g ->
  Forall (fun r => key_of r = Some k)
         (map (fun r => (fst r, restrict (columns g) (snd r))) (rows g)).
Proof.
  intros [Hcols [_ Hrows]]. apply Forall_forall. intros r Hr.
  apply in_map_iff in Hr. destruct Hr as [r0 [<- Hr0]].
  rewrite Forall_forall in Hrows. destruct (Hrows r0 Hr0) as [Hl [Hf _]].
  unfold key_of, restrict. cbn [snd]. rewrite Hcols, !mem_app.
  cbn [mem existsb]. rewrite !String.eqb_refl, !orb_true_r. cbn [orb].
  rewrite Hl, Hf. now destruct k.
Qed.

Lemma group_rows_all (k : string * string) (rs : list (Z * row)) :
  Forall (fun r => key_of r = Some k) rs -> group_rows k rs = rs.
Proof.
  unfold group_rows. induction 1 as [|r rs Hr _ IH]; simpl; [reflexivity|].
  rewrite Hr, key_eqb_refl, IH. reflexivity.
Qed.

Lemma group_rows_none (k k' : string * string) (rs : list (Z * row)) :
  k' <> k -> Forall (fun r => key_of r = Some k') rs -> group_rows k rs = [].
Proof.
  intros Hne. unfold group_rows.
  induction 1 as [|r rs Hr _ IH]; simpl; [reflexivity|].
  rewrite Hr, IH. destruct (key_eqb k' k) eqn:He; [|reflexivity].
  apply key_eqb_eq in He. contradiction.
Qed.

Lemma group_rows_app (k : string * string) (l1 l2 : list (Z * row)) :
  group_rows k (l1 ++ l2) = group_rows k l1 ++ group_rows k l2.
Proof. unfold group_rows. apply filter_app. Qed.

Lemma rows_of_key_concat (cols : list string) (idx : list Z)
  (rs : list (Z * row)) (keys : list (string * string))
  (gs : list DataFrame) (k : string * string) :
  Forall2 (group_frame_ok cols idx rs) keys gs ->
  NoDup keys ->
  (In k keys ->
   exists g, In g gs /\ group_frame_ok cols idx rs k g /\
     group_rows k (concat_rows gs)
     = map (fun r => (fst r, restrict (columns g) (snd r))) (rows g)) /\
  (~ In k keys -> group_rows k (concat_rows gs) = []).
Proof.
  induction 1 as [|k0 g keys gs Hg _ IH]; intros Hnd.
  - split; [intros [] | reflexivity].
  - inversion Hnd as [|? ? Hk0 Hnd']; subst.
    destruct (IH Hnd') as [IHin IHout].
    unfold concat_rows. cbn [flat_map]. fold (concat_rows gs).
    rewrite group_rows_app.
    pose proof (group_frame_key _ _ _ _ _ Hg) as Hkey.
    split.
    + intros [->|Hin].
      * exists g. split; [now left|]. split; [assumption|].
        rewrite (group_rows_all _ _ Hkey), (IHout Hk0). apply app_nil_r.
      * destruct (IHin Hin) as [g' [Hg' [Hok Heq]]].
        exists g'. split; [now right|]. split; [assumption|].
        rewrite (group_rows_none k k0 _ ltac:(congruence) Hkey). exact Heq.
    + intros Hnot.
      rewrite (group_rows_none k k0 _ ltac:(intros ->; apply Hnot; now left) Hkey).
      apply IHout. intros Hin. apply Hnot. now right.
Qed.

(** The grouped branch of the resampler, as a whole. *)
Lemma resample_grouped (df : DataFrame) (min_time max_time : Z) :
  available_columns df <> [] ->
  has_column "datetime" df = true ->
  has_column "位置" df = true ->
  has_column "楼层" df = true ->
  series_min (instants (rows df)) = Some min_time ->
  series_max (instants (rows df)) = Some max_time ->
  group_keys (rows df) <> [] ->
  (forall k, In k (group_keys (rows df)) ->
             instants (group_rows k (rows df)) <> []) ->
  exists out gs,
    _resample_data df = Ok out /\
    rows out = concat_rows gs /\
    Forall2 (group_frame_ok (available_columns df)
               (timeline min_time max_time) (rows df))
            (group_keys (rows df)) gs.
Proof.
  intros Hav Hdt Hloc Hfl Hmin Hmax Hkeys Hinst.
  destruct (available_columns_no_key df) as [Hnl Hnf].
  destruct (mapM_ok
    (resample_group (available_columns df) (timeline min_time max_time) (rows df))
    (group_frame_ok (available_columns df) (timeline min_time max_time) (rows df))
    (group_keys (rows df))) as [gs [Hgs Hok]].
  { intros k Hk. apply resample_group_ok; auto. }
  unfold _resample_data.
  destruct (available_columns df) as [|c0 cols] eqn:Hcols; [congruence|].
  rewrite Hdt, Hloc, Hfl, Hmin, Hmax. cbn [negb andb].
  unfold timeline in Hgs. rewrite Hgs. cbn [bind].
  destruct gs as [|g gs].
  - inversion Hok as [Hk|]. congruence.
  - eexists. exists (g :: gs). split; [reflexivity|].
    split; [reflexivity | exact Hok].
Qed.

Lemma timeline_aligned (lo hi t : Z) : In t (timeline lo hi) -> t mod hour = 0.
Proof. apply date_range_aligned, floor_h_aligned. Qed.

Lemma timeline_length (lo hi : Z) :
  lo <= hi ->
  List.length (timeline lo hi)
  = Z.to_nat ((ceil_h hi - floor_h lo) / hour + 1) /\
  1 <= (ceil_h hi - floor_h lo) / hour + 1.
Proof.
  intros Hle. split; [apply date_range_length|].
  pose proof (floor_h_le lo). pose proof (ceil_h_ge hi).
  assert (0 <= (ceil_h hi - floor_h lo) / hour);
    [apply Z.div_pos; [lia | apply hour_pos] | lia].
Qed.

Lemma series_min_max_le (l : list Z) (lo hi : Z) :
  series_min l = Some lo -> series_max l = Some hi -> lo <= hi.
Proof.
  intros Hlo Hhi. destruct l as [|x l]; [discriminate|].
  pose proof (series_min_le _ _ x Hlo (or_introl eq_refl)).
  pose proof (series_max_ge _ _ x Hhi (or_introl eq_refl)). lia.
Qed.

(** The rows the resampler returns for one key: one per instant of the
    global timeline, each holding the means of the raw rows of that key in
    that hour. *)
Lemma resampled_key_rows (df : DataFrame) (min_time max_time : Z) :
  available_columns df <> [] ->
  has_column "datetime" df = true ->
  has_column "位置" df = true ->
  has_column "楼层" df = true ->
  series_min (instants (rows df)) = Some min_time ->
  series_max (instants (rows df)) = Some max_time ->
  (exists k, In (Some k) (map key_of (rows df))) ->
  (forall k, In (Some k) (map key_of (rows df)) ->
             instants (group_rows k (rows df)) <> []) ->
  exists out,
    _resample_data df = Ok out /\
    forall k, In (Some k) (map key_of (rows df)) ->
      map fst (rows_of_key k out) = timeline min_time max_time /\
      Forall (fun r => forall c, In c (available_columns df) ->
                snd r c = mean (hour_cells df k (fst r) c))
             (rows_of_key k out).
Proof.
  intros Hav Hdt Hloc Hfl Hmin Hmax [k0 Hk0] Hinst.
  destruct (resample_grouped df min_time max_time Hav Hdt Hloc Hfl Hmin Hmax)
    as [out [gs [Hout [Hrows Hok]]]].
  { intros He. apply group_keys_In in Hk0. rewrite He in Hk0. contradiction. }
  { intros k Hk. apply Hinst. now apply group_keys_In. }
  exists out. split; [exact Hout|].
  intros k Hk. apply group_keys_In in Hk.
  destruct (rows_of_key_concat _ _ _ _ _ k Hok (group_keys_NoDup _))
    as [Hin _].
  destruct (Hin Hk) as [g [_ [[Hcols [Hidx Hcells]] Heq]]].
  unfold rows_of_key. rewrite Hrows, Heq. split.
  - rewrite map_map. cbn [fst]. exact Hidx.
  - apply Forall_forall. intros r Hr. apply in_map_iff in Hr.
    destruct Hr as [r0 [<- Hr0]]. cbn [fst snd]. intros c Hc.
    rewrite Forall_forall in Hcells. destruct (Hcells r0 Hr0) as [_ [_ Hmean]].
    apply mem_In in Hc. unfold restrict.
    rewrite Hcols, mem_app, Hc. cbn [orb]. rewrite (Hmean c Hc).
    unfold hour_cells. do 2 f_equal. apply filter_ext_in. intros r1 _.
    apply in_bucket_falls_in_hour.
    apply (timeline_aligned min_time max_time). rewrite <- Hidx.
    apply in_map. exact Hr0.
Qed.

Lemma mean_NA (l : list cell) : mean l = NA <-> numbers l = [].
Proof.
  unfold mean. destruct (numbers l); split; try reflexivity; discriminate.
Qed.

Lemma mean_Num (l : list cell) (q : Q) :
  mean l = Num q ->
  numbers l <> [] /\
  (q == Qsum (numbers l) / inject_Z (Z.of_nat (List.length (numbers l))))%Q.
Proof.
  unfold mean. destruct (numbers l) as [|x xs]; [discriminate|].
  intros Heq. split; [discriminate|].
  assert (q = Qred (Qsum (x :: xs)
                    / inject_Z (Z.of_nat (List.length (x :: xs))))) as ->
    by congruence.
  apply Qred_correct.
Qed.

(** C9.  A table with none of the four measurement columns comes back
    from the resampler as it went in: same columns, same rows, same
    labels; nothing is bucketed, grouped or reindexed. *)
Theorem no_measurement_passthrough (df : DataFrame) :
  (forall c, In c value_columns -> has_column c df = false) ->
  _resample_data df = Ok df.
Proof.
  intros Hnone. unfold _resample_data.
  assert (available_columns df = []) as ->; [|reflexivity].
  unfold available_columns.
  destruct (filter _ value_columns) as [|c l] eqn:Hf; [reflexivity|].
  assert (In c (filter (fun col => has_column col df) value_columns)) as Hin
    by (rewrite Hf; now left).
  apply filter_In in Hin. destruct Hin as [Hin Hc].
  rewrite (Hnone c Hin) in Hc. discriminate.
Qed.

Lemma no_measurement_passthrough_witness :
  _resample_data sample_no_measurement = Ok sample_no_measurement.
Proof.
  apply no_measurement_passthrough.
  intros c Hc. simpl in Hc.
  repeat (destruct Hc as [<-|Hc]; [reflexivity|]). contradiction.
Defined.

(** C1 (as amended).  Take a table with a datetime column, both key
    columns and at least one measurement column, in which some row has a
    non-missing instant, some row carries a key, and every key present has
    a row with a non-missing instant.  Then the resampler returns a table
    that holds, for every (location, floor) pair present in the input,
    exactly one row per instant of the global hourly timeline from
    floor(min) to ceil(max), in timeline order; so every key's series has
    the same length, the number of whole hours between floor(min) and
    ceil(max) plus 1, and in an hour without any row of the key every
    measurement is missing. *)
Theorem reindexing_completeness (df : DataFrame) (min_time max_time : Z) :
  available_columns df <> [] ->
  has_column "datetime" df = true ->
  has_column "位置" df = true ->
  has_column "楼层" df = true ->
  series_min (instants (rows df)) = Some min_time ->
  series_max (instants (rows df)) = Some max_time ->
  (exists k, In (Some k) (map key_of (rows df))) ->
  (forall k, In (Some k) (map key_of (rows df)) ->
             instants (group_rows k (rows df)) <> []) ->
  one_row_per_timeline_instant df /\
  forall out, _resample_data df = Ok out ->
    forall location floor,
      In (Some (location, floor)) (map key_of (rows df)) ->
      let key_rows := rows_of_key (location, floor) out in
      List.length key_rows
        = Z.to_nat ((ceil_h max_time - floor_h min_time) / hour + 1) /\
      1 <= (ceil_h max_time - floor_h min_time) / hour + 1 /\
      NoDup (map fst key_rows) /\
      Forall (fun r => forall c,
                In c (available_columns df) ->
                filter (falls_in_hour (fst r))
                       (group_rows (location, floor) (rows df)) = [] ->
                snd r c = NA)
             key_rows.
Proof.
  intros Hav Hdt Hloc Hfl Hmin Hmax Hkey Hinst.
  destruct (resampled_key_rows df min_time max_time
              Hav Hdt Hloc Hfl Hmin Hmax Hkey Hinst) as [out [Hout Hrows]].
  split.
  - exists out, min_time, max_time. repeat split; try assumption.
    intros location floor Hk. apply (Hrows _ Hk).
  - intros out' Hout' location floor Hk. rewrite Hout in Hout'.
    injection Hout' as <-. cbv zeta.
    destruct (Hrows _ Hk) as [Hidx Hcells].
    destruct (timeline_length min_time max_time
                (series_min_max_le _ _ _ Hmin Hmax)) as [Hlen Hpos].
    split; [|split; [|split]].
    + rewrite <- Hlen, <- Hidx. now rewrite length_map.
    + exact Hpos.
    + rewrite Hidx. apply date_range_NoDup.
    + eapply Forall_impl; [|exact Hcells]. intros r Hr c Hc Hempty.
      rewrite (Hr c Hc). unfold hour_cells. rewrite Hempty. reflexivity.
Qed.

Lemma reindexing_completeness_witness :
  map fst (rows_of_key ("L2", "2") sample_hourly)
    = [ eight; eight + hour; eight + 2 * hour; eight + 3 * hour;
        eight + 4 * hour ] /\
  List.length (rows_of_key ("L1", "1") sample_hourly) = 5%nat.
Proof.
  destruct (reindexing_completeness sample_readings eight (eight + 210 * minute))
    as [[out [lo [hi [Hout [Hlo [Hhi Hrows]]]]]] Hlen].
  - discriminate.
  - reflexivity.
  - reflexivity.
  - reflexivity.
  - reflexivity.
  - reflexivity.
  - exists ("L1", "1"). simpl. tauto.
  - intros k Hk. simpl in Hk.
    repeat (destruct Hk as [Hk|Hk]; [injection Hk as <-; discriminate|]).
    contradiction.
  - assert (Heq : _resample_data sample_readings = Ok sample_hourly)
      by (vm_compute; reflexivity).
    rewrite Heq in Hout. injection Hout as <-.
    vm_compute in Hlo. injection Hlo as <-.
    vm_compute in Hhi. injection Hhi as <-.
    split.
    + rewrite (Hrows "L2" "2"); [vm_compute; reflexivity | simpl; tauto].
    + apply (Hlen sample_hourly Heq "L1" "1"). simpl. tauto.
Defined.

(** C1 as stated fails: a table with all the columns whose only row has
    no instant has a key present, yet the resampler stops with the error
    of [date_range] and returns no table. *)
Lemma reindexing_completeness_counterexample :
  has_column "datetime" sample_no_instant = true /\
  has_column "位置" sample_no_instant = true /\
  has_column "楼层" sample_no_instant = true /\
  available_columns sample_no_instant <> [] /\
  In (Some ("L1", "1")) (map key_of (rows sample_no_instant)) /\
  _resample_data sample_no_instant = Err DateRangeNaT /\
  ~ one_row_per_timeline_instant sample_no_instant.
Proof.
  repeat (split; [first [reflexivity | discriminate | simpl; tauto]|]).
  intros [out [lo [hi [Hout _]]]]. vm_compute in Hout. discriminate Hout.
Qed.

(** C4.  In the resampled table, the cell of every key, timeline hour and
    measurement column is the mean of the raw cells of that key and
    column whose instants fall in that hour: the arithmetic mean of the
    non-missing ones, and missing exactly when none of them holds a
    value.  Three readings 10, 20 and 30 give exactly 20. *)
Theorem mean_correctness (df : DataFrame) (min_time max_time : Z) :
  available_columns df <> [] ->
  has_column "datetime" df = true ->
  has_column "位置" df = true ->
  has_column "楼层" df = true ->
  series_min (instants (rows df)) = Some min_time ->
  series_max (instants (rows df)) = Some max_time ->
  (exists k, In (Some k) (map key_of (rows df))) ->
  (forall k, In (Some k) (map key_of (rows df)) ->
             instants (group_rows k (rows df)) <> []) ->
  (exists out,
     _resample_data df = Ok out /\
     forall location floor t r c,
       In (Some (location, floor)) (map key_of (rows df)) ->
       In (t, r) (rows_of_key (location, floor) out) ->
       In c (available_columns df) ->
       r c = mean (hour_cells df (location, floor) t c)) /\
  (forall l, mean l = NA <-> numbers l = []) /\
  (forall l q, mean l = Num q ->
     numbers l <> [] /\
     (q == Qsum (numbers l) / inject_Z (Z.of_nat (List.length (numbers l))))%Q) /\
  (forall l, exists q, mean l = NA \/ mean l = Num q) /\
  mean [Num (10 # 1); Num (20 # 1); Num (30 # 1)] = Num (20 # 1).
Proof.
  intros Hav Hdt Hloc Hfl Hmin Hmax Hkey Hinst.
  destruct (resampled_key_rows df min_time max_time
              Hav Hdt Hloc Hfl Hmin Hmax Hkey Hinst) as [out [Hout Hrows]].
  split; [|split; [|split; [|split]]].
  - exists out. split; [exact Hout|].
    intros location floor t r c Hk Hr Hc.
    destruct (Hrows _ Hk) as [_ Hcells].
    rewrite Forall_forall in Hcells. exact (Hcells (t, r) Hr c Hc).
  - apply mean_NA.
  - apply mean_Num.
  - intros l. unfold mean. destruct (numbers l) as [|x xs].
    + exists (0 # 1)%Q. now left.
    + eexists. right. reflexivity.
  - reflexivity.
Qed.

Lemma mean_correctness_witness :
  exists r,
    In (eight, r) (rows_of_key ("L1", "1") sample_hourly) /\
    r "室温温度(℃)" = Num (20 # 1).
Proof.
  destruct (mean_correctness sample_readings eight (eight + 210 * minute))
    as [[out [Hout Hcell]] _].
  - discriminate.
  - reflexivity.
  - reflexivity.
  - reflexivity.
  - reflexivity.
  - reflexivity.
  - exists ("L1", "1"). simpl. tauto.
  - intros k Hk. simpl in Hk.
    repeat (destruct Hk as [Hk|Hk]; [injection Hk as <-; discriminate|]).
    contradiction.
  - assert (Heq : _resample_data sample_readings = Ok sample_hourly)
      by (vm_compute; reflexivity).
    rewrite Heq in Hout. injection Hout as <-.
    exists (snd (hd (0, fun _ => NA) (rows_of_key ("L1", "1") sample_hourly))).
    split; [left; vm_compute; reflexivity|].
    rewrite (Hcell "L1" "1" eight _ "室温温度(℃)");
      [vm_compute; reflexivity | simpl; tauto
      | left; vm_compute; reflexivity | simpl; tauto].
Defined.

(* ------------------------------------------------------------------ *)
(** ** Sorting by instant *)
(* ------------------------------------------------------------------ *)

Lemma positions_cons (f : Z * row -> bool) (r : Z * row) (rs : list (Z * row)) :
  positions f (r :: rs)
  = (if f r then [0%nat] else []) ++ map S (positions f rs).
Proof.
  unfold positions. cbn [List.length]. rewrite <- cons_seq, <- seq_shift.
  cbn [filter nth_error]. 
  assert (filter (fun i => match nth_error (r :: rs) i with
                           | Some r0 => f r0
                           | None => false
                           end) (map S (seq 0 (List.length rs)))
          = map S (filter (fun i => match nth_error rs i with
                                    | Some r0 => f r0
                                    | None => false
                                    end) (seq 0 (List.length rs)))) as ->.
  { induction (seq 0 (List.length rs)) as [|i l IH]; [reflexivity|].
    cbn [map filter nth_error]. rewrite IH.
    now destruct (nth_error rs i) as [r0|]; [destruct (f r0)|]. }
  now destruct (f r).
Qed.

Lemma take_app (rs : list (Z * row)) (l1 l2 : list nat) :
  take rs (l1 ++ l2) = take rs l1 ++ take rs l2.
Proof. unfold take. apply flat_map_app. Qed.

Lemma take_map_S (r : Z * row) (rs : list (Z * row)) (l : list nat) :
  take (r :: rs) (map S l) = take rs l.
Proof.
  unfold take. induction l as [|i l IH]; [reflexivity|].
  cbn [map flat_map nth_error]. now rewrite IH.
Qed.

Lemma take_positions (f : Z * row -> bool) (rs : list (Z * row)) :
  take rs (positions f rs) = filter f rs.
Proof.
  induction rs as [|r rs IH]; [reflexivity|].
  rewrite positions_cons, take_app, take_map_S, IH. cbn [filter].
  now destruct (f r).
Qed.

Lemma take_Permutation (rs : list (Z * row)) (l1 l2 : list nat) :
  Permutation l1 l2 -> Permutation (take rs l1) (take rs l2).
Proof.
  unfold take. induction 1; cbn [flat_map].
  - constructor.
  - now apply Permutation_app_head.
  - rewrite !app_assoc. apply Permutation_app_tail, Permutation_app_comm.
  - eapply Permutation_trans; eassumption.
Qed.

Lemma filter_split_Permutation {A : Type} (f : A -> bool) (l : list A) :
  Permutation (filter f l ++ filter (fun x => negb (f x)) l) l.
Proof.
  induction l as [|a l IH]; [constructor|]. cbn [filter].
  destruct (f a); cbn [negb app].
  - now constructor.
  - apply Permutation_sym, Permutation_cons_app, Permutation_sym, IH.
Qed.

Lemma instants_filter (rs : list (Z * row)) :
  instants rs = map (fun r => match instant_of r with
                              | Some t => t
                              | None => 0
                              end) (filter has_instant rs).
Proof.
  unfold instants, has_instant. induction rs as [|r rs IH]; [reflexivity|].
  cbn [flat_map filter]. destruct (instant_of r) eqn:E.
  - cbn [app map]. rewrite E. f_equal. exact IH.
  - cbn [app]. exact IH.
Qed.

Lemma positions_length (rs : list (Z * row)) :
  List.length (positions has_instant rs) = List.length (instants rs).
Proof.
  rewrite instants_filter, length_map, <- take_positions.
  induction rs as [|r rs IH]; [reflexivity|].
  rewrite positions_cons, take_app, take_map_S, !length_app, length_map, IH.
  unfold has_instant. now destruct (instant_of r).
Qed.

Lemma nth_map_S (l : list nat) (i : nat) :
  (i < List.length l)%nat -> nth i (map S l) 0%nat = S (nth i l 0%nat).
Proof.
  intros Hi. rewrite (nth_indep _ 0%nat (S 0%nat)); [apply map_nth|].
  now rewrite length_map.
Qed.

(** The row at the i-th valid position carries the i-th instant. *)
Lemma take_nth_valid (rs : list (Z * row)) (i : nat) :
  (i < List.length (instants rs))%nat ->
  exists r, take rs [nth i (positions has_instant rs) 0%nat] = [r] /\
            instant_of r = Some (nth i (instants rs) 0).
Proof.
  revert i. induction rs as [|r rs IH]; intros i Hi; [simpl in Hi; lia|].
  rewrite positions_cons.
  assert (Hshift : forall j, (j < List.length (instants rs))%nat ->
            exists r', take (r :: rs)
                         [nth j (map S (positions has_instant rs)) 0%nat] = [r'] /\
                       instant_of r' = Some (nth j (instants rs) 0)).
  { intros j Hj. destruct (IH j Hj) as [r' [Hr' Hi']].
    exists r'. split; [|exact Hi'].
    rewrite nth_map_S by (now rewrite positions_length).
    rewrite <- Hr'. exact (take_map_S r rs [nth j (positions has_instant rs) 0%nat]). }
  unfold instants in Hi |- *. cbn [flat_map] in Hi |- *. fold (instants rs) in *.
  unfold has_instant at 1. destruct (instant_of r) as [t|] eqn:Ht.
  - cbn [app] in *. destruct i as [|i].
    + exists r. split; [reflexivity | exact Ht].
    + cbn [nth]. cbn [List.length] in Hi. apply Hshift. lia.
  - cbn [app] in *. apply Hshift. exact Hi.
Qed.

Lemma map_nth_seq {A : Type} (l : list A) (d : A) :
  map (fun i => nth i l d) (seq 0 (List.length l)) = l.
Proof.
  induction l as [|a l IH]; [reflexivity|].
  cbn [List.length seq map nth]. f_equal.
  rewrite <- seq_shift, map_map. exact IH.
Qed.

Lemma filter_idem {A : Type} (f : A -> bool) (l : list A) :
  filter f (filter f l) = filter f l.
Proof.
  induction l as [|a l IH]; [reflexivity|]. cbn [filter].
  destruct (f a) eqn:E; [|exact IH]. cbn [filter]. now rewrite E, IH.
Qed.

Lemma argsort_indices (values : list Z) (indexer : list nat) :
  Permutation indexer (seq 0 (List.length values)) ->
  Forall (fun i => (i < List.length values)%nat) indexer.
Proof.
  intros Hp. apply Forall_forall. intros i Hi.
  apply (Permutation_in _ Hp) in Hi. apply in_seq in Hi. lia.
Qed.

(** The rows [sort_values] puts first: one row with an instant per index,
    with the instants the argsort looked at. *)
Lemma take_sorted_part (rs : list (Z * row)) (indexer : list nat) :
  Forall (fun i => (i < List.length (instants rs))%nat) indexer ->
  let body := take rs (map (fun i => nth i (positions has_instant rs) 0%nat)
                           indexer) in
  map instant_of body
  = map (fun i => Some (nth i (instants rs) 0)) indexer.
Proof.
  cbv zeta. induction 1 as [|i l Hi _ IH]; [reflexivity|].
  cbn [map]. change (?a :: ?l) with ([a] ++ l) at 1.
  rewrite take_app, map_app, IH.
  destruct (take_nth_valid rs i Hi) as [r [-> Hr]].
  cbn [map app]. now rewrite Hr.
Qed.

Lemma ascending_app (body tail : list (Z * row)) (ts : list Z) :
  map instant_of body = map Some ts ->
  StronglySorted Z.le ts ->
  Forall (fun r => instant_of r = None) tail ->
  ascending (body ++ tail).
Proof.
  intros Hb Hs Ht. revert body Hb.
  induction Hs as [|t ts Hs IH Hle]; intros body Hb.
  - destruct body; [|discriminate]. cbn [app].
    clear Hb. induction Ht as [|r tail Hr Ht IHt]; constructor; auto.
    intros t Hsome. congruence.
  - destruct body as [|r body]; [discriminate|].
    cbn [map] in Hb. injection Hb as Hr Hb. cbn [app].
    constructor; [now apply IH| |congruence].
    intros t0 Ht0. assert (t0 = t) as -> by congruence.
    apply Forall_app. split.
    + clear IH Hs. revert ts Hb Hle.
      induction body as [|r' body IHb]; intros ts Hb Hle; [constructor|].
      destruct ts as [|t' ts]; [discriminate|].
      cbn [map] in Hb. injection Hb as Hr' Hb.
      inversion Hle as [|? ? Hle1 Hle2]; subst.
      constructor; [intros x Hx; congruence | exact (IHb ts Hb Hle2)].
    + eapply Forall_impl; [|exact Ht]. intros r' Hn x Hx. congruence.
Qed.

(** C8 (as amended).  After the sort the table has the rows it had, each
    once; the rows with an instant come first, in ascending order of their
    instants, and the rows without an instant follow in their original
    order.  Nothing is promised on the order of rows with equal
    instants. *)
Theorem sort_by_instant (df : DataFrame) (indexer : list nat) :
  argsort_result (instants (rows df)) indexer ->
  let out := sort_values_datetime df indexer in
  columns out = columns df /\
  Permutation (rows df) (rows out) /\
  ascending (rows out) /\
  filter (fun r => negb (has_instant r)) (rows out)
  = filter (fun r => negb (has_instant r)) (rows df).
Proof.
  intros [Hperm Hsorted]. cbv zeta. unfold sort_values_datetime.
  cbn [columns rows]. rewrite take_app, take_positions.
  pose proof (argsort_indices _ _ Hperm) as Hidx.
  pose proof (take_sorted_part (rows df) indexer Hidx) as Hbody.
  cbv zeta in Hbody.
  set (body := take (rows df)
                 (map (fun i => nth i (positions has_instant (rows df)) 0%nat)
                      indexer)) in *.
  assert (Hpb : Permutation body (filter has_instant (rows df))).
  { unfold body. rewrite <- (take_positions has_instant (rows df)).
    apply take_Permutation.
    eapply Permutation_trans; [apply Permutation_map; exact Hperm|].
    rewrite <- positions_length, map_nth_seq.
    apply Permutation_refl. }
  split; [reflexivity|]. split; [|split].
  - apply Permutation_sym.
    eapply Permutation_trans; [|apply (filter_split_Permutation has_instant)].
    now apply Permutation_app_tail.
  - apply (ascending_app body _ (map (fun i => nth i (instants (rows df)) 0) indexer)).
    + rewrite Hbody, map_map. reflexivity.
    + exact Hsorted.
    + apply Forall_forall. intros r Hr. apply filter_In in Hr.
      destruct Hr as [_ Hr]. unfold has_instant in Hr.
      now destruct (instant_of r).
  - rewrite filter_app.
    assert (filter (fun r => negb (has_instant r)) body = []) as ->.
    { apply (Permutation_sym) in Hpb.
      destruct (filter (fun r => negb (has_instant r)) body) as [|r l] eqn:Hf;
        [reflexivity|].
      assert (In r (filter (fun r => negb (has_instant r)) body)) as Hin
        by (rewrite Hf; now left).
      apply filter_In in Hin. destruct Hin as [Hin Hneg].
      apply (Permutation_in _ (Permutation_sym Hpb)) in Hin.
      apply filter_In in Hin. destruct Hin as [_ Hpos].
      rewrite Hpos in Hneg. discriminate. }
    cbn [app]. apply filter_idem.
Qed.

Lemma sample_ties_argsort :
  argsort_result (instants (rows sample_ties)) sample_ties_indexer.
Proof.
  split.
  - change (seq 0 (List.length (instants (rows sample_ties))))
      with (0%nat :: seq 1 15 ++ [16%nat; 17%nat]).
    unfold sample_ties_indexer. apply perm_skip, Permutation_app_tail.
    apply Permutation_sym, Permutation_rev.
  - assert (map (fun i => nth i (instants (rows sample_ties)) 0)
                sample_ties_indexer = repeat eight 18) as ->
      by (vm_compute; reflexivity).
    generalize 18%nat. intros n. induction n as [|n IH]; cbn [repeat].
    + constructor.
    + constructor; [exact IH|]. apply Forall_forall. intros x Hx.
      apply repeat_spec in Hx. subst x. apply Z.le_refl.
Qed.

Lemma sort_by_instant_witness :
  Permutation (rows sample_ties)
              (rows (sort_values_datetime sample_ties sample_ties_indexer)) /\
  ascending (rows (sort_values_datetime sample_ties sample_ties_indexer)).
Proof.
  destruct (sort_by_instant sample_ties sample_ties_indexer)
    as [_ [Hperm [Hasc _]]].
  - split.
    + change (seq 0 (List.length (instants (rows sample_ties))))
        with (0%nat :: seq 1 15 ++ [16%nat; 17%nat]).
      unfold sample_ties_indexer. apply perm_skip, Permutation_app_tail.
      apply Permutation_sym, Permutation_rev.
    + assert (map (fun i => nth i (instants (rows sample_ties)) 0)
                  sample_ties_indexer = repeat eight 18) as ->
        by (vm_compute; reflexivity).
      generalize 18%nat. intros n. induction n as [|n IH]; cbn [repeat].
      * constructor.
      * constructor; [exact IH|]. apply Forall_forall. intros x Hx.
        apply repeat_spec in Hx. subst x. apply Z.le_refl.
  - split; assumption.
Defined.

(** C8 as stated fails: the eighteen readings share one instant, the
    index permutation is an admissible result of the argsort, and the
    sorted table does not list them in their original order. *)
Lemma sort_by_instant_counterexample :
  argsort_result (instants (rows sample_ties)) sample_ties_indexer /\
  ~ ties_keep_order
      (rows sample_ties)
      (rows (sort_values_datetime sample_ties sample_ties_indexer)).
Proof.
  split; [exact sample_ties_argsort|].
  intros Hties. specialize (Hties eight).
  apply (f_equal (map fst)) in Hties. vm_compute in Hties.
  discriminate Hties.
Qed.

(* ------------------------------------------------------------------ *)
(** ** The rolling window *)
(* ------------------------------------------------------------------ *)

Lemma firstn_map_nth {A : Type} (l : list A) (d : A) (e : nat) :
  (e <= List.length l)%nat ->
  firstn e l = map (fun j => nth j l d) (seq 0 e).
Proof.
  revert e. induction l as [|a l IH]; intros e He.
  - simpl in He. assert (e = 0%nat) as -> by lia. reflexivity.
  - destruct e as [|e]; [reflexivity|].
    cbn [firstn seq map nth]. f_equal.
    rewrite <- seq_shift, map_map. apply IH. simpl in He. lia.
Qed.

Lemma slice_map_nth {A : Type} (l : list A) (d : A) (s e : nat) :
  (e <= List.length l)%nat ->
  firstn (e - s) (skipn s l) = map (fun j => nth j l d) (seq s (e - s)).
Proof.
  revert l e. induction s as [|s IH]; intros l e He.
  - rewrite Nat.sub_0_r. cbn [skipn]. now apply firstn_map_nth.
  - destruct l as [|a l].
    + simpl in He. assert (e = 0%nat) as -> by lia. reflexivity.
    + cbn [skipn]. destruct e as [|e]; [reflexivity|].
      cbn [Nat.sub]. rewrite (IH l e ltac:(simpl in He; lia)).
      rewrite <- seq_shift, map_map. reflexivity.
Qed.

Lemma filter_range_seq (s e a n : nat) :
  filter (fun j => (s <=? j)%nat && (j <? e)%nat) (seq a n)
  = seq (Nat.max a s) (Nat.min (a + n) e - Nat.max a s).
Proof.
  revert a. induction n as [|n IH]; intros a.
  - cbn [seq filter]. replace (Nat.min (a + 0) e - Nat.max a s)%nat with 0%nat
      by lia. reflexivity.
  - cbn [seq filter]. rewrite IH.
    destruct (Nat.leb_spec s a); destruct (Nat.ltb_spec a e); cbn [andb].
    + replace (Nat.max a s) with a by lia.
      replace (Nat.min (a + S n) e - a)%nat
        with (S (Nat.min (S a + n) e - Nat.max (S a) s)) by lia.
      cbn [seq]. f_equal. f_equal. lia.
    + replace (Nat.min (S a + n) e - Nat.max (S a) s)%nat with 0%nat by lia.
      replace (Nat.min (a + S n) e - Nat.max a s)%nat with 0%nat by lia.
      reflexivity.
    + f_equal; lia.
    + f_equal; lia.
Qed.

Lemma flat_map_filter {A B : Type} (p : A -> bool) (f : A -> B) (l : list A) :
  flat_map (fun x => if p x then [f x] else []) l = map f (filter p l).
Proof.
  induction l as [|a l IH]; [reflexivity|]. cbn [flat_map filter].
  destruct (p a); cbn [app map]; now rewrite IH.
Qed.

(** The window the code cuts out of the series is the run of positions
    from [i - w // 2] to [i + (w - 1) // 2] that lie in the series. *)
Lemma window_cells_index (w : Z) (data : series) (i : nat) :
  1 <= w -> (i < List.length data)%nat ->
  window_cells w data i = index_window_cells w data i.
Proof.
  intros Hw Hi. unfold window_cells, window_bounds, index_window_cells, clip.
  set (n := List.length data).
  set (stop := Nat.min (Z.to_nat (Z.of_nat i + 1 + (w - 1) / 2)) n).
  set (start := Nat.min (Z.to_nat (Z.of_nat i + 1 + (w - 1) / 2 - w)) n).
  rewrite (slice_map_nth data None start stop) by (unfold stop, n; lia).
  rewrite (flat_map_filter
             (fun j => (Z.of_nat i - w / 2 <=? Z.of_nat j)
                       && (Z.of_nat j <=? Z.of_nat i + (w - 1) / 2))
             (fun j => nth j data None)).
  f_equal.
  rewrite (filter_ext_in _ (fun j => (start <=? j)%nat && (j <? stop)%nat)).
  - rewrite filter_range_seq. f_equal; unfold start, stop; lia.
  - intros j Hj. apply in_seq in Hj. fold n in Hj.
    assert (Hoff : (w - 1) / 2 + 1 - w = - (w / 2)).
    { pose proof (Z.div_mod w 2 ltac:(lia)).
      pose proof (Z.mod_pos_bound w 2 ltac:(lia)).
      pose proof (Z.div_mod (w - 1) 2 ltac:(lia)).
      pose proof (Z.mod_pos_bound (w - 1) 2 ltac:(lia)). lia. }
    assert (Hpos : 0 <= (w - 1) / 2) by (apply Z.div_pos; lia).
    f_equal.
    + destruct (Z.leb_spec (Z.of_nat i - w / 2) (Z.of_nat j));
        destruct (Nat.leb_spec start j); try reflexivity;
        unfold start in *; lia.
    + destruct (Z.leb_spec (Z.of_nat j) (Z.of_nat i + (w - 1) / 2));
        destruct (Nat.ltb_spec j stop); try reflexivity;
        unfold stop in *; lia.
Qed.

Lemma window_cells_empty (w : Z) (data : series) (i : nat) :
  w <= 0 -> window_cells w data i = [].
Proof.
  intros Hw. unfold window_cells, window_bounds, clip.
  replace (Nat.min (Z.to_nat (Z.of_nat i + 1 + (w - 1) / 2)) (List.length data)
           - Nat.min (Z.to_nat (Z.of_nat i + 1 + (w - 1) / 2 - w))
                     (List.length data))%nat with 0%nat by lia.
  reflexivity.
Qed.

Lemma odd_window_symmetric (w : Z) (data : series) (i : nat) :
  Z.odd w = true -> spec_window_cells w data i = index_window_cells w data i.
Proof.
  intros Hodd. unfold spec_window_cells, index_window_cells.
  assert ((w - 1) / 2 = w / 2) as ->; [|reflexivity].
  rewrite Zodd_bool_iff in Hodd. apply Zodd_ex in Hodd.
  destruct Hodd as [m ->].
  replace (2 * m + 1 - 1) with (m * 2) by lia.
  rewrite Z.div_mul by lia.
  apply Z.div_unique with (r := 1); lia.
Qed.

(* ------------------------------------------------------------------ *)
(** ** Series arithmetic *)
(* ------------------------------------------------------------------ *)

Lemma rolling_length (f : series -> option R) (w : Z) (data : series) :
  List.length (rolling f w data) = List.length data.
Proof. unfold rolling. now rewrite length_map, length_seq. Qed.

Lemma rolling_nth (f : series -> option R) (w : Z) (data : series) (i : nat) :
  (i < List.length data)%nat ->
  nth i (rolling f w data) None = f (window_cells w data i).
Proof.
  intros Hi. unfold rolling.
  rewrite (nth_indep _ None (f (window_cells w data 0%nat)))
    by (now rewrite length_map, length_seq).
  rewrite (map_nth (fun i => f (window_cells w data i))).
  now rewrite seq_nth.
Qed.

Lemma zip_with_nth (f : R -> R -> R) (a b : series) (i : nat) :
  nth i (zip_with f a b) None = lift2 f (nth i a None) (nth i b None).
Proof.
  revert b i. induction a as [|x a IH]; intros b i.
  - cbn [zip_with]. now destruct i.
  - destruct b as [|y b].
    + cbn [zip_with]. destruct i; cbn [nth]; [now destruct x|].
      now destruct (nth i a None).
    + cbn [zip_with]. destruct i; cbn [nth]; [reflexivity | apply IH].
Qed.

Lemma zip_with_length (f : R -> R -> R) (a b : series) :
  List.length a = List.length b ->
  List.length (zip_with f a b) = List.length a.
Proof.
  revert b. induction a as [|x a IH]; intros [|y b] Hl; try discriminate;
    [reflexivity|]. cbn [zip_with List.length]. f_equal. apply IH.
  now injection Hl.
Qed.

Lemma scale_nth (g : R -> R) (a : series) (i : nat) :
  nth i (scale g a) None = option_map g (nth i a None).
Proof. unfold scale. exact (map_nth (option_map g) a None i). Qed.

Lemma scale_length (g : R -> R) (a : series) :
  List.length (scale g a) = List.length a.
Proof. unfold scale. apply length_map. Qed.

Lemma rolling_mean_at_cases (m : Z) (cells : series) :
  1 <= m ->
  rolling_mean_at m cells
  = if m <=? Z.of_nat (List.length (observed cells))
    then Some (Rmean (observed cells)) else None.
Proof.
  intros Hm. unfold rolling_mean_at.
  destruct (Z.leb_spec m (Z.of_nat (List.length (observed cells))));
    [|reflexivity].
  destruct (Z.ltb_spec 0 (Z.of_nat (List.length (observed cells))));
    [reflexivity | lia].
Qed.

Lemma rolling_std_at_cases (m : Z) (cells : series) :
  rolling_std_at m cells
  = if (m <=? Z.of_nat (List.length (observed cells)))
       && (2 <=? Z.of_nat (List.length (observed cells)))
    then Some (sqrt (Rvar (observed cells))) else None.
Proof.
  unfold rolling_std_at. f_equal. f_equal.
  destruct (Z.ltb_spec 1 (Z.of_nat (List.length (observed cells))));
    destruct (Z.leb_spec 2 (Z.of_nat (List.length (observed cells))));
    try reflexivity; lia.
Qed.

(** What the smoother returns on a valid window, position by position. *)
Lemma smooth_positions (norm_ppf : R -> R) (data : series) (w : Z) (c : R) :
  1 <= w ->
  exists smoothed lower upper,
    smooth_data_with_confidence norm_ppf data w c
      = Ok (smoothed, lower, upper) /\
    List.length smoothed = List.length data /\
    List.length lower = List.length data /\
    List.length upper = List.length data /\
    forall i, (i < List.length data)%nat ->
      let m := Z.max 1 (w / 2) in
      let z := norm_ppf (1 - (1 - c) / 2)%R in
      let margin :=
        option_map (fun x => (z * x)%R)
          (option_map (fun x => (x / sqrt (IZR w))%R)
             (rolling_std_at m (window_cells w data i))) in
      nth i smoothed None = rolling_mean_at m (window_cells w data i) /\
      nth i lower None
        = lift2 Rminus (rolling_mean_at m (window_cells w data i)) margin /\
      nth i upper None
        = lift2 Rplus (rolling_mean_at m (window_cells w data i)) margin.
Proof.
  intros Hw. unfold smooth_data_with_confidence.
  destruct (Z.ltb_spec w 1) as [Hlt|_]; [lia|].
  do 3 eexists. split; [reflexivity|].
  split; [apply rolling_length|].
  split; [rewrite zip_with_length;
          [apply rolling_length
          | now rewrite !scale_length, !rolling_length]|].
  split; [rewrite zip_with_length;
          [apply rolling_length
          | now rewrite !scale_length, !rolling_length]|].
  intros i Hi. cbv zeta.
  rewrite !zip_with_nth, !scale_nth, !rolling_nth by assumption.
  repeat split; reflexivity.
Qed.

(** C2 (as amended).  For a window size [w >= 1] the smoother returns
    three series of the length of the input.  At position [i], with the
    window running from [i - w // 2] to [i + (w - 1) // 2] (cut at the ends
    of the series; [w // 2] to each side exactly when [w] is odd), the
    smoothed value is the mean of the non-missing values of the window
    once there are at least [max(1, w // 2)] of them, and missing
    otherwise; the margin is [z] times (the sample standard deviation of
    those values divided by [sqrt w]), with [z] the quantile at
    [1 - (1 - c) / 2], and exists once there are in addition at least two
    values; lower and upper are the smoothed value minus and plus the
    margin, missing when the margin is. *)
Theorem smoothing_definition (norm_ppf : R -> R) (data : series) (w : Z)
  (c : R) :
  1 <= w ->
  exists smoothed lower upper,
    smooth_data_with_confidence norm_ppf data w c
      = Ok (smoothed, lower, upper) /\
    List.length smoothed = List.length data /\
    List.length lower = List.length data /\
    List.length upper = List.length data /\
    forall i, (i < List.length data)%nat ->
      let obs := observed (index_window_cells w data i) in
      let count := Z.of_nat (List.length obs) in
      let z := norm_ppf (1 - (1 - c) / 2)%R in
      let margin := (z * (sqrt (Rvar obs) / sqrt (IZR w)))%R in
      nth i smoothed None
        = (if Z.max 1 (w / 2) <=? count then Some (Rmean obs) else None) /\
      nth i lower None
        = (if (Z.max 1 (w / 2) <=? count) && (2 <=? count)
           then Some (Rmean obs - margin)%R else None) /\
      nth i upper None
        = (if (Z.max 1 (w / 2) <=? count) && (2 <=? count)
           then Some (Rmean obs + margin)%R else None) /\
      (Z.odd w = true ->
       index_window_cells w data i = spec_window_cells w data i).
Proof.
  intros Hw.
  destruct (smooth_positions norm_ppf data w c Hw)
    as [sm [lo [up [Hok [Hl1 [Hl2 [Hl3 Hpos]]]]]]].
  exists sm, lo, up. repeat (split; [assumption|]).
  intros i Hi. cbv zeta.
  destruct (Hpos i Hi) as [Hs [Hlo Hup]]. cbv zeta in Hlo, Hup.
  rewrite Hs, Hlo, Hup.
  rewrite (window_cells_index w data i Hw Hi).
  rewrite rolling_mean_at_cases by lia. rewrite rolling_std_at_cases.
  destruct (Z.max 1 (w / 2)
            <=? Z.of_nat (List.length (observed (index_window_cells w data i))));
    destruct (2 <=? Z.of_nat
                (List.length (observed (index_window_cells w data i))));
    cbn [andb option_map lift2];
    (split; [reflexivity|]); (split; [reflexivity|]);
    (split; [reflexivity|]);
    intros Hodd; symmetry; now apply odd_window_symmetric.
Qed.

Ltac series_compute :=
  cbv - [Rplus Rminus Rmult Rdiv Rinv Ropp IZR INR sqrt Rmean Rvar Rsum
         sample_ppf].

Ltac mean_compute :=
  unfold Rmean, Rsum; cbn [fold_right List.length INR]; lra.

Lemma smoothing_definition_witness :
  exists smoothed lower upper,
    smooth_data_with_confidence sample_ppf
      [Some 1%R; Some 2%R; Some 6%R] 3 (95 / 100)%R
      = Ok (smoothed, lower, upper) /\
    nth 1 smoothed None = Some 3%R /\
    nth 0 smoothed None = Some (3 / 2)%R.
Proof.
  destruct (smoothing_definition sample_ppf
              [Some 1%R; Some 2%R; Some 6%R] 3 (95 / 100)%R)
    as [sm [lo [up [Hok [_ [_ [_ Hpos]]]]]]]; [lia|].
  exists sm, lo, up. split; [exact Hok|]. split.
  - destruct (Hpos 1%nat) as [Hs _]; [simpl; lia|]. rewrite Hs.
    series_compute. f_equal. mean_compute.
  - destruct (Hpos 0%nat) as [Hs _]; [simpl; lia|]. rewrite Hs.
    series_compute. f_equal. mean_compute.
Defined.

(** C2 as stated fails for an even window: with [w = 2] the value at the
    first of two positions is that value itself, where a window reaching
    one position to each side would average both. *)
Lemma smoothing_definition_counterexample :
  exists smoothed lower upper,
    smooth_data_with_confidence sample_ppf [Some 1%R; Some 3%R] 2 (95 / 100)%R
      = Ok (smoothed, lower, upper) /\
    nth 0 smoothed None = Some 1%R /\
    rolling_mean_at (Z.max 1 (2 / 2))
      (spec_window_cells 2 [Some 1%R; Some 3%R] 0) = Some 2%R /\
    ~ smoothed_over_symmetric_window [Some 1%R; Some 3%R] 2 smoothed.
Proof.
  do 3 eexists. split; [reflexivity|].
  assert (H1 : nth 0
            (rolling (rolling_mean_at (Z.max 1 (2 / 2))) 2 [Some 1%R; Some 3%R])
            None = Some 1%R).
  { series_compute. f_equal. mean_compute. }
  assert (H2 : rolling_mean_at (Z.max 1 (2 / 2))
                 (spec_window_cells 2 [Some 1%R; Some 3%R] 0) = Some 2%R).
  { series_compute. f_equal. mean_compute. }
  split; [exact H1|]. split; [exact H2|].
  intros Hspec. specialize (Hspec 0%nat ltac:(simpl; lia)).
  rewrite H1, H2 in Hspec. injection Hspec as Hspec. lra.
Qed.

Lemma Rvar_nonneg_sqrt (l : list R) : (0 <= sqrt (Rvar l))%R.
Proof. apply sqrt_pos. Qed.

(** C3.  With a confidence level in [0, 1) (the quantile of the standard
    normal distribution is not negative from one half on), wherever the
    smoothed value and both bounds exist, the lower bound is at most the
    smoothed value, which is at most the upper bound. *)
Theorem smoothing_bounds_ordering (norm_ppf : R -> R) (data : series)
  (w : Z) (c : R) (smoothed lower upper : series) (i : nat) (s l u : R) :
  (forall p, (1 / 2 <= p < 1)%R -> (0 <= norm_ppf p)%R) ->
  (0 <= c < 1)%R ->
  smooth_data_with_confidence norm_ppf data w c
    = Ok (smoothed, lower, upper) ->
  nth i smoothed None = Some s ->
  nth i lower None = Some l ->
  nth i upper None = Some u ->
  (l <= s <= u)%R.
Proof.
  intros Hppf Hc Hok Hs Hl Hu.
  assert (Hw : 1 <= w).
  { unfold smooth_data_with_confidence in Hok.
    destruct (Z.ltb_spec w 1); [discriminate | assumption]. }
  assert (Hi : (i < List.length data)%nat).
  { destruct (Nat.lt_ge_cases i (List.length data)) as [|Hge]; [assumption|].
    destruct (smooth_positions norm_ppf data w c Hw)
      as [sm [lo [up [Hok' [Hl1 _]]]]].
    rewrite Hok in Hok'. injection Hok' as <- <- <-.
    rewrite nth_overflow in Hs by lia. discriminate. }
  destruct (smooth_positions norm_ppf data w c Hw)
    as [sm [lo [up [Hok' [_ [_ [_ Hpos]]]]]]].
  rewrite Hok in Hok'. injection Hok' as <- <- <-.
  destruct (Hpos i Hi) as [Hs' [Hl' Hu']]. cbv zeta in Hl', Hu'.
  rewrite Hs in Hs'. rewrite <- Hs' in Hl', Hu'.
  rewrite Hl in Hl'. rewrite Hu in Hu'.
  rewrite rolling_std_at_cases in Hl', Hu'.
  destruct ((Z.max 1 (w / 2)
             <=? Z.of_nat (List.length (observed (window_cells w data i))))
            && (2 <=? Z.of_nat
                  (List.length (observed (window_cells w data i)))));
    cbn [option_map lift2] in Hl', Hu'; [|discriminate].
  injection Hl' as ->. injection Hu' as ->.
  assert (Hz : (0 <= norm_ppf (1 - (1 - c) / 2))%R) by (apply Hppf; lra).
  assert (Hsd : (0 <= sqrt (Rvar (observed (window_cells w data i))))%R)
    by apply sqrt_pos.
  assert (Hn : (0 < sqrt (IZR w))%R).
  { apply sqrt_lt_R0. apply IZR_lt. lia. }
  assert (Hm : (0 <= norm_ppf (1 - (1 - c) / 2)
                    * (sqrt (Rvar (observed (window_cells w data i)))
                       / sqrt (IZR w)))%R).
  { apply Rmult_le_pos; [assumption|].
    apply Rmult_le_pos; [assumption|]. left. now apply Rinv_0_lt_compat. }
  lra.
Qed.

Lemma smoothing_bounds_ordering_witness :
  exists smoothed lower upper s l u,
    smooth_data_with_confidence sample_ppf
      [Some 1%R; Some 2%R; Some 6%R] 3 (95 / 100)%R
      = Ok (smoothed, lower, upper) /\
    nth 1 smoothed None = Some s /\
    nth 1 lower None = Some l /\
    nth 1 upper None = Some u /\
    (l <= s <= u)%R.
Proof.
  do 6 eexists.
  split; [reflexivity|]. split; [reflexivity|].
  split; [reflexivity|]. split; [reflexivity|].
  eapply (smoothing_bounds_ordering sample_ppf
            [Some 1%R; Some 2%R; Some 6%R] 3 (95 / 100)%R _ _ _ 1%nat).
  - intros p Hp. unfold sample_ppf. lra.
  - lra.
  - reflexivity.
  - reflexivity.
  - reflexivity.
  - reflexivity.
Defined.

(** C10.  With a window of at most 3, at a position of the series whose
    window holds exactly one non-missing value, the smoother returns that
    value as the smoothed value and no lower or upper bound. *)
Theorem single_observation_bounds_missing (norm_ppf : R -> R)
  (data : series) (w : Z) (c : R) (i : nat) (v : R) :
  w <= 3 ->
  (i < List.length data)%nat ->
  observed (window_cells w data i) = [v] ->
  Z.max 1 (w / 2) = 1 /\
  exists smoothed lower upper,
    smooth_data_with_confidence norm_ppf data w c
      = Ok (smoothed, lower, upper) /\
    nth i smoothed None = Some v /\
    nth i lower None = None /\
    nth i upper None = None.
Proof.
  intros Hw3 Hi Hobs.
  assert (Hw : 1 <= w).
  { destruct (Z.le_gt_cases 1 w) as [|Hlt]; [assumption|].
    rewrite window_cells_empty in Hobs by lia. discriminate. }
  assert (Hm : Z.max 1 (w / 2) = 1).
  { pose proof (Z.div_mod w 2 ltac:(lia)).
    pose proof (Z.mod_pos_bound w 2 ltac:(lia)). lia. }
  split; [exact Hm|].
  destruct (smooth_positions norm_ppf data w c Hw)
    as [sm [lo [up [Hok [_ [_ [_ Hpos]]]]]]].
  exists sm, lo, up. split; [exact Hok|].
  destruct (Hpos i Hi) as [Hs [Hl Hu]]. cbv zeta in Hl, Hu.
  rewrite Hs, Hl, Hu, Hm.
  unfold rolling_mean_at, rolling_std_at. rewrite Hobs.
  cbn [List.length Z.of_nat Z.leb Z.ltb Z.compare Pos.compare
       Pos.compare_cont andb option_map lift2 Pos.of_succ_nat].
  split; [|split; reflexivity].
  f_equal. unfold Rmean, Rsum. cbn [fold_right List.length INR]. field.
Qed.

Lemma single_observation_bounds_missing_witness :
  exists smoothed lower upper,
    smooth_data_with_confidence sample_ppf
      [None; Some 5%R; None; Some 7%R] 3 (95 / 100)%R
      = Ok (smoothed, lower, upper) /\
    nth 1 smoothed None = Some 5%R /\
    nth 1 lower None = None /\
    nth 1 upper None = None.
Proof.
  apply (single_observation_bounds_missing sample_ppf
           [None; Some 5%R; None; Some 7%R] 3 (95 / 100)%R 1%nat 5%R).
  - lia.
  - simpl. lia.
  - reflexivity.
Defined.

(* ================================================================== *)
(** * Further properties *)
(* ================================================================== *)

(* ------------------------------------------------------------------ *)
(** ** The merger: files, outcome, master table *)
(* ------------------------------------------------------------------ *)

Lemma find_data_files_fold `{Library} (data_dir : string)
  (listing low two : list string) :
  fold_left
    (fun (acc : list string * list string) filename =>
       let (low_cycle_files, two_network_files) := acc in
       if (endswith filename ".xlsx" || endswith filename ".xls")
          && negb (startswith filename "~$")
       then
         let file_path := os_path_join data_dir filename in
         if contains "低环" filename
         then (low_cycle_files ++ [file_path], two_network_files)
         else if contains "二网" filename
         then (low_cycle_files, two_network_files ++ [file_path])
         else acc
       else acc)
    listing (low, two)
  = (low ++ map (os_path_join data_dir) (filter is_low_cycle_name listing),
     two ++ map (os_path_join data_dir) (filter is_two_network_name listing)).
Proof.
  revert low two. induction listing as [|f l IH]; intros low two.
  - cbn [fold_left filter map]. now rewrite !app_nil_r.
  - cbn [fold_left filter]. unfold is_low_cycle_name, is_two_network_name,
      is_excel_name.
    destruct ((endswith f ".xlsx" || endswith f ".xls")
              && negb (startswith f "~$")); cbn [andb].
    + destruct (contains "低环" f); cbn [negb andb].
      * rewrite IH. cbn [map]. now rewrite <- app_assoc.
      * destruct (contains "二网" f).
        -- rewrite IH. cbn [map]. now rewrite <- app_assoc.
        -- apply IH.
    + apply IH.
Qed.

(** X1.  [find_data_files] returns, in the order of the directory
    listing, the joined paths of the Excel files (suffix .xlsx or .xls,
    not starting with ~$) whose name holds the first keyword, and of
    those whose name holds the second keyword but not the first; so no
    file is returned in both lists and a lock file or another kind of
    file in neither. *)
Theorem find_data_files_classification `{Library} (data_dir : string) :
  find_data_files data_dir
  = (map (os_path_join data_dir)
         (filter is_low_cycle_name (os_listdir data_dir)),
     map (os_path_join data_dir)
         (filter is_two_network_name (os_listdir data_dir))) /\
  (forall f, is_low_cycle_name f = true -> is_two_network_name f = false) /\
  (forall f, startswith f "~$" = true ->
             is_low_cycle_name f = false /\ is_two_network_name f = false).
Proof.
  split; [|split].
  - unfold find_data_files.
    exact (find_data_files_fold data_dir (os_listdir data_dir) [] []).
  - intros f. unfold is_low_cycle_name, is_two_network_name.
    destruct (is_excel_name f); [|discriminate]. cbn [andb].
    now intros ->.
  - intros f Hf. unfold is_low_cycle_name, is_two_network_name, is_excel_name.
    rewrite Hf. cbn [negb]. rewrite andb_false_r. split; reflexivity.
Qed.

Lemma mapM_all_ok {A B : Type} (f : A -> result B) (l : list A) :
  (exists bs, mapM f l = Ok bs) <-> (forall a, In a l -> exists b, f a = Ok b).
Proof.
  split.
  - intros [bs Hbs] a Ha. apply mapM_Forall2 in Hbs.
    revert Ha. induction Hbs as [|x b l bs Hx _ IH]; intros Ha; [contradiction|].
    destruct Ha as [<-|Ha]; [eauto | auto].
  - intros Hall.
    destruct (mapM_ok f (fun _ _ => True) l) as [bs [Hbs _]]; [|eauto].
    intros a Ha. destruct (Hall a Ha) as [b Hb]. eauto.
Qed.

Lemma mapM_first_error {A B : Type} (f : A -> result B)
  (pre : list A) (a : A) (rest : list A) (e : error) :
  (forall x, In x pre -> exists b, f x = Ok b) ->
  f a = Err e ->
  mapM f (pre ++ a :: rest) = Err e.
Proof.
  induction pre as [|x pre IH]; intros Hpre Ha; cbn [app mapM].
  - now rewrite Ha.
  - destruct (Hpre x (or_introl eq_refl)) as [b Hb]. rewrite Hb. cbn [bind].
    rewrite IH; [reflexivity | | assumption].
    intros y Hy. apply Hpre. now right.
Qed.

Lemma merge_all_data_unfold `{Library} (data_dir : string) l0 low t0 two :
  find_data_files data_dir = (l0 :: low, t0 :: two) ->
  merge_all_data data_dir
  = (low_cycle_dfs <- mapM process_low_cycle_data (l0 :: low) ;;
     low_cycle_combined <- concat true low_cycle_dfs ;;
     two_network_dfs <- mapM process_two_network_data (t0 :: two) ;;
     two_network_combined <- concat true two_network_dfs ;;
     concat true [low_cycle_combined; two_network_combined]).
Proof. intros Hf. unfold merge_all_data. now rewrite Hf. Qed.

(** When every file unifies, the three concatenations go through. *)
Lemma merge_all_data_succeeds `{Library} (data_dir : string) l0 low t0 two
  ldfs tdfs :
  find_data_files data_dir = (l0 :: low, t0 :: two) ->
  mapM process_low_cycle_data (l0 :: low) = Ok ldfs ->
  mapM process_two_network_data (t0 :: two) = Ok tdfs ->
  exists lc tc out,
    concat true ldfs = Ok lc /\ concat true tdfs = Ok tc /\
    concat true [lc; tc] = Ok out /\
    merge_all_data data_dir = Ok out /\ canonical out.
Proof.
  intros Hf Hl Ht.
  destruct (concat_canonical ldfs (mapM_nonempty _ _ _ _ Hl)
              (mapM_canonical _ _ _ process_low_cycle_data_canonical Hl))
    as [lc [Hlc [Clc _]]].
  destruct (concat_canonical tdfs (mapM_nonempty _ _ _ _ Ht)
              (mapM_canonical _ _ _ process_two_network_data_canonical Ht))
    as [tc [Htc [Ctc _]]].
  destruct (concat_canonical [lc; tc] ltac:(discriminate)
              (Forall_cons _ Clc (Forall_cons _ Ctc (Forall_nil _))))
    as [out [Hout [Cout _]]].
  exists lc, tc, out. repeat (split; [assumption|]).
  split; [|assumption].
  rewrite (merge_all_data_unfold data_dir _ _ _ _ Hf), Hl. cbn [bind].
  rewrite Hlc, Ht. cbn [bind]. rewrite Htc. cbn [bind]. exact Hout.
Qed.

(** X2.  The outcome of the merge.  Without a first-category file it
    fails for that, whatever else is there; with one but without a
    second-category file it fails for that.  Otherwise it succeeds exactly
    when every file of both categories unifies, and fails with the error
    of the first file that does not, the first-category files being
    unified first. *)
Theorem merge_all_data_outcome `{Library} (data_dir : string) :
  let low := fst (find_data_files data_dir) in
  let two := snd (find_data_files data_dir) in
  (low = [] -> merge_all_data data_dir = Err NoLowCycleFiles) /\
  (low <> [] -> two = [] -> merge_all_data data_dir = Err NoTwoNetworkFiles) /\
  ((exists out, merge_all_data data_dir = Ok out) <->
   low <> [] /\ two <> [] /\
   (forall p, In p low -> exists d, process_low_cycle_data p = Ok d) /\
   (forall p, In p two -> exists d, process_two_network_data p = Ok d)) /\
  (forall pre p rest e,
     two <> [] -> low = pre ++ p :: rest ->
     (forall x, In x pre -> exists d, process_low_cycle_data x = Ok d) ->
     process_low_cycle_data p = Err e ->
     merge_all_data data_dir = Err e) /\
  (forall pre p rest e,
     low <> [] -> two = pre ++ p :: rest ->
     (forall x, In x low -> exists d, process_low_cycle_data x = Ok d) ->
     (forall x, In x pre -> exists d, process_two_network_data x = Ok d) ->
     process_two_network_data p = Err e ->
     merge_all_data data_dir = Err e).
Proof.
  cbv zeta. destruct (find_data_files data_dir) as [low two] eqn:Hf.
  cbn [fst snd].
  split; [|split; [|split; [|split]]].
  - intros ->. unfold merge_all_data. now rewrite Hf.
  - intros Hlow ->. unfold merge_all_data. rewrite Hf.
    destruct low; [congruence | reflexivity].
  - split.
    + intros [out Hout]. unfold merge_all_data in Hout. rewrite Hf in Hout.
      destruct low as [|l0 low]; [discriminate|].
      destruct two as [|t0 two]; [discriminate|].
      destruct (mapM process_low_cycle_data (l0 :: low)) as [ldfs|e] eqn:Hl;
        [|discriminate].
      cbn [bind] in Hout.
      destruct (concat true ldfs) as [lc|e]; [|discriminate].
      cbn [bind] in Hout.
      destruct (mapM process_two_network_data (t0 :: two)) as [tdfs|e] eqn:Ht;
        [|discriminate].
      split; [discriminate|]. split; [discriminate|]. split.
      * apply mapM_all_ok. eauto.
      * apply mapM_all_ok. eauto.
    + intros [Hlow [Htwo [Hall1 Hall2]]].
      destruct low as [|l0 low]; [congruence|].
      destruct two as [|t0 two]; [congruence|].
      apply mapM_all_ok in Hall1. destruct Hall1 as [ldfs Hl].
      apply mapM_all_ok in Hall2. destruct Hall2 as [tdfs Ht].
      destruct (merge_all_data_succeeds data_dir _ _ _ _ _ _ Hf Hl Ht)
        as [_ [_ [out [_ [_ [_ [Hm _]]]]]]].
      eauto.
  - intros pre p rest e Htwo -> Hpre Hp.
    destruct two as [|t0 two]; [congruence|].
    destruct (pre ++ p :: rest) as [|l0 low] eqn:Hlow;
      [destruct pre; discriminate|].
    rewrite (merge_all_data_unfold data_dir _ _ _ _ Hf), <- Hlow.
    now rewrite (mapM_first_error _ pre p rest e Hpre Hp).
  - intros pre p rest e Hlow -> Hall Hpre Hp.
    destruct low as [|l0 low]; [congruence|].
    destruct (pre ++ p :: rest) as [|t0 two] eqn:Htwo;
      [destruct pre; discriminate|].
    apply mapM_all_ok in Hall. destruct Hall as [ldfs Hl].
    destruct (concat_canonical ldfs (mapM_nonempty _ _ _ _ Hl)
                (mapM_canonical _ _ _ process_low_cycle_data_canonical Hl))
      as [lc [Hlc _]].
    rewrite (merge_all_data_unfold data_dir _ _ _ _ Hf), Hl. cbn [bind].
    rewrite Hlc. cbn [bind]. rewrite <- Htwo.
    now rewrite (mapM_first_error _ pre p rest e Hpre Hp).
Qed.

Lemma relabel_labels (s : Z) (rs : list (Z * row)) :
  map fst (relabel s rs)
  = map (fun k => s + Z.of_nat k) (seq 0 (List.length rs)).
Proof.
  revert s. induction rs as [|r rs IH]; intros s; [reflexivity|].
  cbn [relabel map List.length seq fst]. f_equal; [lia|].
  rewrite IH, <- seq_shift, map_map. apply map_ext. intros k. lia.
Qed.

Lemma concat_reset_index (dfs : list DataFrame) (out : DataFrame) :
  concat true dfs = Ok out ->
  map fst (rows out) = map Z.of_nat (seq 0 (nrows out)).
Proof.
  unfold concat. destruct dfs as [|d dfs]; [discriminate|].
  intros [= <-]. unfold nrows. cbn [rows].
  rewrite relabel_labels, relabel_length. apply map_ext. intros k. lia.
Qed.

(** X3.  The master table of a successful merge is in canonical form:
    it has the 27 canonical columns in canonical order, and its rows are
    numbered 0, 1, 2, ... afresh, whatever labels the sheets had. *)
Theorem master_table_shape `{Library} (data_dir : string) (out : DataFrame) :
  merge_all_data data_dir = Ok out ->
  columns out = standard_columns /\
  map fst (rows out) = map Z.of_nat (seq 0 (nrows out)) /\
  Forall (fun r => forall c, ~ In c standard_columns -> snd r c = NA)
         (rows out).
Proof.
  intros Hm.
  assert (Hsome : exists o, merge_all_data data_dir = Ok o) by eauto.
  unfold merge_all_data in Hm.
  destruct (find_data_files data_dir) as [low two] eqn:Hf.
  destruct low as [|l0 low]; [discriminate|].
  destruct two as [|t0 two]; [discriminate|].
  destruct (mapM process_low_cycle_data (l0 :: low)) as [ldfs|e] eqn:Hl;
    [|discriminate].
  cbn [bind] in Hm.
  destruct (concat true ldfs) as [lc|e] eqn:Hlc; [|discriminate].
  cbn [bind] in Hm.
  destruct (mapM process_two_network_data (t0 :: two)) as [tdfs|e] eqn:Ht;
    [|discriminate].
  cbn [bind] in Hm.
  destruct (concat true tdfs) as [tc|e] eqn:Htc; [|discriminate].
  cbn [bind] in Hm.
  destruct (merge_all_data_succeeds data_dir _ _ _ _ _ _ Hf Hl Ht)
    as [lc' [tc' [out' [Hlc' [Htc' [Hout' [_ [Hcols Hrows]]]]]]]].
  rewrite Hlc in Hlc'. injection Hlc' as <-.
  rewrite Htc in Htc'. injection Htc' as <-.
  rewrite Hm in Hout'. injection Hout' as <-.
  split; [exact Hcols|]. split; [exact (concat_reset_index _ _ Hm)|].
  eapply Forall_impl; [|exact Hrows]. intros r Hr c Hc. apply Hr.
  destruct (mem c standard_columns) eqn:Hmem; [|reflexivity].
  apply mem_In in Hmem. contradiction.
Qed.

Lemma master_table_shape_witness :
  map fst (rows sample_master) = [0; 1; 2; 3; 4] /\
  columns sample_master = standard_columns.
Proof.
  destruct (@master_table_shape sample_library "data" sample_master)
    as [Hcols [Hidx _]].
  - vm_compute. reflexivity.
  - split; [|exact Hcols]. rewrite Hidx. reflexivity.
Defined.

(* ------------------------------------------------------------------ *)
(** ** The unifier: time and date fields *)
(* ------------------------------------------------------------------ *)

(** X4.  In a unified second-category table every row carries, as its
    date, the leftmost YYYY-MM-DD substring of the file name, and as its
    data time the combination of that date with the clock text of the raw
    row: missing when the raw cell is missing, blank after stripping, or
    without a colon, and otherwise whatever the parser makes of
    "<date> <clock>". *)
Theorem two_network_time_fields `{Library} (path : string) (out : DataFrame) :
  process_two_network_data path = Ok out ->
  exists before date after,
    chars (os_path_basename path) = before ++ date ++ after /\
    date_shape date = true /\
    (forall b d a,
       chars (os_path_basename path) = b ++ d ++ a -> date_shape d = true ->
       (List.length before <= List.length b)%nat) /\
    rows_rel
      (fun r r' =>
         r' "日期" = Str (unchars date) /\
         let clock := strip (py_str (r "数据时间")) in
         r' "数据时间"
         = if notna (r "数据时间") && negb (String.eqb clock EmptyString)
              && contains ":" clock
           then to_datetime_scalar (unchars date ++ " " ++ clock)
           else NA)
      (rows (read_excel path)) (rows out).
Proof.
  intros Hok.
  destruct (process_two_network_data_rows path out Hok) as [m [Hm Hrows]].
  destruct (re_search_date_leftmost _ _ Hm) as [before [after [Heq [Hd Hl]]]].
  exists before, m, after. repeat (split; [assumption|]).
  eapply rows_rel_weaken; [|exact Hrows].
  intros r r' [Hdate Htime]. split; [exact Hdate|]. cbv zeta.
  rewrite Htime. unfold combine_datetime.
  destruct (notna (r "数据时间")
            && negb (String.eqb (strip (py_str (r "数据时间"))) EmptyString));
    cbn [andb]; reflexivity.
Qed.

Lemma two_network_time_fields_witness :
  exists date,
    @date_shape sample_library date = true /\
    rows_rel (fun _ r' => r' "日期" = Str (unchars date))
             two_network_raw.(rows) sample_two_network_unified.(rows).
Proof.
  destruct (@two_network_time_fields sample_library
              "data/二网_2023-11-20.xlsx" sample_two_network_unified)
    as [before [date [after [_ [Hd [_ Hrows]]]]]].
  - vm_compute. reflexivity.
  - exists date. split; [exact Hd|].
    eapply rows_rel_weaken; [|exact Hrows]. intros r r' [Hdate _]. exact Hdate.
Defined.

(** X5.  In a unified first-category table the date of every row is the
    day of its parsed data time, and missing where the time did not
    parse; the data-time column is what the parser returned for the raw
    column, provided the parser returned one value per row. *)
Theorem low_cycle_time_fields `{Library} (path : string) (out : DataFrame) :
  process_low_cycle_data path = Ok out ->
  Forall (fun r => snd r "日期"
                   = match snd r "数据时间" with
                     | Stamp t => Str (strftime_ymd t)
                     | _ => NA
                     end) (rows out) /\
  (List.length (to_datetime (column "数据时间" (read_excel path)))
   = nrows (read_excel path) ->
   column "数据时间" out = to_datetime (column "数据时间" (read_excel path))).
Proof.
  unfold process_low_cycle_data.
  destruct (first_missing low_cycle_required (read_excel path)) eqn:Hfm;
    [discriminate|].
  apply first_missing_none in Hfm.
  intros Hsel. apply getitem_list_ok in Hsel. destruct Hsel as [_ Hsel].
  set (d1 := add_missing_columns (read_excel path)) in *.
  set (d2 := setitem "源文件" (Str (os_path_basename path)) d1) in *.
  set (d3 := setitem "数据类型" (Str "低环") d2) in *.
  set (v4 := to_datetime (column "数据时间" d3)) in *.
  set (d4 := setitem_series "数据时间" v4 d3) in *.
  set (g := fun r : row => match r "数据时间" with
                           | Stamp t => Str (strftime_ymd t)
                           | _ => NA
                           end).
  assert (Hv5 : dt_strftime (column "数据时间" d4)
                = map (fun r => g (snd r)) (rows d4)).
  { unfold dt_strftime, column. rewrite map_map. reflexivity. }
  pose proof (rows_rel_add_missing (read_excel path)) as H1. fold d1 in H1.
  pose proof (rows_rel_setitem "源文件" (Str (os_path_basename path)) d1) as H2.
  fold d2 in H2.
  pose proof (rows_rel_setitem "数据类型" (Str "低环") d2) as H3. fold d3 in H3.
  pose proof (rows_rel_setitem_series_map "日期" g _ d4 Hv5) as H5.
  assert (Hpresent : has_column "数据时间" (read_excel path) = true)
    by (apply Hfm; simpl; tauto).
  split.
  - pose proof (rows_rel_comp _ _ _ _ _ H5 Hsel) as H56.
    apply (rows_rel_Forall _ (fun r' => r' "日期" = g r') _ _) in H56;
      [exact H56|].
    intros a b [r5 [-> ->]]. unfold restrict, g.
    replace (mem "日期" standard_columns) with true by reflexivity.
    replace (mem "数据时间" standard_columns) with true by reflexivity.
    unfold upd. cbn [String.eqb Ascii.eqb Bool.eqb andb].
    reflexivity.
  - intros Hlen.
    assert (H13 : rows_rel (fun r r' => r' "数据时间" = r "数据时间")
                    (rows (read_excel path)) (rows d3)).
    { pose proof (rows_rel_comp _ _ _ _ _ (rows_rel_comp _ _ _ _ _ H1 H2) H3)
        as H123.
      eapply rows_rel_weaken; [|exact H123].
      intros a b [r2 [[r1 [Hr1 ->]] ->]]. unfold upd.
      cbn [String.eqb Ascii.eqb Bool.eqb andb].
      rewrite Hr1, mem_missing_columns, Hpresent. now rewrite andb_false_r. }
    assert (Hraw : column "数据时间" d3 = column "数据时间" (read_excel path)).
    { unfold column. now apply rows_rel_column. }
    assert (Hl3 : List.length (rows d3) = nrows (read_excel path)).
    { unfold nrows. eapply rows_rel_length. exact H13. }
    assert (Hd4 : column "数据时间" d4 = v4).
    { unfold column, d4, setitem_series. cbn [rows].
      apply zip_update_column. unfold v4. rewrite Hraw, Hlen. now symmetry. }
    pose proof (rows_rel_comp _ _ _ _ _ H5 Hsel) as H56.
    assert (H46 : rows_rel (fun r r' => r' "数据时间" = r "数据时间")
                    (rows d4) (rows out)).
    { eapply rows_rel_weaken; [|exact H56].
      intros a b [r5 [-> ->]]. unfold restrict.
      replace (mem "数据时间" standard_columns) with true by reflexivity.
      unfold upd. cbn [String.eqb Ascii.eqb Bool.eqb andb]. reflexivity. }
    transitivity (column "数据时间" d4).
    { unfold column. exact (rows_rel_column _ _ _ H46). }
    rewrite Hd4. unfold v4. now rewrite Hraw.
Qed.

Lemma low_cycle_time_fields_witness :
  column "数据时间" sample_low_cycle_unified
  = [Stamp nine; Stamp (nine + hour)].
Proof.
  destruct (@low_cycle_time_fields sample_library "data/低环_室温.xlsx"
              sample_low_cycle_unified) as [_ Hcol].
  - vm_compute. reflexivity.
  - rewrite Hcol; reflexivity.
Defined.

(* ------------------------------------------------------------------ *)
(** ** The resampler: timeline, layout, ungrouped branch *)
(* ------------------------------------------------------------------ *)

Lemma date_range_nth (start stop : Z) (i : nat) :
  (i < List.length (date_range start stop))%nat ->
  nth i (date_range start stop) 0 = start + Z.of_nat i * hour.
Proof.
  intros Hi. unfold date_range in *. rewrite length_map, length_seq in Hi.
  rewrite (nth_indep _ 0 (start + Z.of_nat 0 * hour))
    by (now rewrite length_map, length_seq).
  rewrite (map_nth (fun k => start + Z.of_nat k * hour)).
  now rewrite seq_nth.
Qed.

Lemma timeline_whole_hours (lo hi : Z) :
  (ceil_h hi - floor_h lo) / hour * hour = ceil_h hi - floor_h lo.
Proof.
  pose proof hour_pos as Hp.
  replace (ceil_h hi - floor_h lo)
    with ((- ((- hi) / hour) - lo / hour) * hour)
    by (unfold ceil_h, floor_h; lia).
  rewrite Z.div_mul by lia. reflexivity.
Qed.

Lemma ceil_h_lt (t : Z) : ceil_h t < t + hour.
Proof.
  unfold ceil_h. pose proof hour_pos as Hp.
  pose proof (Z.div_mod (- t) hour ltac:(lia)).
  pose proof (Z.mod_pos_bound (- t) hour Hp). lia.
Qed.

Lemma floor_h_gt (t : Z) : t - hour < floor_h t.
Proof.
  unfold floor_h. pose proof hour_pos as Hp.
  pose proof (Z.div_mod t hour ltac:(lia)).
  pose proof (Z.mod_pos_bound t hour Hp). lia.
Qed.

(** X6.  The global timeline of a table whose earliest and latest valid
    instants are [lo] and [hi]: it starts at the hour of [lo], less than
    an hour before it, steps by exactly one hour, holds only whole
    hours, and ends at the first whole hour not before [hi]; and every
    valid instant of the table lies in the hour of exactly one of its
    labels. *)
Theorem timeline_invariants (instants_ : list Z) (lo hi : Z) :
  series_min instants_ = Some lo ->
  series_max instants_ = Some hi ->
  let tl_ := timeline lo hi in
  let n := List.length tl_ in
  (0 < n)%nat /\
  (forall i, (i < n)%nat -> nth i tl_ 0 = floor_h lo + Z.of_nat i * hour) /\
  (forall t, In t tl_ -> t mod hour = 0) /\
  nth 0 tl_ 0 = floor_h lo /\ lo - hour < floor_h lo <= lo /\
  nth (n - 1) tl_ 0 = ceil_h hi /\ hi <= ceil_h hi < hi + hour /\
  forall x, In x instants_ ->
    In (floor_h x) tl_ /\
    forall t, In t tl_ -> (t <= x < t + hour <-> t = floor_h x).
Proof.
  intros Hlo Hhi. cbv zeta.
  pose proof (series_min_max_le _ _ _ Hlo Hhi) as Hle.
  destruct (timeline_length lo hi Hle) as [Hlen Hpos].
  pose proof hour_pos as Hp.
  assert (Hn : (0 < List.length (timeline lo hi))%nat) by (rewrite Hlen; lia).
  split; [exact Hn|].
  split; [intros i Hi; now apply date_range_nth|].
  split; [apply timeline_aligned|].
  unfold timeline in Hn, Hlen |- *.
  split; [rewrite (date_range_nth _ _ 0%nat Hn); lia|].
  split; [split; [apply floor_h_gt | apply floor_h_le]|].
  split.
  - rewrite date_range_nth by lia.
    rewrite Hlen.
    replace (Z.of_nat (Z.to_nat ((ceil_h hi - floor_h lo) / hour + 1) - 1))
      with ((ceil_h hi - floor_h lo) / hour) by lia.
    rewrite timeline_whole_hours. lia.
  - split; [split; [apply ceil_h_ge | apply ceil_h_lt]|].
    intros x Hx.
    pose proof (series_min_le _ _ _ Hlo Hx).
    pose proof (series_max_ge _ _ _ Hhi Hx).
    split.
    + apply date_range_In. exists (x / hour - lo / hour).
      split; [pose proof (Z.div_le_mono lo x hour Hp ltac:(lia)); lia|].
      split; [unfold floor_h; lia|].
      pose proof (floor_h_le x). pose proof (ceil_h_ge hi). lia.
    + intros t Ht. pose proof (timeline_aligned lo hi t Ht) as Hal.
      rewrite <- (floor_h_bucket x t Hal). split; intros H1; now symmetry.
Qed.

Lemma timeline_invariants_witness :
  nth 0 (timeline eight (eight + 210 * minute)) 0 = eight /\
  nth 4 (timeline eight (eight + 210 * minute)) 0 = eight + 4 * hour.
Proof.
  destruct (timeline_invariants (instants (rows sample_readings))
              eight (eight + 210 * minute))
    as [_ [_ [_ [Hfirst [_ [Hlast _]]]]]].
  - reflexivity.
  - reflexivity.
  - split; [exact Hfirst | exact Hlast].
Defined.

Lemma reindex_labels (idx : list Z) (df : DataFrame) :
  map fst (rows (reindex idx df)) = idx.
Proof.
  unfold reindex. cbn [rows]. rewrite map_map.
  induction idx as [|t idx IH]; [reflexivity|].
  cbn [map]. rewrite IH. f_equal. now destruct (find _ _).
Qed.

(** X7.  A table with a measurement column and a time column but without
    one of the two key columns, and with at least one valid instant, is
    resampled as a whole: the result has exactly the available
    measurement columns, its rows are labelled by the global timeline,
    one row per label, and each cell is the mean of the raw cells of that
    column whose instants fall in the hour at the label. *)
Theorem ungrouped_resample (df : DataFrame) (min_time max_time : Z) :
  available_columns df <> [] ->
  has_column "datetime" df = true ->
  has_column "位置" df && has_column "楼层" df = false ->
  series_min (instants (rows df)) = Some min_time ->
  series_max (instants (rows df)) = Some max_time ->
  exists out,
    _resample_data df = Ok out /\
    columns out = available_columns df /\
    map fst (rows out) = timeline min_time max_time /\
    Forall (fun r => forall c,
              In c (available_columns df) ->
              snd r c = mean (map (fun r' => snd r' c)
                                  (filter (falls_in_hour (fst r)) (rows df))))
           (rows out).
Proof.
  intros Hav Hdt Hkeys Hmin Hmax.
  unfold _resample_data.
  destruct (available_columns df) as [|c0 cols] eqn:Hcols; [congruence|].
  rewrite Hdt, Hkeys, Hmin, Hmax. cbn [negb].
  unfold resample_mean. rewrite Hmin, Hmax. cbn [bind].
  eexists. split; [reflexivity|].
  split; [reflexivity|].
  split; [apply reindex_labels|].
  unfold reindex. cbn [rows columns].
  apply Forall_forall. intros r Hr. apply in_map_iff in Hr.
  destruct Hr as [t [<- Ht]]. intros c Hc. apply mem_In in Hc.
  assert (Hfst : fst (match find (fun r => Z.eqb (fst r) t)
                  (map (fun b => (b, bucket_row (c0 :: cols) (rows df) b))
                       (date_range (floor_h min_time) (floor_h max_time))) with
                      | Some r => (t, snd r)
                      | None => (t, fun _ => NA)
                      end) = t) by (now destruct (find _ _)).
  rewrite Hfst. rewrite (reindex_bucket _ _ _ _ _ _ Hmin Hmax Hc).
  do 2 f_equal. apply filter_ext_in. intros r1 _.
  apply in_bucket_falls_in_hour.
  exact (timeline_aligned min_time max_time t Ht).
Qed.

Lemma ungrouped_resample_witness :
  exists out,
    _resample_data
      {| columns := [ "datetime"; "室温温度(℃)" ];
         rows := rows sample_readings |} = Ok out /\
    map fst (rows out) = timeline eight (eight + 210 * minute) /\
    columns out = [ "室温温度(℃)" ].
Proof.
  destruct (ungrouped_resample
              {| columns := [ "datetime"; "室温温度(℃)" ];
                 rows := rows sample_readings |}
              eight (eight + 210 * minute))
    as [out [Hout [Hcols [Hidx _]]]].
  - discriminate.
  - reflexivity.
  - reflexivity.
  - reflexivity.
  - reflexivity.
  - exists out. split; [exact Hout|]. split; [exact Hidx | exact Hcols].
Defined.

Lemma union_columns_absorb (acc l : list string) :
  (forall c, In c l -> In c acc) -> union_columns acc l = acc.
Proof.
  revert acc. induction l as [|c l IH]; intros acc Hall; [reflexivity|].
  cbn [union_columns].
  assert (Hc : mem c acc = true) by (apply mem_In, Hall; now left).
  rewrite Hc. apply IH. intros x Hx. apply Hall. now right.
Qed.

Lemma union_columns_fresh (acc l : list string) :
  NoDup l -> (forall c, In c l -> ~ In c acc) -> union_columns acc l = acc ++ l.
Proof.
  revert acc. induction l as [|c l IH]; intros acc Hnd Hfresh.
  - cbn [union_columns]. now rewrite app_nil_r.
  - inversion Hnd as [|? ? Hc Hnd']; subst. cbn [union_columns].
    assert (Hm : mem c acc = false).
    { destruct (mem c acc) eqn:Hm; [|reflexivity].
      apply mem_In in Hm. exfalso. apply (Hfresh c); [now left | assumption]. }
    rewrite Hm, IH; [now rewrite <- app_assoc | assumption |].
    intros x Hx Hin. apply in_app_or in Hin. destruct Hin as [Hin|[->|[]]].
    + apply (Hfresh x); [now right | assumption].
    + contradiction.
Qed.

Lemma fold_union_same (cols : list string) (gs : list DataFrame) :
  NoDup cols -> gs <> [] -> Forall (fun g => columns g = cols) gs ->
  fold_left union_columns (map columns gs) [] = cols.
Proof.
  intros Hnd Hne Hall. destruct gs as [|g gs]; [congruence|].
  inversion Hall as [|? ? Hg Hrest]; subst. cbn [map fold_left].
  rewrite (union_columns_fresh [] (columns g) Hnd) by (intros c _ []).
  cbn [app]. clear Hne Hall.
  induction Hrest as [|g' gs Hg' _ IH]; [reflexivity|].
  cbn [map fold_left]. rewrite Hg'.
  rewrite union_columns_absorb by auto. exact IH.
Qed.

Lemma available_columns_keys_NoDup (df : DataFrame) :
  NoDup (available_columns df ++ ["位置"; "楼层"]).
Proof.
  assert (Hv : NoDup value_columns).
  { repeat (constructor; [simpl; intuition discriminate|]). constructor. }
  destruct (available_columns_no_key df) as [Hl Hf].
  apply NoDup_app.
  - now apply NoDup_filter.
  - repeat (constructor; [simpl; intuition discriminate|]). constructor.
  - intros c Hc [<-|[<-|[]]]; apply mem_In in Hc; congruence.
Qed.

Lemma concat_rows_blocks (cols : list string) (idx : list Z)
  (rs : list (Z * row)) (keys : list (string * string))
  (gs : list DataFrame) :
  Forall2 (group_frame_ok cols idx rs) keys gs ->
  map fst (concat_rows gs) = flat_map (fun _ => idx) keys /\
  map key_of (concat_rows gs)
  = flat_map (fun k => repeat (Some k) (List.length idx)) keys.
Proof.
  induction 1 as [|k g keys gs Hg _ [IHl IHk]]; [now split|].
  unfold concat_rows. cbn [flat_map]. fold (concat_rows gs).
  rewrite !map_app, IHl, IHk.
  pose proof (group_frame_key _ _ _ _ _ Hg) as Hkey.
  destruct Hg as [_ [Hidx _]].
  split; f_equal.
  - rewrite map_map. cbn [fst]. exact Hidx.
  - rewrite <- Hidx, length_map.
    rewrite <- (length_map (fun r => (fst r, restrict (columns g) (snd r)))).
    induction Hkey as [|r l Hr _ IH]; [reflexivity|].
    cbn [map List.length repeat]. now rewrite Hr, IH.
Qed.

Lemma flat_map_const_length {A B : Type} (l : list A) (b : list B) :
  List.length (flat_map (fun _ => b) l) = (List.length l * List.length b)%nat.
Proof.
  induction l as [|a l IH]; [reflexivity|].
  cbn [flat_map List.length]. rewrite length_app, IH. lia.
Qed.

(** X8.  Layout of the grouped branch.  Under the preconditions of the
    grouped resampling, the result has the available measurement columns
    followed by the two key columns; its rows come in one block per key,
    the keys in strictly ascending order, every block labelled by the
    whole global timeline in order; so the number of rows is the number
    of keys times the length of the timeline, and the row labels repeat
    from block to block. *)
Theorem grouped_layout (df : DataFrame) (min_time max_time : Z) :
  available_columns df <> [] ->
  has_column "datetime" df = true ->
  has_column "位置" df = true ->
  has_column "楼层" df = true ->
  series_min (instants (rows df)) = Some min_time ->
  series_max (instants (rows df)) = Some max_time ->
  group_keys (rows df) <> [] ->
  (forall k, In k (group_keys (rows df)) ->
             instants (group_rows k (rows df)) <> []) ->
  exists out,
    _resample_data df = Ok out /\
    columns out = available_columns df ++ ["位置"; "楼层"] /\
    map fst (rows out)
    = flat_map (fun _ => timeline min_time max_time) (group_keys (rows df)) /\
    map key_of (rows out)
    = flat_map (fun k => repeat (Some k)
                           (List.length (timeline min_time max_time)))
               (group_keys (rows df)) /\
    StronglySorted key_lt (group_keys (rows df)) /\
    nrows out = (List.length (group_keys (rows df))
                 * List.length (timeline min_time max_time))%nat.
Proof.
  intros Hav Hdt Hloc Hfl Hmin Hmax Hkeys Hinst.
  destruct (available_columns_no_key df) as [Hnl Hnf].
  destruct (mapM_ok
    (resample_group (available_columns df) (timeline min_time max_time) (rows df))
    (group_frame_ok (available_columns df) (timeline min_time max_time) (rows df))
    (group_keys (rows df))) as [gs [Hgs Hok]].
  { intros k Hk. apply resample_group_ok; auto. }
  pose proof (available_columns_keys_NoDup df) as Hnd.
  pose proof (concat_rows_blocks _ _ _ _ _ Hok) as [Hlabels Hblocks].
  assert (Hcols : fold_left union_columns (map columns gs) []
                  = available_columns df ++ ["位置"; "楼层"]).
  { apply fold_union_same; [exact Hnd| |].
    - intros ->. inversion Hok. congruence.
    - clear -Hok. induction Hok as [|k g ks gs Hg _ IH]; constructor;
        [apply Hg | exact IH]. }
  unfold _resample_data.
  destruct (available_columns df) as [|c0 cols] eqn:Hc; [congruence|].
  rewrite Hdt, Hloc, Hfl, Hmin, Hmax. cbn [negb andb].
  unfold timeline in Hgs. rewrite Hgs. cbn [bind].
  destruct gs as [|g gs]; [inversion Hok; congruence|].
  eexists. split; [reflexivity|]. cbn [concat columns rows].
  split; [exact Hcols|]. split; [exact Hlabels|]. split; [exact Hblocks|].
  split; [apply group_keys_sorted|].
  unfold nrows. cbn [rows].
  rewrite <- (length_map fst), Hlabels. apply flat_map_const_length.
Qed.

Lemma grouped_layout_witness :
  exists out,
    _resample_data sample_readings = Ok out /\
    columns out = [ "室温温度(℃)"; "位置"; "楼层" ] /\
    nrows out = 10%nat.
Proof.
  destruct (grouped_layout sample_readings eight (eight + 210 * minute))
    as [out [Hout [Hcols [_ [_ [_ Hn]]]]]].
  - discriminate.
  - reflexivity.
  - reflexivity.
  - reflexivity.
  - reflexivity.
  - reflexivity.
  - discriminate.
  - intros k Hk. vm_compute in Hk.
    destruct Hk as [<-|[<-|[]]]; discriminate.
  - exists out. split; [exact Hout|]. split; [exact Hcols | exact Hn].
Defined.

(* ------------------------------------------------------------------ *)
(** ** The smoother on series without gaps, and its range *)
(* ------------------------------------------------------------------ *)

Lemma observed_complete (vs : list R) : observed (map Some vs) = vs.
Proof.
  unfold observed. induction vs as [|v vs IH]; [reflexivity|].
  cbn [map flat_map app]. now rewrite IH.
Qed.

(** The number of values in the window at position [i] of a series
    without gaps. *)
Lemma complete_window_length (w : Z) (vs : list R) (i : nat) :
  List.length (observed (window_cells w (map Some vs) i))
  = (Nat.min (Z.to_nat (Z.of_nat i + 1 + (w - 1) / 2)) (List.length vs)
     - Nat.min (Z.to_nat (Z.of_nat i + 1 + (w - 1) / 2 - w)) (List.length vs))%nat.
Proof.
  unfold window_cells, window_bounds, clip. rewrite length_map.
  rewrite skipn_map, firstn_map, observed_complete.
  rewrite length_firstn, length_skipn. lia.
Qed.

Lemma half_window (w : Z) :
  1 <= w ->
  w / 2 <= 1 + (w - 1) / 2 <= w /\ w / 2 + 1 <= w - (w - 1) / 2 /\
  0 <= (w - 1) / 2 <= w / 2.
Proof.
  intros Hw.
  pose proof (Z.div_mod w 2 ltac:(lia)).
  pose proof (Z.mod_pos_bound w 2 ltac:(lia)).
  pose proof (Z.div_mod (w - 1) 2 ltac:(lia)).
  pose proof (Z.mod_pos_bound (w - 1) 2 ltac:(lia)). lia.
Qed.

Lemma complete_window_count (w : Z) (vs : list R) (i : nat) :
  1 <= w -> (i < List.length vs)%nat ->
  Z.min (Z.of_nat (List.length vs)) (1 + (w - 1) / 2)
  <= Z.of_nat (List.length (observed (window_cells w (map Some vs) i))).
Proof.
  intros Hw Hi. rewrite complete_window_length.
  pose proof (half_window w Hw) as [[H1 H2] [H3 [H4 H5]]].
  revert H1 H2 H3 H4 H5. generalize ((w - 1) / 2) (w / 2). lia.
Qed.

Lemma window_count_le (w : Z) (data : series) (i : nat) :
  (List.length (observed (window_cells w data i)) <= List.length data)%nat.
Proof.
  unfold window_cells, window_bounds.
  set (s := clip _ _). set (e := clip _ _).
  assert (Hobs : forall l : series,
             (List.length (observed l) <= List.length l)%nat).
  { induction l as [|[x|] l IH]; cbn [observed flat_map List.length app] in *;
      [lia| |]; unfold observed in IH; lia. }
  etransitivity; [apply Hobs|].
  rewrite length_firstn, length_skipn. lia.
Qed.

(** X9.  On a series without gaps (what the plotting code passes after
    [dropna()]) of at least two values, a window of size at least 3 whose
    half does not exceed the length of the series leaves no position
    undefined: the smoothed value and both bounds exist everywhere.  On
    any series shorter than half the window, the smoothed series is
    missing everywhere. *)
Theorem smoothing_without_gaps (norm_ppf : R -> R) (vs : list R) (w : Z)
  (c : R) :
  3 <= w ->
  exists smoothed lower upper,
    smooth_data_with_confidence norm_ppf (map Some vs) w c
      = Ok (smoothed, lower, upper) /\
    ((2 <= List.length vs)%nat -> w / 2 <= Z.of_nat (List.length vs) ->
     forall i, (i < List.length vs)%nat ->
       nth i smoothed None <> None /\
       nth i lower None <> None /\
       nth i upper None <> None) /\
    (Z.of_nat (List.length vs) < w / 2 ->
     forall i, nth i smoothed None = None).
Proof.
  intros Hw.
  destruct (smooth_positions norm_ppf (map Some vs) w c ltac:(lia))
    as [sm [lo [up [Hok [Hlen [_ [_ Hpos]]]]]]].
  rewrite length_map in Hlen, Hpos.
  exists sm, lo, up. split; [exact Hok|]. split.
  - intros Hn Hhalf i Hi.
    destruct (Hpos i Hi) as [Hs [Hl Hu]]. cbv zeta in Hl, Hu.
    pose proof (complete_window_count w vs i ltac:(lia) Hi) as Hcount.
    pose proof (half_window w ltac:(lia)) as [[H1 H2] [H3 _]].
    assert (Hhalf3 : 2 <= 1 + (w - 1) / 2).
    { pose proof (Z.div_le_mono 2 (w - 1) 2 ltac:(lia) ltac:(lia)) as Hd.
      change (2 / 2) with 1 in Hd. lia. }
    rewrite Hs, Hl, Hu.
    rewrite rolling_mean_at_cases, rolling_std_at_cases by lia.
    destruct (Z.leb_spec (Z.max 1 (w / 2))
                (Z.of_nat (List.length
                             (observed (window_cells w (map Some vs) i)))));
      [|lia].
    destruct (Z.leb_spec 2
                (Z.of_nat (List.length
                             (observed (window_cells w (map Some vs) i)))));
      [|lia].
    cbn [andb option_map lift2]. repeat split; discriminate.
  - intros Hshort i.
    destruct (Nat.lt_ge_cases i (List.length vs)) as [Hi|Hi].
    + destruct (Hpos i Hi) as [Hs _]. rewrite Hs.
      rewrite rolling_mean_at_cases by lia.
      pose proof (window_count_le w (map Some vs) i) as Hle.
      rewrite length_map in Hle.
      destruct (Z.leb_spec (Z.max 1 (w / 2))
                  (Z.of_nat (List.length
                               (observed (window_cells w (map Some vs) i)))));
        [lia | reflexivity].
    + apply nth_overflow. lia.
Qed.

Lemma smoothing_without_gaps_witness :
  exists smoothed lower upper,
    smooth_data_with_confidence sample_ppf
      (map Some [1%R; 2%R; 6%R]) 5 (95 / 100)%R
      = Ok (smoothed, lower, upper) /\
    nth 0 smoothed None <> None /\
    nth 0 lower None <> None /\
    nth 2 upper None <> None.
Proof.
  destruct (smoothing_without_gaps sample_ppf [1%R; 2%R; 6%R] 5 (95 / 100)%R)
    as [sm [lo [up [Hok [Hall _]]]]]; [lia|].
  exists sm, lo, up. split; [exact Hok|].
  assert (H2 : (2 <= List.length [1%R; 2%R; 6%R])%nat) by (simpl; lia).
  assert (Hh : 5 / 2 <= Z.of_nat (List.length [1%R; 2%R; 6%R]))
    by (vm_compute; discriminate).
  split; [apply (Hall H2 Hh 0%nat); simpl; lia|].
  split; [apply (Hall H2 Hh 0%nat); simpl; lia|].
  apply (Hall H2 Hh 2%nat). simpl. lia.
Defined.

Lemma Rsum_bounds (l : list R) (a b : R) :
  Forall (fun x => (a <= x <= b)%R) l ->
  (INR (List.length l) * a <= Rsum l <= INR (List.length l) * b)%R.
Proof.
  induction 1 as [|x l Hx _ IH].
  - cbn [Rsum fold_right List.length INR]. lra.
  - change (Rsum (x :: l)) with (x + Rsum l)%R.
    change (List.length (x :: l)) with (S (List.length l)).
    rewrite S_INR. lra.
Qed.

Lemma Rmean_bounds (l : list R) (a b : R) :
  l <> [] -> Forall (fun x => (a <= x <= b)%R) l -> (a <= Rmean l <= b)%R.
Proof.
  intros Hne Hall. pose proof (Rsum_bounds l a b Hall) as [Hlo Hhi].
  assert (Hn : (0 < INR (List.length l))%R).
  { apply lt_0_INR. destruct l; [congruence | simpl; lia]. }
  unfold Rmean, Rdiv.
  pose proof (Rinv_0_lt_compat _ Hn) as Hinv.
  assert (Hone : (INR (List.length l) * / INR (List.length l) = 1)%R)
    by (apply Rinv_r; lra).
  assert (Ha : (INR (List.length l) * a * / INR (List.length l) = a)%R)
    by (rewrite (Rmult_comm _ a), Rmult_assoc, Hone; ring).
  assert (Hb : (INR (List.length l) * b * / INR (List.length l) = b)%R)
    by (rewrite (Rmult_comm _ b), Rmult_assoc, Hone; ring).
  pose proof (Rmult_le_compat_r _ _ _ (Rlt_le _ _ Hinv) Hlo) as H1.
  pose proof (Rmult_le_compat_r _ _ _ (Rlt_le _ _ Hinv) Hhi) as H2.
  rewrite Ha in H1. rewrite Hb in H2. split; assumption.
Qed.

Lemma observed_In (l : series) (v : R) : In v (observed l) <-> In (Some v) l.
Proof.
  unfold observed. rewrite in_flat_map. split.
  - intros [[x|] [Hin Hx]]; [|contradiction].
    destruct Hx as [->|[]]. exact Hin.
  - intros Hin. exists (Some v). split; [exact Hin | now left].
Qed.

Lemma window_cells_In (w : Z) (data : series) (i : nat) (x : option R) :
  In x (window_cells w data i) -> In x data.
Proof.
  unfold window_cells. destruct (window_bounds w (List.length data) i) as [s e].
  intros Hin.
  rewrite <- (firstn_skipn s data). apply in_or_app. right.
  rewrite <- (firstn_skipn (e - s) (skipn s data)). apply in_or_app.
  now left.
Qed.

(** X10.  The smoother does not leave the range of the data: when every
    value of the series lies between [a] and [b], so does every smoothed
    value. *)
Theorem smoothed_within_range (norm_ppf : R -> R) (data : series) (w : Z)
  (c a b : R) (smoothed lower upper : series) (i : nat) (s : R) :
  (forall v, In (Some v) data -> (a <= v <= b)%R) ->
  smooth_data_with_confidence norm_ppf data w c
    = Ok (smoothed, lower, upper) ->
  nth i smoothed None = Some s ->
  (a <= s <= b)%R.
Proof.
  intros Hrange Hok Hs.
  assert (Hw : 1 <= w).
  { unfold smooth_data_with_confidence in Hok.
    destruct (Z.ltb_spec w 1); [discriminate | assumption]. }
  destruct (smooth_positions norm_ppf data w c Hw)
    as [sm [lo [up [Hok' [Hlen [_ [_ Hpos]]]]]]].
  rewrite Hok in Hok'. injection Hok' as <- <- <-.
  assert (Hi : (i < List.length data)%nat).
  { destruct (Nat.lt_ge_cases i (List.length data)) as [|Hge]; [assumption|].
    rewrite nth_overflow in Hs by lia. discriminate. }
  destruct (Hpos i Hi) as [Hs' _]. rewrite Hs in Hs'.
  unfold rolling_mean_at in Hs'.
  destruct (_ && _) eqn:Hc in Hs'; [|discriminate].
  injection Hs' as ->.
  apply andb_true_iff in Hc. destruct Hc as [_ Hpos0].
  apply Z.ltb_lt in Hpos0.
  apply Rmean_bounds.
  - intros He. rewrite He in Hpos0. simpl in Hpos0. lia.
  - apply Forall_forall. intros v Hv. apply Hrange.
    apply observed_In in Hv. now apply window_cells_In in Hv.
Qed.

Lemma smoothed_within_range_witness :
  exists smoothed lower upper s,
    smooth_data_with_confidence sample_ppf
      [Some 1%R; None; Some 6%R] 3 (95 / 100)%R
      = Ok (smoothed, lower, upper) /\
    nth 1 smoothed None = Some s /\
    (1 <= s <= 6)%R.
Proof.
  do 4 eexists.
  split; [reflexivity|]. split; [reflexivity|].
  eapply (smoothed_within_range sample_ppf
            [Some 1%R; None; Some 6%R] 3 (95 / 100)%R 1%R 6%R _ _ _ 1%nat).
  - intros v [Hv|[Hv|[Hv|[]]]]; try discriminate;
      injection Hv as <-; lra.
  - reflexivity.
  - reflexivity.
Defined.

Lemma Rsum_zero (l : list R) :
  Forall (fun x => x = 0%R) l -> Rsum l = 0%R.
Proof.
  induction 1 as [|x l Hx _ IH]; [reflexivity|].
  change (Rsum (x :: l)) with (x + Rsum l)%R. lra.
Qed.

Lemma Rvar_constant (l : list R) (v : R) :
  l <> [] -> Forall (fun x => x = v) l -> Rmean l = v /\ Rvar l = 0%R.
Proof.
  intros Hne Hall.
  assert (Hm : Rmean l = v).
  { apply Rle_antisym; apply (Rmean_bounds l v v Hne);
      (eapply Forall_impl; [|exact Hall]); intros x ->; lra. }
  split; [exact Hm|]. unfold Rvar. rewrite Hm.
  rewrite Rsum_zero; [unfold Rdiv; apply Rmult_0_l|].
  apply Forall_map. eapply Forall_impl; [|exact Hall].
  intros x ->. cbv beta. lra.
Qed.

(** X11.  A series that holds one value only, with or without gaps, is a
    fixed point of the smoother: wherever a smoothed value, a lower bound
    or an upper bound exists it is that value, so the confidence band has
    width zero. *)
Theorem constant_series_fixed (norm_ppf : R -> R) (data : series) (w : Z)
  (c v : R) (smoothed lower upper : series) (i : nat) :
  (forall x, In (Some x) data -> x = v) ->
  smooth_data_with_confidence norm_ppf data w c
    = Ok (smoothed, lower, upper) ->
  (forall s, nth i smoothed None = Some s -> s = v) /\
  (forall l, nth i lower None = Some l -> l = v) /\
  (forall u, nth i upper None = Some u -> u = v).
Proof.
  intros Hconst Hok.
  assert (Hw : 1 <= w).
  { unfold smooth_data_with_confidence in Hok.
    destruct (Z.ltb_spec w 1); [discriminate | assumption]. }
  destruct (smooth_positions norm_ppf data w c Hw)
    as [sm [lo [up [Hok' [Hl1 [Hl2 [Hl3 Hpos]]]]]]].
  rewrite Hok in Hok'. injection Hok' as <- <- <-.
  destruct (Nat.lt_ge_cases i (List.length data)) as [Hi|Hge].
  2:{ repeat split; intros x Hx; rewrite nth_overflow in Hx by lia;
        discriminate. }
  destruct (Hpos i Hi) as [Hs [Hl Hu]]. cbv zeta in Hl, Hu.
  rewrite Hs, Hl, Hu. clear Hs Hl Hu.
  set (obs := observed (window_cells w data i)).
  assert (Hall : Forall (fun x => x = v) obs).
  { apply Forall_forall. intros x Hx. apply Hconst.
    apply observed_In in Hx. now apply window_cells_In in Hx. }
  unfold rolling_mean_at, rolling_std_at. fold obs.
  destruct (Z.ltb_spec 0 (Z.of_nat (List.length obs))) as [Hpos0|Hz].
  2:{ rewrite andb_false_r.
      repeat split; intros x Hx; cbn [lift2] in Hx; discriminate. }
  assert (Hne : obs <> []).
  { intros He. rewrite He in Hpos0. simpl in Hpos0. lia. }
  destruct (Rvar_constant obs v Hne Hall) as [Hm Hv].
  rewrite Hm, Hv, sqrt_0.
  destruct (Z.max 1 (w / 2) <=? Z.of_nat (List.length obs));
    cbn [andb]; [|repeat split; intros x Hx; cbn [lift2] in Hx; discriminate].
  split; [intros s [= <-]; reflexivity|].
  destruct (1 <? Z.of_nat (List.length obs));
    cbn [option_map lift2];
    [|split; intros x Hx; discriminate].
  split; intros x [= <-]; unfold Rdiv; lra.
Qed.

Lemma constant_series_fixed_witness :
  exists smoothed lower upper,
    smooth_data_with_confidence sample_ppf
      [Some 4%R; Some 4%R; None; Some 4%R] 3 (95 / 100)%R
      = Ok (smoothed, lower, upper) /\
    (forall s, nth 1 smoothed None = Some s -> s = 4%R) /\
    (forall l, nth 1 lower None = Some l -> l = 4%R) /\
    (forall u, nth 1 upper None = Some u -> u = 4%R).
Proof.
  do 3 eexists. split; [reflexivity|].
  eapply (constant_series_fixed sample_ppf
            [Some 4%R; Some 4%R; None; Some 4%R] 3 (95 / 100)%R 4%R
            _ _ _ 1%nat).
  - intros x [Hx|[Hx|[Hx|[Hx|[]]]]]; try discriminate;
      injection Hx as <-; reflexivity.
  - reflexivity.
Defined.

(* ------------------------------------------------------------------ *)
(** ** The peak-hour shading of the charts *)
(* ------------------------------------------------------------------ *)

Lemma day_pos : 0 < day.
Proof. reflexivity. Qed.

Lemma floor_d_spec (t : Z) :
  floor_d t <= t < floor_d t + day /\ floor_d t mod day = 0.
Proof.
  unfold floor_d. pose proof day_pos as Hp.
  pose proof (Z.div_mod t day ltac:(lia)).
  pose proof (Z.mod_pos_bound t day Hp).
  split; [lia | apply Z.mod_mul; lia].
Qed.

Lemma ceil_d_ge (t : Z) : t <= ceil_d t.
Proof.
  unfold ceil_d. pose proof day_pos as Hp.
  pose proof (Z.div_mod (- t) day ltac:(lia)).
  pose proof (Z.mod_pos_bound (- t) day Hp). lia.
Qed.

(** More fuel changes nothing once the loop has come to its end. *)
Lemma peak_loop_fuel (fuel : nat) (cur stop lo hi : Z) (spans : list (Z * Z)) :
  peak_loop fuel cur stop lo hi = Some spans ->
  peak_loop (S fuel) cur stop lo hi = Some spans.
Proof.
  revert cur spans. induction fuel as [|fuel IH]; intros cur spans Hrun.
  - cbn [peak_loop] in *. destruct (cur <=? stop); [discriminate | exact Hrun].
  - remember (S fuel) as f eqn:Hf. cbn [peak_loop]. subst f.
    cbn [peak_loop] in Hrun.
    destruct (cur <=? stop); [|exact Hrun].
    destruct (peak_loop fuel (cur + day) stop lo hi) as [later|] eqn:Hl;
      [|discriminate].
    rewrite (IH _ _ Hl). exact Hrun.
Qed.

Lemma peak_loop_more_fuel (fuel extra : nat) (cur stop lo hi : Z)
  (spans : list (Z * Z)) :
  peak_loop fuel cur stop lo hi = Some spans ->
  peak_loop (extra + fuel) cur stop lo hi = Some spans.
Proof.
  intros Hrun. induction extra as [|extra IH]; [exact Hrun|].
  now apply peak_loop_fuel.
Qed.

(** The spans of a run with enough fuel: one for each day of the range
    whose peak hours meet the time axis. *)
Lemma peak_loop_spans (fuel : nat) (cur stop lo hi : Z) :
  stop - cur < Z.of_nat fuel * day ->
  exists spans,
    peak_loop fuel cur stop lo hi = Some spans /\
    forall a b,
      In (a, b) spans <->
      exists k, 0 <= k /\ cur + k * day <= stop /\
                lo <= cur + k * day + 18 * hour /\
                cur + k * day + 6 * hour <= hi /\
                a = Z.max (cur + k * day + 6 * hour) lo /\
                b = Z.min (cur + k * day + 18 * hour) hi.
Proof.
  pose proof day_pos as Hp.
  revert cur. induction fuel as [|fuel IH]; intros cur Hfuel.
  - cbn [peak_loop]. destruct (Z.leb_spec cur stop) as [Hle|Hgt]; [lia|].
    exists []. split; [reflexivity|]. intros a b. split; [intros []|].
    intros [k [Hk [Hstop _]]]. nia.
  - cbn [peak_loop]. destruct (Z.leb_spec cur stop) as [Hle|Hgt].
    + destruct (IH (cur + day) ltac:(lia)) as [later [Hlater Hin]].
      rewrite Hlater. eexists. split; [reflexivity|].
      intros a b. rewrite in_app_iff, Hin. split.
      * intros [Hhere|[k [Hk [Hstop [Hlo [Hhi [Ha Hb]]]]]]].
        -- exists 0. rewrite Z.mul_0_l, Z.add_0_r.
           destruct (Z.geb_spec (cur + 18 * hour) lo) as [H1|H1];
             destruct (Z.leb_spec (cur + 6 * hour) hi) as [H2|H2];
             cbn [andb] in Hhere; try contradiction.
           destruct Hhere as [[= <- <-]|[]].
           repeat split; lia.
        -- exists (k + 1). repeat split; lia.
      * intros [k [Hk [Hstop [Hlo [Hhi [Ha Hb]]]]]].
        destruct (Z.eq_dec k 0) as [->|Hnz].
        -- left. rewrite Z.mul_0_l, Z.add_0_r in *.
           destruct (Z.geb_spec (cur + 18 * hour) lo) as [H1|H1]; [|lia].
           destruct (Z.leb_spec (cur + 6 * hour) hi) as [H2|H2]; [|lia].
           cbn [andb]. left. now subst.
        -- right. exists (k - 1). repeat split; lia.
    + exists []. split; [reflexivity|]. intros a b. split; [intros []|].
      intros [k [Hk [Hstop _]]]. nia.
Qed.

Lemma peak_fuel_enough (lo hi : Z) :
  lo <= hi ->
  ceil_d hi - floor_d lo
  < Z.of_nat (Z.to_nat ((ceil_d hi - floor_d lo) / day + 1)) * day.
Proof.
  intros Hle. pose proof day_pos as Hp.
  pose proof (floor_d_spec lo) as [[Hf _] _]. pose proof (ceil_d_ge hi) as Hc.
  pose proof (Z.div_mod (ceil_d hi - floor_d lo) day ltac:(lia)).
  pose proof (Z.mod_pos_bound (ceil_d hi - floor_d lo) day Hp).
  assert (0 <= (ceil_d hi - floor_d lo) / day) by (apply Z.div_pos; lia).
  rewrite Z2Nat.id by lia. lia.
Qed.

(** X12.  The peak-hour shading of a chart whose time axis runs from
    [min_time] to [max_time].  The loop comes to its end within one turn
    per day of the range, and more turns would add nothing.  Every span
    it shades lies on the time axis, is not reversed, and lies within the
    hours from 6:00 to 18:00 of one day; and every instant of the time
    axis whose time of day is between 6:00 and 18:00 lies in a shaded
    span. *)
Theorem peak_hours_shading (min_time max_time : Z) :
  min_time <= max_time ->
  exists spans,
    peak_spans min_time max_time = Some spans /\
    (forall extra,
       peak_loop (extra + Z.to_nat ((ceil_d max_time - floor_d min_time)
                                    / day + 1))
                 (floor_d min_time) (ceil_d max_time) min_time max_time
       = Some spans) /\
    (forall a b, In (a, b) spans ->
       min_time <= a /\ a <= b /\ b <= max_time /\
       exists d, d mod day = 0 /\ d + 6 * hour <= a /\ b <= d + 18 * hour) /\
    (forall t, min_time <= t <= max_time ->
       6 * hour <= t mod day <= 18 * hour ->
       exists a b, In (a, b) spans /\ a <= t <= b).
Proof.
  intros Hle. pose proof day_pos as Hp.
  destruct (peak_loop_spans _ (floor_d min_time) (ceil_d max_time)
              min_time max_time (peak_fuel_enough _ _ Hle))
    as [spans [Hrun Hin]].
  exists spans. split; [exact Hrun|].
  split; [intros extra; now apply peak_loop_more_fuel|].
  pose proof (floor_d_spec min_time) as [[Hf1 Hf2] Hf3].
  split.
  - intros a b Hab. apply Hin in Hab.
    destruct Hab as [k [Hk [Hstop [Hlo [Hhi [-> ->]]]]]].
    assert (Hh : 0 < hour) by reflexivity.
    split; [lia|]. split; [lia|]. split; [lia|].
    exists (floor_d min_time + k * day). split; [|lia].
    rewrite Z.add_mod, Z.mod_mul, Hf3 by lia. reflexivity.
  - intros t Ht Htod.
    pose proof (floor_d_spec t) as [[Ht1 Ht2] Ht3].
    pose proof (Z.div_mod t day ltac:(lia)) as Hdm.
    assert (Hfl : floor_d t = t - t mod day) by (unfold floor_d; lia).
    assert (Hmono : floor_d min_time <= floor_d t).
    { unfold floor_d. apply Z.mul_le_mono_nonneg_r; [lia|].
      apply Z.div_le_mono; lia. }
    assert (Hk : floor_d t = floor_d min_time
                             + (t / day - min_time / day) * day)
      by (unfold floor_d; lia).
    exists (Z.max (floor_d t + 6 * hour) min_time),
           (Z.min (floor_d t + 18 * hour) max_time).
    split; [|lia].
    apply Hin. exists (t / day - min_time / day).
    rewrite <- Hk. pose proof (ceil_d_ge max_time).
    assert (0 <= t / day - min_time / day).
    { pose proof (Z.div_le_mono min_time t day Hp ltac:(lia)). lia. }
    repeat split; lia.
Qed.

Lemma peak_hours_shading_witness :
  exists spans,
    peak_spans (eight - 4 * hour) (eight + 30 * hour) = Some spans /\
    (forall a b, In (a, b) spans ->
       eight - 4 * hour <= a /\ a <= b /\ b <= eight + 30 * hour /\
       exists d, d mod day = 0 /\ d + 6 * hour <= a /\ b <= d + 18 * hour).
Proof.
  destruct (peak_hours_shading (eight - 4 * hour) (eight + 30 * hour))
    as [spans [Hrun [_ [Hsound _]]]].
  - vm_compute. discriminate.
  - exists spans. split; [exact Hrun | exact Hsound].
Defined.

(* ------------------------------------------------------------------ *)
(** ** The series of the flow chart and of the supply and return chart *)
(* ------------------------------------------------------------------ *)

Lemma resample_grouped_frame (df : DataFrame) (min_time max_time : Z) :
  available_columns df <> [] ->
  has_column "datetime" df = true ->
  has_column "位置" df = true ->
  has_column "楼层" df = true ->
  series_min (instants (rows df)) = Some min_time ->
  series_max (instants (rows df)) = Some max_time ->
  group_keys (rows df) <> [] ->
  (forall k, In k (group_keys (rows df)) ->
             instants (group_rows k (rows df)) <> []) ->
  exists out gs,
    _resample_data df = Ok out /\
    columns out = available_columns df ++ ["位置"; "楼层"] /\
    rows out = concat_rows gs /\
    Forall2 (group_frame_ok (available_columns df)
               (timeline min_time max_time) (rows df))
            (group_keys (rows df)) gs.
Proof.
  intros Hav Hdt Hloc Hfl Hmin Hmax Hkeys Hinst.
  destruct (available_columns_no_key df) as [Hnl Hnf].
  destruct (mapM_ok
    (resample_group (available_columns df) (timeline min_time max_time) (rows df))
    (group_frame_ok (available_columns df) (timeline min_time max_time) (rows df))
    (group_keys (rows df))) as [gs [Hgs Hok]].
  { intros k Hk. apply resample_group_ok; auto. }
  pose proof (available_columns_keys_NoDup df) as Hnd.
  assert (Hcols : fold_left union_columns (map columns gs) []
                  = available_columns df ++ ["位置"; "楼层"]).
  { apply fold_union_same; [exact Hnd| |].
    - intros ->. inversion Hok. congruence.
    - clear -Hok. induction Hok as [|k g ks gs Hg _ IH]; constructor;
        [apply Hg | exact IH]. }
  unfold _resample_data.
  destruct (available_columns df) as [|c0 cols] eqn:Hc; [congruence|].
  rewrite Hdt, Hloc, Hfl, Hmin, Hmax. cbn [negb andb].
  unfold timeline in Hgs. rewrite Hgs. cbn [bind].
  destruct gs as [|g gs]; [inversion Hok; congruence|].
  eexists. exists (g :: gs). split; [reflexivity|]. cbn [concat columns rows].
  split; [exact Hcols|]. split; [reflexivity | exact Hok].
Qed.

Lemma date_range_sorted (start stop : Z) :
  StronglySorted Z.lt (date_range start stop).
Proof.
  unfold date_range. generalize (Z.to_nat ((stop - start) / hour + 1)).
  intros n. generalize 0%nat.
  induction n as [|n IH]; intros a; cbn [seq map]; constructor.
  - apply IH.
  - apply Forall_forall. intros x Hx. apply in_map_iff in Hx.
    destruct Hx as [k [<- Hk]]. apply in_seq in Hk.
    pose proof hour_pos. nia.
Qed.

Lemma insert_label_absorb (t : Z) (l : list Z) :
  StronglySorted Z.lt l -> In t l -> insert_label t l = l.
Proof.
  induction 1 as [|x l Hs IH Hx]; intros Hin; [destruct Hin|].
  cbn [insert_label]. destruct (Z.eqb_spec t x) as [|Hne]; [reflexivity|].
  destruct Hin as [->|Hin]; [congruence|].
  rewrite Forall_forall in Hx. specialize (Hx t Hin).
  destruct (Z.ltb_spec t x); [lia|]. now rewrite IH.
Qed.

Lemma insert_label_last (t : Z) (l : list Z) :
  Forall (fun x => x < t) l -> insert_label t l = l ++ [t].
Proof.
  induction 1 as [|x l Hx _ IH]; [reflexivity|].
  cbn [insert_label app]. destruct (Z.eqb_spec t x); [lia|].
  destruct (Z.ltb_spec t x); [lia|]. now rewrite IH.
Qed.

Lemma labels_fold_absorb (idx : list Z) (rs : list (Z * row)) :
  StronglySorted Z.lt idx ->
  (forall r, In r rs -> In (fst r) idx) ->
  fold_left (fun acc r => insert_label (fst r) acc) rs idx = idx.
Proof.
  intros Hs. induction rs as [|r rs IH]; intros Hall; [reflexivity|].
  cbn [fold_left]. rewrite insert_label_absorb;
    [|exact Hs | apply Hall; now left].
  apply IH. intros x Hx. apply Hall. now right.
Qed.

Lemma labels_fold_build (acc : list Z) (rs : list (Z * row)) :
  StronglySorted Z.lt (acc ++ map fst rs) ->
  fold_left (fun acc r => insert_label (fst r) acc) rs acc
  = acc ++ map fst rs.
Proof.
  revert acc. induction rs as [|r rs IH]; intros acc Hs.
  - cbn [map fold_left]. now rewrite app_nil_r.
  - cbn [map fold_left].
    assert (Hlt : Forall (fun x => x < fst r) acc).
    { clear IH. induction acc as [|a acc IHa]; [constructor|].
      cbn [app] in Hs. inversion Hs as [|? ? Hs' Ha]; subst.
      constructor; [|now apply IHa].
      rewrite Forall_forall in Ha. apply Ha. apply in_or_app. right.
      now left. }
    rewrite (insert_label_last _ _ Hlt).
    rewrite IH; rewrite <- app_assoc; [reflexivity | exact Hs].
Qed.

(** The distinct labels of a table made of blocks that all carry the same
    ascending labels are those labels. *)
Lemma index_labels_blocks (cols : list string) (idx : list Z)
  (rs : list (Z * row)) (keys : list (string * string))
  (gs : list DataFrame) :
  StronglySorted Z.lt idx ->
  keys <> [] ->
  Forall2 (group_frame_ok cols idx rs) keys gs ->
  index_labels (concat_rows gs) = idx.
Proof.
  intros Hs Hne Hok. destruct Hok as [|k g keys gs Hg Hok]; [congruence|].
  unfold index_labels, concat_rows. cbn [flat_map]. fold (concat_rows gs).
  rewrite fold_left_app.
  destruct Hg as [_ [Hidx _]].
  assert (Hblock : map fst (map (fun r => (fst r, restrict (columns g) (snd r)))
                                (rows g)) = idx)
    by (rewrite map_map; exact Hidx).
  rewrite (labels_fold_build []); cbn [app]; rewrite Hblock; [|exact Hs].
  apply labels_fold_absorb; [exact Hs|].
  intros r Hr.
  destruct (concat_rows_blocks _ _ _ _ _ Hok) as [Hlabels _].
  apply (in_map fst) in Hr. rewrite Hlabels in Hr.
  apply in_flat_map in Hr. now destruct Hr as [_ [_ Hr]].
Qed.

Lemma label_row_unique (l : list (Z * row)) (t : Z) :
  NoDup (map fst l) -> In t (map fst l) ->
  exists r, filter (fun r => fst r =? t) l = [r] /\ In r l /\ fst r = t.
Proof.
  induction l as [|x l IH]; intros Hnd Hin; [destruct Hin|].
  cbn [map] in Hnd. inversion Hnd as [|? ? Hx Hnd']; subst.
  cbn [filter]. destruct (Z.eqb_spec (fst x) t) as [He|Hne].
  - exists x. split; [|split; [now left | exact He]].
    f_equal.
    clear IH Hnd Hnd' Hin. induction l as [|y l IHl]; [reflexivity|].
    cbn [filter]. destruct (Z.eqb_spec (fst y) t) as [Hy|_].
    + exfalso. apply Hx. left. congruence.
    + apply IHl. intros Hin. apply Hx. now right.
  - destruct Hin as [Hin|Hin]; [contradiction|].
    destruct (IH Hnd' Hin) as [r [Hf [Hr Ht]]].
    exists r. split; [exact Hf|]. split; [now right | exact Ht].
Qed.

(** The cells of one timeline hour and one measurement column in the
    resampled table, block by block: the hourly means of the keys. *)
Lemma hour_cells_of_blocks (cols : list string) (idx : list Z)
  (df : DataFrame) (keys : list (string * string))
  (gs : list DataFrame) (t : Z) (c : string) :
  NoDup idx -> In t idx -> t mod hour = 0 -> mem c cols = true ->
  Forall2 (group_frame_ok cols idx (rows df)) keys gs ->
  map (fun r => snd r c) (filter (fun r => fst r =? t) (concat_rows gs))
  = map (fun k => mean (hour_cells df k t c)) keys.
Proof.
  intros Hnd Hin Hal Hc. induction 1 as [|k g keys gs Hg _ IH]; [reflexivity|].
  unfold concat_rows. cbn [flat_map]. fold (concat_rows gs).
  rewrite filter_app, map_app, IH. cbn [map]. change (?x :: ?l) with ([x] ++ l).
  f_equal.
  destruct Hg as [Hcols [Hidx Hrows]].
  destruct (label_row_unique (rows g) t) as [r [Hf [Hr Ht]]];
    [now rewrite Hidx | now rewrite Hidx|].
  assert (Hfilter :
    filter (fun r => fst r =? t)
           (map (fun r => (fst r, restrict (columns g) (snd r))) (rows g))
    = map (fun r => (fst r, restrict (columns g) (snd r)))
          (filter (fun r => fst r =? t) (rows g))).
  { clear. induction (rows g) as [|x l IHl]; [reflexivity|].
    cbn [map filter fst]. destruct (fst x =? t); cbn [map]; now rewrite IHl. }
  rewrite Hfilter, Hf. cbn [map snd]. f_equal.
  unfold restrict. rewrite Hcols, mem_app, Hc. cbn [orb].
  rewrite Forall_forall in Hrows. destruct (Hrows r Hr) as [_ [_ Hmean]].
  rewrite (Hmean c Hc), Ht. unfold hour_cells. do 2 f_equal.
  apply filter_ext. intros r'. now apply in_bucket_falls_in_hour.
Qed.

(** X13.  What the flow chart and the supply and return chart plot.  For
    a table that meets the preconditions of the grouped resampling, and a
    measurement column [c] of it, the series
    [groupby(index)[c].mean().dropna()] of the resampled table holds, for
    every hour of the global timeline in ascending order, the mean over
    the (location, floor) keys of the hourly means of the keys (each key
    weighs the same, however many readings it has; a key without a value
    in the hour is left out), and no entry for an hour in which no key
    has a value. *)
Theorem aggregate_of_resampled (df : DataFrame) (min_time max_time : Z)
  (c : string) :
  In c (available_columns df) ->
  has_column "datetime" df = true ->
  has_column "位置" df = true ->
  has_column "楼层" df = true ->
  series_min (instants (rows df)) = Some min_time ->
  series_max (instants (rows df)) = Some max_time ->
  group_keys (rows df) <> [] ->
  (forall k, In k (group_keys (rows df)) ->
             instants (group_rows k (rows df)) <> []) ->
  exists out,
    _resample_data df = Ok out /\
    aggregate_by_time c out
    = Ok (dropna
            (map (fun t =>
                    (t, mean (map (fun k => mean (hour_cells df k t c))
                                  (group_keys (rows df)))))
                 (timeline min_time max_time))).
Proof.
  intros Hc Hdt Hloc Hfl Hmin Hmax Hkeys Hinst.
  destruct (resample_grouped_frame df min_time max_time)
    as [out [gs [Hout [Hcols [Hrows Hok]]]]]; auto.
  { intros He. rewrite He in Hc. destruct Hc. }
  exists out. split; [exact Hout|].
  unfold aggregate_by_time, groupby_index_mean, has_column.
  rewrite Hcols, mem_app.
  apply mem_In in Hc. rewrite Hc. cbn [orb bind]. rewrite Hrows.
  rewrite (index_labels_blocks _ _ _ _ _
             (date_range_sorted _ _) Hkeys Hok).
  do 2 f_equal. apply map_ext_in. intros t Ht. do 2 f_equal.
  apply hour_cells_of_blocks with (cols := available_columns df)
                                  (idx := timeline min_time max_time).
  - apply date_range_NoDup.
  - exact Ht.
  - exact (timeline_aligned _ _ _ Ht).
  - exact Hc.
  - exact Hok.
Qed.

Lemma aggregate_of_resampled_witness :
  exists out,
    _resample_data sample_readings = Ok out /\
    aggregate_by_time "室温温度(℃)" out
    = Ok [ (eight, Num (19 # 1));
           (eight + 2 * hour, Num (19 # 1));
           (eight + 3 * hour, Num (22 # 1)) ].
Proof.
  destruct (aggregate_of_resampled sample_readings eight
              (eight + 210 * minute) "室温温度(℃)")
    as [out [Hout Hagg]].
  - vm_compute. now left.
  - reflexivity.
  - reflexivity.
  - reflexivity.
  - reflexivity.
  - reflexivity.
  - discriminate.
  - intros k Hk. vm_compute in Hk.
    destruct Hk as [<-|[<-|[]]]; discriminate.
  - exists out. split; [exact Hout|]. rewrite Hagg.
    vm_compute. reflexivity.
Defined.

(* ------------------------------------------------------------------ *)
(** ** Preprocessing: the key columns *)
(* ------------------------------------------------------------------ *)

Lemma has_column_unify (target k : string) (candidates : list string)
  (default : string) (df : DataFrame) :
  has_column k (unify_column target candidates default df)
  = has_column k df || String.eqb k target.
Proof.
  unfold unify_column. destruct (find _ candidates).
  - apply has_column_setitem_series.
  - apply has_column_setitem.
Qed.

Lemma columns_unify (target : string) (candidates : list string)
  (default : string) (df : DataFrame) :
  columns (unify_column target candidates default df)
  = if has_column target df then columns df else columns df ++ [target].
Proof. unfold unify_column. now destruct (find _ candidates). Qed.

Lemma rows_unify (target : string) (candidates : list string)
  (default : string) (df : DataFrame) :
  rows_rel (fun r r' => r' = upd r target (key_source candidates default df r))
           (rows df) (rows (unify_column target candidates default df)).
Proof.
  unfold unify_column, key_source.
  destruct (find (fun col => has_column col df) candidates) as [col|].
  - apply (rows_rel_setitem_series_map target (fun r => r col)). reflexivity.
  - apply rows_rel_setitem.
Qed.

Lemma rows_astype (astype_str : cell -> cell) (c : string) (df : DataFrame) :
  rows_rel (fun r r' => r' = upd r c (astype_str (r c)))
           (rows df) (rows (astype_column astype_str c df)).
Proof.
  unfold astype_column.
  apply (rows_rel_setitem_series_map c (fun r => astype_str (r c))).
  unfold column. now rewrite map_map.
Qed.

(** X14.  Step 2 of the preprocessing.  Whatever the table, afterwards it
    has both key columns; its other columns, in their order, and its rows
    and row labels are as before, a key column that was not there being
    appended.  The location of a row is the cast of its cell in the first
    of 位置, 地点, 区域, location, area that is a column, and of the
    default text where none is; likewise the floor with 楼层, floor, 层.
    So an existing 位置 column wins over every other name.  When the cast
    yields text, every row has a (location, floor) key. *)
Theorem key_columns_unified (astype_str : cell -> cell) (df : DataFrame) :
  let out := unify_key_columns astype_str df in
  has_column "位置" out = true /\
  has_column "楼层" out = true /\
  columns out
  = columns df ++ filter (fun c => negb (has_column c df)) ["位置"; "楼层"] /\
  rows_rel
    (fun r r' =>
       r' "位置"
       = astype_str (key_source location_columns "默认位置" df r) /\
       r' "楼层" = astype_str (key_source floor_columns "1" df r) /\
       forall c, c <> "位置" -> c <> "楼层" -> r' c = r c)
    (rows df) (rows out) /\
  (has_column "位置" df = true ->
   key_source location_columns "默认位置" df = fun r => r "位置") /\
  ((forall c, exists s, astype_str c = Str s) ->
   Forall (fun r => key_of r <> None) (rows out)).
Proof.
  cbv zeta. unfold unify_key_columns.
  set (d1 := unify_column "位置" location_columns "默认位置" df).
  set (d2 := unify_column "楼层" floor_columns "1" d1).
  set (d3 := astype_column astype_str "位置" d2).
  set (d4 := astype_column astype_str "楼层" d3).
  assert (Hfloor : forall r,
            key_source floor_columns "1" d1
              (upd r "位置" (key_source location_columns "默认位置" df r))
            = key_source floor_columns "1" df r).
  { intros r. unfold key_source, floor_columns. cbn [find].
    unfold d1. rewrite !has_column_unify.
    cbn [String.eqb Ascii.eqb Bool.eqb andb]. rewrite !orb_false_r.
    destruct (has_column "楼层" df); [reflexivity|].
    destruct (has_column "floor" df); [reflexivity|].
    destruct (has_column "层" df); reflexivity. }
  assert (Hrows : rows_rel
    (fun r r' =>
       r' "位置"
       = astype_str (key_source location_columns "默认位置" df r) /\
       r' "楼层" = astype_str (key_source floor_columns "1" df r) /\
       forall c, c <> "位置" -> c <> "楼层" -> r' c = r c)
    (rows df) (rows d4)).
  { pose proof (rows_unify "位置" location_columns "默认位置" df) as H1.
    pose proof (rows_unify "楼层" floor_columns "1" d1) as H2.
    pose proof (rows_astype astype_str "位置" d2) as H3.
    pose proof (rows_astype astype_str "楼层" d3) as H4.
    fold d1 in H1. fold d2 in H2. fold d3 in H3. fold d4 in H4.
    pose proof (rows_rel_comp _ _ _ _ _
                  (rows_rel_comp _ _ _ _ _
                     (rows_rel_comp _ _ _ _ _ H1 H2) H3) H4) as Hall.
    eapply rows_rel_weaken; [|exact Hall].
    intros r r4 [r3 [[r2 [[r1 [E1 E2]] E3]] E4]]. subst r4 r3 r2 r1.
    rewrite Hfloor. unfold upd.
    cbn [String.eqb Ascii.eqb Bool.eqb andb].
    split; [reflexivity|]. split; [reflexivity|].
    intros c Hc1 Hc2.
    destruct (String.eqb_spec c "楼层"); [contradiction|].
    destruct (String.eqb_spec c "位置"); [contradiction|]. reflexivity. }
  split; [|split; [|split; [|split; [exact Hrows|split]]]].
  - unfold d4, d3, astype_column. rewrite !has_column_setitem_series.
    unfold d2, d1. rewrite !has_column_unify.
    cbn [String.eqb Ascii.eqb Bool.eqb andb].
    now rewrite !orb_true_r.
  - unfold d4, astype_column. rewrite has_column_setitem_series.
    cbn [String.eqb Ascii.eqb Bool.eqb andb]. apply orb_true_r.
  - assert (H3 : has_column "位置" d2 = true).
    { unfold d2, d1. rewrite !has_column_unify.
      cbn [String.eqb Ascii.eqb Bool.eqb andb]. now rewrite !orb_true_r. }
    assert (H4 : has_column "楼层" d3 = true).
    { unfold d3, astype_column. rewrite has_column_setitem_series.
      unfold d2. rewrite has_column_unify.
      cbn [String.eqb Ascii.eqb Bool.eqb andb]. now rewrite !orb_true_r. }
    unfold d4, astype_column, setitem_series. cbn [columns]. rewrite H4.
    unfold d3, astype_column, setitem_series. cbn [columns]. rewrite H3.
    unfold d2. rewrite columns_unify. unfold d1.
    rewrite has_column_unify, columns_unify.
    cbn [String.eqb Ascii.eqb Bool.eqb andb filter]. rewrite orb_false_r.
    destruct (has_column "位置" df), (has_column "楼层" df); cbn [negb app];
      rewrite <- ?app_assoc, ?app_nil_r; reflexivity.
  - intros Hloc. unfold key_source, location_columns. cbn [find].
    now rewrite Hloc.
  - intros Hcast.
    apply (rows_rel_Forall _ (fun r => key_of (0, r) <> None) _ _) in Hrows.
    + eapply Forall_impl; [|exact Hrows]. intros r Hr. exact Hr.
    + intros r r' [Hl [Hf _]]. unfold key_of. cbn [snd]. rewrite Hl, Hf.
      destruct (Hcast (key_source location_columns "默认位置" df r)) as [s ->].
      destruct (Hcast (key_source floor_columns "1" df r)) as [s' ->].
      discriminate.
Qed.

(* ------------------------------------------------------------------ *)
(** ** The selection of the room-temperature chart *)
(* ------------------------------------------------------------------ *)

Lemma select_rows_ok (col : string) (selected : option (list string))
  (data : DataFrame) :
  has_column col data = true ->
  exists out,
    select_rows col selected data = Ok out /\
    columns out = columns data /\
    rows out
    = filter (fun r => match snd r col with
                       | Str s => chosen selected s
                       | _ => match selected with
                              | Some (_ :: _) => false
                              | _ => true
                              end
                       end) (rows data).
Proof.
  intros Hcol. unfold select_rows.
  assert (Hall : forall f : Z * (string -> cell) -> bool,
             (forall r, f r = true) -> rows data = filter f (rows data)).
  { intros f Hf. induction (rows data) as [|r l IH]; [reflexivity|].
    cbn [filter]. rewrite Hf. now f_equal. }
  destruct selected as [[|v vs]|].
  - exists data. split; [reflexivity|]. split; [reflexivity|].
    apply Hall. intros r. now destruct (snd r col).
  - rewrite Hcol. eexists. split; [reflexivity|]. split; [reflexivity|].
    cbn [rows]. apply filter_ext. intros r. unfold isin, chosen.
    now destruct (snd r col).
  - exists data. split; [reflexivity|]. split; [reflexivity|].
    apply Hall. intros r. now destruct (snd r col).
Qed.

Lemma key_of_cells (r : Z * (string -> cell)) (k : string * string) :
  key_of r = Some k <->
  snd r "位置" = Str (fst k) /\ snd r "楼层" = Str (snd k).
Proof.
  unfold key_of. destruct k as [l f]. cbn [fst snd]. split.
  - destruct (snd r "位置"); try discriminate.
    destruct (snd r "楼层"); try discriminate. now intros [= -> ->].
  - now intros [-> ->].
Qed.

Lemma group_rows_filter (k : string * string) (p : Z * (string -> cell) -> bool)
  (b : bool) (rs : list (Z * (string -> cell))) :
  (forall r, key_of r = Some k -> p r = b) ->
  group_rows k (filter p rs) = if b then group_rows k rs else [].
Proof.
  intros Hp. unfold group_rows.
  induction rs as [|r rs IH]; [now destruct b|].
  cbn [filter].
  destruct (key_of r) as [k'|] eqn:Hk.
  - destruct (key_eqb k' k) eqn:He.
    + apply key_eqb_eq in He. subst k'. rewrite (Hp r Hk).
      destruct b.
      * cbn [filter]. rewrite Hk, key_eqb_refl. now f_equal.
      * exact IH.
    + destruct (p r); [|exact IH]. cbn [filter]. now rewrite Hk, He.
  - destruct (p r); [|exact IH]. cbn [filter]. now rewrite Hk.
Qed.

(** X15.  The room-temperature chart selects locations and floors in the
    table that was resampled as a whole.  For a table that meets the
    preconditions of the grouped resampling, the selection succeeds and
    keeps the columns; a key whose location and floor are both let
    through keeps all its rows, one per instant of the global timeline of
    all the data, selected or not; any other key loses all its rows.  A
    selection that is unset or an empty list lets everything through. *)
Theorem selection_keeps_timeline (df : DataFrame) (min_time max_time : Z)
  (selected_locations selected_floors : option (list string)) :
  available_columns df <> [] ->
  has_column "datetime" df = true ->
  has_column "位置" df = true ->
  has_column "楼层" df = true ->
  series_min (instants (rows df)) = Some min_time ->
  series_max (instants (rows df)) = Some max_time ->
  group_keys (rows df) <> [] ->
  (forall k, In k (group_keys (rows df)) ->
             instants (group_rows k (rows df)) <> []) ->
  exists out data,
    _resample_data df = Ok out /\
    apply_selection selected_locations selected_floors out = Ok data /\
    columns data = columns out /\
    (forall k,
       rows_of_key k data
       = if chosen selected_locations (fst k) && chosen selected_floors (snd k)
         then rows_of_key k out else []) /\
    (forall k, In k (group_keys (rows df)) ->
       map fst (rows_of_key k out) = timeline min_time max_time) /\
    (forall k, ~ In k (group_keys (rows df)) -> rows_of_key k out = []).
Proof.
  intros Hav Hdt Hloc Hfl Hmin Hmax Hkeys Hinst.
  destruct (resample_grouped_frame df min_time max_time)
    as [out [gs [Hout [Hcols [Hrows Hok]]]]]; auto.
  assert (Hl : has_column "位置" out = true).
  { unfold has_column. rewrite Hcols, mem_app. cbn [mem existsb].
    rewrite String.eqb_refl. cbn [orb]. apply orb_true_r. }
  assert (Hf : has_column "楼层" out = true).
  { unfold has_column. rewrite Hcols, mem_app. cbn [mem existsb].
    rewrite String.eqb_refl. rewrite !orb_true_r. reflexivity. }
  destruct (select_rows_ok "位置" selected_locations out Hl)
    as [d1 [Hd1 [Hc1 Hr1]]].
  assert (Hf1 : has_column "楼层" d1 = true)
    by (unfold has_column; rewrite Hc1; exact Hf).
  destruct (select_rows_ok "楼层" selected_floors d1 Hf1)
    as [d2 [Hd2 [Hc2 Hr2]]].
  exists out, d2. split; [exact Hout|].
  split; [unfold apply_selection; rewrite Hd1; cbn [bind]; exact Hd2|].
  split; [congruence|].
  split; [|split].
  - intros k. unfold rows_of_key. rewrite Hr2, Hr1.
    rewrite (group_rows_filter k _ (chosen selected_floors (snd k))).
    2:{ intros r Hr. apply key_of_cells in Hr. destruct Hr as [_ Hfr].
        now rewrite Hfr. }
    rewrite (group_rows_filter k _ (chosen selected_locations (fst k))).
    2:{ intros r Hr. apply key_of_cells in Hr. destruct Hr as [Hlr _].
        now rewrite Hlr. }
    destruct (chosen selected_locations (fst k)),
             (chosen selected_floors (snd k)); reflexivity.
  - intros k Hk.
    destruct (rows_of_key_concat _ _ _ _ _ k Hok (group_keys_NoDup _))
      as [Hin _].
    destruct (Hin Hk) as [g [_ [[_ [Hidx _]] Heq]]].
    unfold rows_of_key. rewrite Hrows, Heq, map_map. exact Hidx.
  - intros k Hk.
    destruct (rows_of_key_concat _ _ _ _ _ k Hok (group_keys_NoDup _))
      as [_ Hnot].
    unfold rows_of_key. rewrite Hrows. exact (Hnot Hk).
Qed.

Lemma selection_keeps_timeline_witness :
  exists out data,
    _resample_data sample_readings = Ok out /\
    apply_selection (Some ["L2"]) (Some []) out = Ok data /\
    map fst (rows_of_key ("L2", "2") data)
    = timeline eight (eight + 210 * minute) /\
    rows_of_key ("L1", "1") data = [].
Proof.
  destruct (selection_keeps_timeline sample_readings eight
              (eight + 210 * minute) (Some ["L2"]) (Some []))
    as [out [data [Hout [Hsel [_ [Hkeep [Hline _]]]]]]].
  - discriminate.
  - reflexivity.
  - reflexivity.
  - reflexivity.
  - reflexivity.
  - reflexivity.
  - discriminate.
  - intros k Hk. vm_compute in Hk.
    destruct Hk as [<-|[<-|[]]]; discriminate.
  - exists out, data. split; [exact Hout|]. split; [exact Hsel|].
    split.
    + rewrite (Hkeep ("L2", "2")). cbn [fst snd].
      change (chosen (Some ["L2"]) "L2" && chosen (Some []) "2") with true.
      cbv iota. apply Hline. vm_compute. right. now left.
    + rewrite (Hkeep ("L1", "1")). reflexivity.
Defined.

(* ------------------------------------------------------------------ *)
(** ** The resampler does not depend on the order of the rows *)
(* ------------------------------------------------------------------ *)

Lemma Permutation_filter_rows {A : Type} (f : A -> bool) (l l' : list A) :
  Permutation l l' -> Permutation (filter f l) (filter f l').
Proof.
  induction 1 as [|x l l' _ IH|x y l|l1 l2 l3 _ IH1 _ IH2].
  - constructor.
  - cbn [filter]. destruct (f x); [now constructor | exact IH].
  - cbn [filter]. destruct (f x), (f y);
      try apply Permutation_refl. apply perm_swap.
  - eapply Permutation_trans; eassumption.
Qed.

Lemma fold_min_In (l : list Z) (x : Z) : In (fold_left Z.min l x) (x :: l).
Proof.
  revert x. induction l as [|a l IH]; intros x; [now left|].
  cbn [fold_left]. destruct (IH (Z.min x a)) as [He|Hin].
  - rewrite <- He. destruct (Z.min_spec x a) as [[_ ->]|[_ ->]];
      [now left | right; now left].
  - right. now right.
Qed.

Lemma fold_max_In (l : list Z) (x : Z) : In (fold_left Z.max l x) (x :: l).
Proof.
  revert x. induction l as [|a l IH]; intros x; [now left|].
  cbn [fold_left]. destruct (IH (Z.max x a)) as [He|Hin].
  - rewrite <- He. destruct (Z.max_spec x a) as [[_ ->]|[_ ->]];
      [right; now left | now left].
  - right. now right.
Qed.

Lemma series_min_Permutation (l l' : list Z) :
  Permutation l l' -> series_min l = series_min l'.
Proof.
  intros Hp. destruct l as [|x l], l' as [|x' l'].
  - reflexivity.
  - apply Permutation_nil in Hp. discriminate.
  - apply Permutation_sym, Permutation_nil in Hp. discriminate.
  - cbn [series_min]. f_equal.
    pose proof (fold_min_In l x) as H1. pose proof (fold_min_In l' x') as H2.
    apply (Permutation_in _ Hp) in H1.
    apply (Permutation_in _ (Permutation_sym Hp)) in H2.
    pose proof (series_min_le (x :: l) _ _ eq_refl H2).
    pose proof (series_min_le (x' :: l') _ _ eq_refl H1). lia.
Qed.

Lemma series_max_Permutation (l l' : list Z) :
  Permutation l l' -> series_max l = series_max l'.
Proof.
  intros Hp. destruct l as [|x l], l' as [|x' l'].
  - reflexivity.
  - apply Permutation_nil in Hp. discriminate.
  - apply Permutation_sym, Permutation_nil in Hp. discriminate.
  - cbn [series_max]. f_equal.
    pose proof (fold_max_In l x) as H1. pose proof (fold_max_In l' x') as H2.
    apply (Permutation_in _ Hp) in H1.
    apply (Permutation_in _ (Permutation_sym Hp)) in H2.
    pose proof (series_max_ge (x :: l) _ _ eq_refl H2).
    pose proof (series_max_ge (x' :: l') _ _ eq_refl H1). lia.
Qed.

Lemma instants_Permutation (rs rs' : list (Z * (string -> cell))) :
  Permutation rs rs' -> Permutation (instants rs) (instants rs').
Proof. intros Hp. unfold instants. now apply Permutation_flat_map. Qed.

Lemma Qsum_Permutation (l l' : list Q) :
  Permutation l l' -> (Qsum l == Qsum l')%Q.
Proof.
  induction 1 as [|x l l' _ IH|x y l|l1 l2 l3 _ IH1 _ IH2].
  - reflexivity.
  - cbn [Qsum fold_right]. fold (Qsum l). fold (Qsum l'). now rewrite IH.
  - cbn [Qsum fold_right]. fold (Qsum l). ring.
  - now rewrite IH1.
Qed.

(** The mean of a bucket does not depend on the order of its cells. *)
Lemma mean_Permutation (l l' : list cell) :
  Permutation l l' -> mean l = mean l'.
Proof.
  intros Hp.
  assert (Hn : Permutation (numbers l) (numbers l'))
    by (unfold numbers; now apply Permutation_flat_map).
  unfold mean.
  destruct (numbers l) as [|q qs] eqn:E, (numbers l') as [|q' qs'] eqn:E'.
  - reflexivity.
  - apply Permutation_nil in Hn. discriminate.
  - apply Permutation_sym, Permutation_nil in Hn. discriminate.
  - f_equal. apply Qred_complete.
    rewrite (Qsum_Permutation _ _ Hn), (Permutation_length Hn). reflexivity.
Qed.

Lemma sorted_keys_unique (l l' : list (string * string)) :
  StronglySorted key_lt l -> StronglySorted key_lt l' ->
  (forall k, In k l <-> In k l') -> l = l'.
Proof.
  intros Hs. revert l'.
  induction Hs as [|x l Hs IH Hx]; intros l' Hs' Hsame.
  - destruct l' as [|y l']; [reflexivity|].
    destruct (proj2 (Hsame y) (or_introl eq_refl)).
  - destruct Hs' as [|y l' Hs' Hy].
    + destruct (proj1 (Hsame x) (or_introl eq_refl)).
    + rewrite Forall_forall in Hx, Hy.
      assert (Hxy : x = y).
      { destruct (proj1 (Hsame x) (or_introl eq_refl)) as [|Hin]; [congruence|].
        destruct (proj2 (Hsame y) (or_introl eq_refl)) as [|Hin']; [congruence|].
        exfalso. apply (key_lt_irrefl x).
        eapply key_lt_trans; [apply Hx; exact Hin' | apply Hy; exact Hin]. }
      subst y. f_equal. apply IH; [exact Hs'|].
      intros k. split; intros Hk.
      * destruct (proj1 (Hsame k) (or_intror Hk)) as [<-|]; [|assumption].
        exfalso. exact (key_lt_irrefl _ (Hx _ Hk)).
      * destruct (proj2 (Hsame k) (or_intror Hk)) as [<-|]; [|assumption].
        exfalso. exact (key_lt_irrefl _ (Hy _ Hk)).
Qed.

Lemma group_keys_Permutation (rs rs' : list (Z * (string -> cell))) :
  Permutation rs rs' -> group_keys rs = group_keys rs'.
Proof.
  intros Hp. apply sorted_keys_unique; try apply group_keys_sorted.
  intros k. rewrite !group_keys_In.
  split; apply Permutation_in; [|apply Permutation_sym];
    now apply Permutation_map.
Qed.

Lemma group_rows_Permutation (k : string * string)
  (rs rs' : list (Z * (string -> cell))) :
  Permutation rs rs' -> Permutation (group_rows k rs) (group_rows k rs').
Proof. apply Permutation_filter_rows. Qed.

(** Two runs of the loop over the same keys, on the same rows in two
    orders, give the same rows, cell by cell. *)
Lemma concat_rows_Permutation (cols : list string) (idx : list Z)
  (rs rs' : list (Z * (string -> cell))) (keys : list (string * string))
  (gs gs' : list DataFrame) :
  Permutation rs rs' ->
  Forall2 (group_frame_ok cols idx rs) keys gs ->
  Forall2 (group_frame_ok cols idx rs') keys gs' ->
  rows_rel (fun r r' => forall c, r' c = r c)
           (concat_rows gs) (concat_rows gs').
Proof.
  intros Hp Hok. revert gs'.
  induction Hok as [|k g keys gs Hg _ IH]; intros gs' Hok';
    inversion Hok' as [|? g' ? gs0 Hg' Hrest]; subst; [constructor|].
  unfold concat_rows. cbn [flat_map]. fold (concat_rows gs) (concat_rows gs0).
  apply Forall2_app; [|now apply IH].
  destruct Hg as [Hcols [Hidx Hrows]]. destruct Hg' as [Hcols' [Hidx' Hrows']].
  rewrite Hcols, Hcols'. rewrite <- Hidx' in Hidx. clear Hidx' IH Hok' Hrest.
  revert Hidx Hrows Hrows'. generalize (rows g) (rows g').
  induction l as [|r l IHl]; intros [|r' l'] Hidx Hr Hr';
    try discriminate; [constructor|].
  cbn [map] in *. injection Hidx as Hfst Hidx.
  inversion Hr as [|? ? [Hl1 [Hf1 Hm1]] Hr1]; subst.
  inversion Hr' as [|? ? [Hl2 [Hf2 Hm2]] Hr2]; subst.
  constructor; [|now apply IHl].
  cbn [fst snd]. split; [congruence|].
  intros c. unfold restrict. rewrite mem_app.
  destruct (mem c cols) eqn:Hc; cbn [orb].
  - rewrite (Hm1 c Hc), (Hm2 c Hc), Hfst. apply mean_Permutation.
    apply Permutation_map, Permutation_filter_rows, Permutation_sym.
    now apply group_rows_Permutation.
  - cbn [mem existsb]. rewrite orb_false_r.
    destruct (String.eqb_spec c "位置") as [->|_]; [cbn [orb]; congruence|].
    destruct (String.eqb_spec c "楼层") as [->|_]; [cbn [orb]; congruence|].
    reflexivity.
Qed.

(** X16.  The resampled table does not depend on the order of the rows
    it is given, so not on how the sort before it orders rows that share
    an instant: two tables with the same columns and the same rows in two
    orders, meeting the preconditions of the grouped resampling, are
    resampled to tables with the same columns, the same row labels in the
    same order, and the same cells (the means being exact). *)
Theorem resample_order_independent (df df' : DataFrame)
  (min_time max_time : Z) :
  columns df' = columns df ->
  Permutation (rows df) (rows df') ->
  available_columns df <> [] ->
  has_column "datetime" df = true ->
  has_column "位置" df = true ->
  has_column "楼层" df = true ->
  series_min (instants (rows df)) = Some min_time ->
  series_max (instants (rows df)) = Some max_time ->
  group_keys (rows df) <> [] ->
  (forall k, In k (group_keys (rows df)) ->
             instants (group_rows k (rows df)) <> []) ->
  exists out out',
    _resample_data df = Ok out /\
    _resample_data df' = Ok out' /\
    columns out' = columns out /\
    rows_rel (fun r r' => forall c, r' c = r c) (rows out) (rows out').
Proof.
  intros Hcols Hp Hav Hdt Hloc Hfl Hmin Hmax Hkeys Hinst.
  assert (Hhas : forall c, has_column c df' = has_column c df)
    by (intros c; unfold has_column; now rewrite Hcols).
  assert (Hav' : available_columns df' = available_columns df).
  { unfold available_columns. apply filter_ext. exact Hhas. }
  pose proof (group_keys_Permutation _ _ Hp) as Hk.
  destruct (resample_grouped_frame df min_time max_time)
    as [out [gs [Hout [Hc [Hrows Hok]]]]]; auto.
  destruct (resample_grouped_frame df' min_time max_time)
    as [out' [gs' [Hout' [Hc' [Hrows' Hok']]]]].
  - now rewrite Hav'.
  - now rewrite Hhas.
  - now rewrite Hhas.
  - now rewrite Hhas.
  - rewrite <- Hmin. symmetry.
    now apply series_min_Permutation, instants_Permutation.
  - rewrite <- Hmax. symmetry.
    now apply series_max_Permutation, instants_Permutation.
  - now rewrite <- Hk.
  - intros k Hin He. rewrite <- Hk in Hin. apply (Hinst k Hin).
    pose proof (instants_Permutation _ _ (group_rows_Permutation k _ _ Hp))
      as Hpi.
    rewrite He in Hpi. now apply Permutation_sym, Permutation_nil in Hpi.
  - exists out, out'. split; [exact Hout|]. split; [exact Hout'|].
    split; [rewrite Hc, Hc', Hav'; reflexivity|].
    rewrite Hrows, Hrows'. rewrite Hav', <- Hk in Hok'.
    exact (concat_rows_Permutation _ _ _ _ _ _ _ Hp Hok Hok').
Qed.

Lemma resample_order_independent_witness :
  exists out out',
    _resample_data sample_readings = Ok out /\
    _resample_data {| columns := columns sample_readings;
                      rows := rev (rows sample_readings) |} = Ok out' /\
    columns out' = columns out /\
    rows_rel (fun r r' => forall c, r' c = r c) (rows out) (rows out').
Proof.
  apply (resample_order_independent sample_readings
           {| columns := columns sample_readings;
              rows := rev (rows sample_readings) |}
           eight (eight + 210 * minute)).
  - reflexivity.
  - apply Permutation_rev.
  - discriminate.
  - reflexivity.
  - reflexivity.
  - reflexivity.
  - reflexivity.
  - reflexivity.
  - discriminate.
  - intros k Hk. vm_compute in Hk.
    destruct Hk as [<-|[<-|[]]]; discriminate.
Defined.

(* ------------------------------------------------------------------ *)
(** ** The series of the room-temperature chart *)
(* ------------------------------------------------------------------ *)

Lemma labelled_cells (l : list (Z * (string -> cell))) (idx : list Z)
  (c : string) (F : Z -> cell) :
  map fst l = idx ->
  Forall (fun r => snd r c = F (fst r)) l ->
  map (fun r => (fst r, snd r c)) l = map (fun t => (t, F t)) idx.
Proof.
  intros <- Hall. rewrite map_map.
  induction Hall as [|r l Hr _ IH]; [reflexivity|].
  cbn [map]. now rewrite Hr, IH.
Qed.

Lemma dropna_length (F : Z -> cell) (l : list Z) :
  List.length (dropna (map (fun t => (t, F t)) l))
  = List.length (filter (fun t => notna (F t)) l).
Proof.
  unfold dropna. induction l as [|t l IH]; [reflexivity|].
  cbn [map filter snd].
  destruct (notna (F t)); cbn [List.length]; now rewrite IH.
Qed.

(** X17.  What the room-temperature chart draws for one key.  For a
    table that meets the preconditions of the grouped resampling, a
    measurement column [c] and a (location, floor) key of the table, the
    series selected by the mask on the two key columns and [dropna()]
    holds, in timeline order, the hourly mean of the key for every hour
    of the global timeline in which the key has a value, and nothing
    else; so its length is the number of such hours. *)
Theorem key_series_of_resampled (df : DataFrame) (min_time max_time : Z)
  (c : string) (k : string * string) :
  In c (available_columns df) ->
  has_column "datetime" df = true ->
  has_column "位置" df = true ->
  has_column "楼层" df = true ->
  series_min (instants (rows df)) = Some min_time ->
  series_max (instants (rows df)) = Some max_time ->
  In k (group_keys (rows df)) ->
  (forall k, In k (group_keys (rows df)) ->
             instants (group_rows k (rows df)) <> []) ->
  exists out,
    _resample_data df = Ok out /\
    key_series c k out
    = dropna (map (fun t => (t, mean (hour_cells df k t c)))
                  (timeline min_time max_time)) /\
    List.length (key_series c k out)
    = List.length (filter (fun t => notna (mean (hour_cells df k t c)))
                          (timeline min_time max_time)).
Proof.
  intros Hc Hdt Hloc Hfl Hmin Hmax Hk Hinst.
  destruct (resampled_key_rows df min_time max_time) as [out [Hout Hkeys]];
    auto.
  - intros He. rewrite He in Hc. destruct Hc.
  - exists k. now apply group_keys_In.
  - intros k' Hk'. apply Hinst. now apply group_keys_In.
  - exists out. split; [exact Hout|].
    destruct (Hkeys k (proj1 (group_keys_In _ _) Hk)) as [Hidx Hcells].
    assert (Heq : key_series c k out
                  = dropna (map (fun t => (t, mean (hour_cells df k t c)))
                                (timeline min_time max_time))).
    { unfold key_series. f_equal.
      apply (labelled_cells _ _ c (fun t => mean (hour_cells df k t c)));
        [exact Hidx|].
      eapply Forall_impl; [|exact Hcells]. intros r Hr. now apply Hr. }
    split; [exact Heq|]. rewrite Heq.
    apply (dropna_length (fun t => mean (hour_cells df k t c))).
Qed.

Lemma key_series_of_resampled_witness :
  exists out,
    _resample_data sample_readings = Ok out /\
    key_series "室温温度(℃)" ("L2", "2") out
    = [ (eight, Num (18 # 1)); (eight + 2 * hour, Num (19 # 1)) ].
Proof.
  destruct (key_series_of_resampled sample_readings eight
              (eight + 210 * minute) "室温温度(℃)" ("L2", "2"))
    as [out [Hout [Hser _]]].
  - vm_compute. now left.
  - reflexivity.
  - reflexivity.
  - reflexivity.
  - reflexivity.
  - reflexivity.
  - vm_compute. right. now left.
  - intros k Hk. vm_compute in Hk.
    destruct Hk as [<-|[<-|[]]]; discriminate.
  - exists out. split; [exact Hout|]. rewrite Hser.
    vm_compute. reflexivity.
Defined.

(* ------------------------------------------------------------------ *)
(** ** Preprocessing: the date range *)
(* ------------------------------------------------------------------ *)

Lemma filter_all {A : Type} (l : list A) : filter (fun _ => true) l = l.
Proof. induction l as [|a l IH]; [reflexivity|]. cbn [filter]. now f_equal. Qed.

Lemma instants_filter_mask (p : Z -> bool) (q : Z * (string -> cell) -> bool)
  (rs : list (Z * (string -> cell))) :
  (forall r, q r = match instant_of r with Some t => p t | None => false end) ->
  instants (filter q rs) = filter p (instants rs) /\
  Forall (fun r => has_instant r = true) (filter q rs).
Proof.
  intros Hq. induction rs as [|r rs [IH1 IH2]]; [split; [reflexivity|constructor]|].
  cbn [filter]. unfold instants in *. cbn [flat_map].
  rewrite Hq. unfold has_instant.
  destruct (instant_of r) as [t|] eqn:Ht.
  - cbn [app filter]. destruct (p t).
    + cbn [flat_map]. rewrite Ht. cbn [app]. split; [now f_equal|].
      constructor; [now rewrite Ht | exact IH2].
    + now split.
  - cbn [app]. now split.
Qed.

(** X18.  Step 4 of the preprocessing.  The date range keeps the columns
    and keeps rows in their order; the instants that remain are those of
    the table that lie in the range, bounds included; once a bound is
    configured, a row without an instant is dropped, and without any
    bound nothing is.  When no instant of the table lies in the
    configured range, the resampling that follows fails on the empty
    time range instead of returning an empty table. *)
Theorem date_range_filter (start_date end_date : option Z) (df : DataFrame) :
  let out := filter_date_range start_date end_date df in
  columns out = columns df /\
  (exists mask, rows out = filter mask (rows df)) /\
  instants (rows out)
  = filter (in_date_range start_date end_date) (instants (rows df)) /\
  (start_date <> None \/ end_date <> None ->
   Forall (fun r => has_instant r = true) (rows out)) /\
  (start_date = None -> end_date = None -> out = df) /\
  (available_columns df <> [] -> has_column "datetime" df = true ->
   (forall t, In t (instants (rows df)) ->
              in_date_range start_date end_date t = false) ->
   _resample_data out = Err DateRangeNaT).
Proof.
  cbv zeta.
  assert (Hcols : columns (filter_date_range start_date end_date df)
                  = columns df)
    by (unfold filter_date_range; destruct start_date, end_date; reflexivity).
  assert (Hmask : forall r : Z * (string -> cell),
            (match snd r "datetime" with
             | Stamp t => Some t | _ => None end) = instant_of r)
    by reflexivity.
  assert (Hinst : instants (rows (filter_date_range start_date end_date df))
                  = filter (in_date_range start_date end_date)
                           (instants (rows df)) /\
                  (start_date <> None \/ end_date <> None ->
                   Forall (fun r => has_instant r = true)
                          (rows (filter_date_range start_date end_date df)))).
  { unfold filter_date_range, in_date_range, boolean_index.
    destruct start_date as [s|], end_date as [e|]; cbn [rows].
    - destruct (instants_filter_mask (fun t => (s <=? t) && (t <=? e))
                  (fun r => ge_instant s (snd r "datetime")
                            && le_instant e (snd r "datetime")) (rows df))
        as [H1 H2]; [|split; [exact H1 | intros _; exact H2]].
      intros r. unfold instant_of, ge_instant, le_instant.
      now destruct (snd r "datetime").
    - destruct (instants_filter_mask (fun t => (s <=? t) && true)
                  (fun r => ge_instant s (snd r "datetime")) (rows df))
        as [H1 H2]; [|split; [exact H1 | intros _; exact H2]].
      intros r. unfold instant_of, ge_instant.
      destruct (snd r "datetime"); try reflexivity. now rewrite andb_true_r.
    - destruct (instants_filter_mask (fun t => true && (t <=? e))
                  (fun r => le_instant e (snd r "datetime")) (rows df))
        as [H1 H2]; [|split; [exact H1 | intros _; exact H2]].
      intros r. unfold instant_of, le_instant.
      now destruct (snd r "datetime").
    - split; [|intros [Hn|Hn]; congruence].
      cbn [andb]. symmetry. apply filter_all. }
  destruct Hinst as [Hinst Hdrop].
  split; [exact Hcols|].
  split.
  { unfold filter_date_range, boolean_index.
    destruct start_date, end_date; cbn [rows]; eauto.
    exists (fun _ => true). symmetry. apply filter_all. }
  split; [exact Hinst|]. split; [exact Hdrop|].
  split; [intros -> ->; reflexivity|].
  intros Hav Hdt Hnone.
  assert (Hempty : instants (rows (filter_date_range start_date end_date df))
                   = []).
  { rewrite Hinst. revert Hnone. generalize (instants (rows df)).
    induction l as [|t l IH]; intros Hnone; [reflexivity|].
    cbn [filter]. rewrite (Hnone t (or_introl eq_refl)).
    apply IH. intros x Hx. apply Hnone. now right. }
  unfold _resample_data.
  assert (Hav' : available_columns (filter_date_range start_date end_date df)
                 = available_columns df).
  { unfold available_columns. apply filter_ext. intros c.
    unfold has_column. now rewrite Hcols. }
  rewrite Hav'. destruct (available_columns df) as [|c0 cs]; [congruence|].
  unfold has_column in *. rewrite Hcols, Hdt, Hempty. reflexivity.
Qed.

Lemma date_range_filter_witness :
  _resample_data
    (filter_date_range (Some (eight + 24 * hour)) None sample_readings)
  = Err DateRangeNaT.
Proof.
  apply (date_range_filter (Some (eight + 24 * hour)) None sample_readings).
  - discriminate.
  - reflexivity.
  - intros t Ht. vm_compute in Ht.
    repeat (destruct Ht as [<-|Ht]; [reflexivity|]). destruct Ht.
Defined.

(* ------------------------------------------------------------------ *)
(** ** Preprocessing: the two resampled tables *)
(* ------------------------------------------------------------------ *)

Lemma ceil_h_mono (a b : Z) : a <= b -> ceil_h a <= ceil_h b.
Proof.
  intros Hab. unfold ceil_h. pose proof hour_pos as Hp.
  assert (- b / hour <= - a / hour) by (apply Z.div_le_mono; lia).
  nia.
Qed.

Lemma timeline_incl (lo hi lo' hi' t : Z) :
  lo <= lo' -> hi' <= hi ->
  In t (timeline lo' hi') -> In t (timeline lo hi).
Proof.
  unfold timeline. rewrite !date_range_In.
  intros Hlo Hhi [k [Hk [-> Hle]]]. pose proof hour_pos as Hp.
  exists (k + (lo' / hour - lo / hour)).
  pose proof (Z.div_le_mono lo lo' hour Hp Hlo).
  pose proof (ceil_h_mono hi' hi Hhi).
  split; [lia|]. split; [unfold floor_h; lia | lia].
Qed.

Lemma filter_twice {A : Type} (p q : A -> bool) (l : list A) :
  filter q (filter p l) = filter (fun x => p x && q x) l.
Proof.
  induction l as [|a l IH]; [reflexivity|]. cbn [filter].
  destruct (p a); cbn [filter andb]; [destruct (q a)|]; now rewrite IH.
Qed.

Lemma apply_selection_rows (selected_locations selected_floors
                            : option (list string)) (df f : DataFrame) :
  has_column "位置" df = true -> has_column "楼层" df = true ->
  apply_selection selected_locations selected_floors df = Ok f ->
  columns f = columns df /\
  (exists mask, rows f = filter mask (rows df)) /\
  forall k,
    group_rows k (rows f)
    = if chosen selected_locations (fst k) && chosen selected_floors (snd k)
      then group_rows k (rows df) else [].
Proof.
  intros Hl Hf Hsel.
  destruct (select_rows_ok "位置" selected_locations df Hl)
    as [d1 [Hd1 [Hc1 Hr1]]].
  assert (Hf1 : has_column "楼层" d1 = true)
    by (unfold has_column; rewrite Hc1; exact Hf).
  destruct (select_rows_ok "楼层" selected_floors d1 Hf1)
    as [d2 [Hd2 [Hc2 Hr2]]].
  unfold apply_selection in Hsel. rewrite Hd1 in Hsel. cbn [bind] in Hsel.
  rewrite Hd2 in Hsel. injection Hsel as <-.
  split; [congruence|]. split.
  - rewrite Hr2, Hr1. eexists. apply filter_twice.
  - intros k. rewrite Hr2, Hr1.
    rewrite (group_rows_filter k _ (chosen selected_floors (snd k))).
    2:{ intros r Hr. apply key_of_cells in Hr. destruct Hr as [_ Hfr].
        now rewrite Hfr. }
    rewrite (group_rows_filter k _ (chosen selected_locations (fst k))).
    2:{ intros r Hr. apply key_of_cells in Hr. destruct Hr as [Hlr _].
        now rewrite Hlr. }
    destruct (chosen selected_locations (fst k)),
             (chosen selected_floors (snd k)); reflexivity.
Qed.

Lemma group_rows_key_In (k : string * string)
  (rs : list (Z * (string -> cell))) :
  In k (group_keys rs) <-> group_rows k rs <> [].
Proof.
  rewrite group_keys_In, in_map_iff. unfold group_rows. split.
  - intros [r [Hk Hr]] He.
    assert (Hin : In r (filter (fun r => match key_of r with
                                         | Some k' => key_eqb k' k
                                         | None => false
                                         end) rs)).
    { apply filter_In. split; [exact Hr|]. rewrite Hk. apply key_eqb_refl. }
    rewrite He in Hin. destruct Hin.
  - intros Hne.
    destruct (filter _ rs) as [|r l] eqn:Hf; [congruence|].
    assert (Hin : In r (r :: l)) by now left.
    rewrite <- Hf in Hin. apply filter_In in Hin. destruct Hin as [Hr Hk].
    exists r. split; [|exact Hr].
    destruct (key_of r) as [k'|]; [|discriminate].
    apply key_eqb_eq in Hk. now subst.
Qed.

(** X19.  The two tables [clean_and_preprocess_data] stores.  The table
    resampled after the selection of locations and floors and the table
    resampled as a whole agree wherever the first has a row: every key
    of the selected data is a key of all the data, and each of its rows
    in the first table has a row with the same label and the same
    measurements in the second.  The first table covers the hours of the
    selected data only, the second those of all the data. *)
Theorem selected_table_agrees (df f all_processed filtered_processed : DataFrame)
  (selected_locations selected_floors : option (list string)) :
  available_columns df <> [] ->
  has_column "datetime" df = true ->
  has_column "位置" df = true ->
  has_column "楼层" df = true ->
  (forall k, In k (group_keys (rows df)) ->
             instants (group_rows k (rows df)) <> []) ->
  apply_selection selected_locations selected_floors df = Ok f ->
  _resample_data df = Ok all_processed ->
  _resample_data f = Ok filtered_processed ->
  forall k, In k (group_keys (rows f)) ->
    In k (group_keys (rows df)) /\
    forall r, In r (rows_of_key k filtered_processed) ->
      exists r', In r' (rows_of_key k all_processed) /\
                 fst r' = fst r /\
                 forall c, In c (available_columns df) -> snd r' c = snd r c.
Proof.
  intros Hav Hdt Hl Hfl Hinst Hsel Hall Hproc k Hk.
  destruct (apply_selection_rows _ _ _ _ Hl Hfl Hsel)
    as [Hcols [[mask Hmask] Hgroups]].
  assert (Hhas : forall c, has_column c f = has_column c df)
    by (intros c; unfold has_column; now rewrite Hcols).
  assert (Hav' : available_columns f = available_columns df).
  { unfold available_columns. apply filter_ext. exact Hhas. }
  assert (Hsame : forall k', In k' (group_keys (rows f)) ->
            group_rows k' (rows f) = group_rows k' (rows df) /\
            In k' (group_keys (rows df))).
  { intros k' Hk'. apply group_rows_key_In in Hk'. rewrite Hgroups in Hk'.
    rewrite Hgroups.
    destruct (chosen selected_locations (fst k')
              && chosen selected_floors (snd k')); [|congruence].
    split; [reflexivity | now apply group_rows_key_In]. }
  destruct (Hsame k Hk) as [Hrows_k Hk_df]. split; [exact Hk_df|].
  (* the time range of all the data and of the selected data *)
  destruct (series_min (instants (rows df))) as [lo|] eqn:Hlo.
  2:{ unfold _resample_data in Hall.
      destruct (available_columns df); [congruence|].
      rewrite Hdt, Hlo in Hall. discriminate. }
  destruct (series_max (instants (rows df))) as [hi|] eqn:Hhi.
  2:{ unfold _resample_data in Hall.
      destruct (available_columns df); [congruence|].
      rewrite Hdt, Hlo, Hhi in Hall. discriminate. }
  destruct (series_min (instants (rows f))) as [lo'|] eqn:Hlo'.
  2:{ unfold _resample_data in Hproc. rewrite Hav' in Hproc.
      destruct (available_columns df); [congruence|].
      rewrite Hhas, Hdt, Hlo' in Hproc. discriminate. }
  destruct (series_max (instants (rows f))) as [hi'|] eqn:Hhi'.
  2:{ unfold _resample_data in Hproc. rewrite Hav' in Hproc.
      destruct (available_columns df); [congruence|].
      rewrite Hhas, Hdt, Hlo', Hhi' in Hproc. discriminate. }
  assert (Hsub : forall t, In t (instants (rows f)) ->
                           In t (instants (rows df))).
  { intros t Ht. apply instants_In in Ht. destruct Ht as [r [Hr Ht]].
    apply instants_In. exists r. split; [|exact Ht].
    rewrite Hmask in Hr. now apply filter_In in Hr. }
  assert (Hlole : lo <= lo').
  { apply (series_min_le _ _ _ Hlo), Hsub.
    destruct (instants (rows f)) as [|x l]; [discriminate|].
    injection Hlo' as <-. apply fold_min_In. }
  assert (Hhile : hi' <= hi).
  { apply (series_max_ge _ _ _ Hhi), Hsub.
    destruct (instants (rows f)) as [|x l]; [discriminate|].
    injection Hhi' as <-. apply fold_max_In. }
  destruct (resampled_key_rows df lo hi) as [out [Hout Hkeys]]; auto.
  { exists k. now apply group_keys_In. }
  { intros k' Hk'. apply Hinst. now apply group_keys_In. }
  destruct (resampled_key_rows f lo' hi') as [out' [Hout' Hkeys']];
    try (rewrite ?Hhas; assumption).
  { now rewrite Hav'. }
  { exists k. now apply group_keys_In. }
  { intros k' Hk'. apply group_keys_In in Hk'.
    destruct (Hsame k' Hk') as [-> Hin]. now apply Hinst. }
  rewrite Hall in Hout. injection Hout as <-.
  rewrite Hproc in Hout'. injection Hout' as <-.
  destruct (Hkeys k (proj1 (group_keys_In _ _) Hk_df)) as [Hidx Hcells].
  destruct (Hkeys' k (proj1 (group_keys_In _ _) Hk)) as [Hidx' Hcells'].
  intros r Hr.
  assert (Ht : In (fst r) (timeline lo hi)).
  { apply (timeline_incl lo hi lo' hi'); [assumption..|].
    rewrite <- Hidx'. now apply in_map. }
  rewrite <- Hidx in Ht. apply in_map_iff in Ht. destruct Ht as [r' [Hfst Hr']].
  exists r'. split; [exact Hr'|]. split; [exact Hfst|].
  intros c Hc. rewrite Forall_forall in Hcells, Hcells'.
  rewrite (Hcells r' Hr' c Hc), Hfst.
  rewrite Hav' in Hcells'. rewrite (Hcells' r Hr c Hc).
  unfold hour_cells. now rewrite Hrows_k.
Qed.

Lemma selected_table_agrees_witness :
  exists f all_processed filtered_processed,
    apply_selection (Some ["L2"]) None sample_readings = Ok f /\
    _resample_data sample_readings = Ok all_processed /\
    _resample_data f = Ok filtered_processed /\
    (List.length (rows_of_key ("L2", "2") filtered_processed) = 4)%nat /\
    (List.length (rows_of_key ("L2", "2") all_processed) = 5)%nat /\
    forall r, In r (rows_of_key ("L2", "2") filtered_processed) ->
      exists r', In r' (rows_of_key ("L2", "2") all_processed) /\
                 fst r' = fst r /\
                 forall c, In c (available_columns sample_readings) ->
                           snd r' c = snd r c.
Proof.
  do 3 eexists.
  split; [vm_compute; reflexivity|].
  split; [vm_compute; reflexivity|].
  split; [vm_compute; reflexivity|].
  split; [vm_compute; reflexivity|]. split; [vm_compute; reflexivity|].
  eapply (selected_table_agrees sample_readings _ _ _ (Some ["L2"]) None).
  - discriminate.
  - reflexivity.
  - reflexivity.
  - reflexivity.
  - intros k Hk. vm_compute in Hk.
    destruct Hk as [<-|[<-|[]]]; discriminate.
  - reflexivity.
  - reflexivity.
  - reflexivity.
  - vm_compute. now left.
Defined.
